(** * Monthly report ETL: tier ranking, sanitizing and tab-delimited export

    Shallow embedding of [scripts/run_exports_query.py]: the month
    arithmetic of [main], the tier join, [prepare_rank_data],
    [clean_dataframe], [save_to_csv] and the per-lender loop of [main].
    pandas frames are modelled as a list of column labels and a list of
    rows of scalar cells; library calls (pandas, dateutil, csv) are
    modelled by the behaviour the script relies on. *)

From Stdlib Require Import ZArith String Ascii List Bool Lia Permutation Sorted.
From Stdlib Require Import DecimalString.
Import ListNotations.

Local Open Scope Z_scope.

(** ** Calendar: [pd.Timestamp], [Period('M')] and [DateOffset(months=k)] *)

Module Calendar.

(** A naive (zone-free) wall-clock instant. *)
Record Timestamp := mkTimestamp {
  year : Z; month : Z; day : Z;
  hour : Z; minute : Z; second : Z
}.

(** [Timestamp.to_period('M')]: the year and the month. *)
Definition Period : Type := (Z * Z)%type.

Definition to_period (t : Timestamp) : Period := (year t, month t).

Definition period_eqb (p q : Period) : bool :=
  (fst p =? fst q) && (snd p =? snd q).

(** Position of a month on the line of all calendar months. *)
Definition month_ordinal (p : Period) : Z := 12 * fst p + (snd p - 1).

(** [report_date.replace(day=1)] *)
Definition replace_day (d : Z) (t : Timestamp) : Timestamp :=
  mkTimestamp (year t) (month t) d (hour t) (minute t) (second t).

Definition is_leap (y : Z) : bool :=
  ((y mod 4 =? 0) && negb (y mod 100 =? 0)) || (y mod 400 =? 0).

(** [calendar.monthrange(y, m)[1]] *)
Definition days_in_month (y m : Z) : Z :=
  if m =? 2 then (if is_leap y then 29 else 28)
  else if (m =? 4) || (m =? 6) || (m =? 9) || (m =? 11) then 30
  else 31.

(** [t + relativedelta(months=k)] for [1 <= |k| <= 12]: the month is
    shifted, the year carries once, the day is clipped to the month. *)
Definition add_months (k : Z) (t : Timestamp) : Timestamp :=
  let m0 := month t + k in
  let y := if 12 <? m0 then year t + 1
           else if m0 <? 1 then year t - 1 else year t in
  let m := if 12 <? m0 then m0 - 12
           else if m0 <? 1 then m0 + 12 else m0 in
  mkTimestamp y m (Z.min (days_in_month y m) (day t))
              (hour t) (minute t) (second t).

(** [t - pd.DateOffset(months=k)] *)
Definition sub_DateOffset_months (k : Z) (t : Timestamp) : Timestamp :=
  add_months (- k) t.

(** Lines 182-184 of [main]. *)
Definition current_month (report_date : Timestamp) : Timestamp :=
  replace_day 1 report_date.

Definition one_month_before (report_date : Timestamp) : Timestamp :=
  sub_DateOffset_months 1 (current_month report_date).

Definition two_months_before (report_date : Timestamp) : Timestamp :=
  sub_DateOffset_months 2 (current_month report_date).

End Calendar.
Export Calendar.

(** ** Ranking: [Series.rank(ascending=False, method='min').astype(int)] *)

Module Rank.

Fixpoint insert_desc (x : Z) (l : list Z) : list Z :=
  match l with
  | [] => [x]
  | y :: l' => if y <=? x then x :: l else y :: insert_desc x l'
  end.

(** Values in descending order. *)
Fixpoint sort_desc (l : list Z) : list Z :=
  match l with
  | [] => []
  | x :: l' => insert_desc x (sort_desc l')
  end.

(** Zero-based position of the first occurrence of [x]. *)
Fixpoint first_pos (x : Z) (l : list Z) : Z :=
  match l with
  | [] => 0
  | y :: l' => if y =? x then 0 else 1 + first_pos x l'
  end.

(** Rank of the value [x] among [xs]: positions are numbered from 1 in
    descending order and a run of equal values takes the smallest
    position of the run. *)
Definition rank_min_desc (x : Z) (xs : list Z) : Z :=
  1 + first_pos x (sort_desc xs).

Definition rank_series (xs : list Z) : list Z :=
  map (fun x => rank_min_desc x xs) xs.

Definition count_gt (x : Z) (xs : list Z) : Z :=
  Z.of_nat (length (filter (fun y => x <? y) xs)).

Definition count_eq (x : Z) (xs : list Z) : Z :=
  Z.of_nat (length (filter (fun y => y =? x) xs)).

End Rank.
Export Rank.

(** ** Scalars and frames *)

(** Floating-point numbers and the library conversions between scalars
    and text are kept abstract: [str_float] and [str_Timestamp] are [str]
    on a float and on an instant, [strftime] renders an instant with the
    [date_format] of [to_csv], and [to_numeric_str] is [pd.to_numeric] on
    one string ([None] when it does not parse). *)
Class Scalars (float : Type) := {
  float_eq_dec : forall x y : float, {x = y} + {x <> y};
  str_float : float -> string;
  str_Timestamp : Timestamp -> string;
  strftime : Timestamp -> string;
  to_numeric_str : string -> option (Z + float)
}.

(** Exceptions the script can meet. *)
Inductive exn :=
| KeyError (label : string)
| AttributeError
| FileNotFoundError
| ParserError
| QueryError
| CsvError
| StopIteration.

Definition result (A : Type) : Type := (exn + A)%type.

Definition bind {A B : Type} (m : result A) (k : A -> result B) : result B :=
  match m with
  | inl e => inl e
  | inr a => k a
  end.

Notation "'let*' x ':=' m 'in' k" := (bind m (fun x => k))
  (at level 10, x name, m at level 100, k at level 200).

Module Chars.
Definition dquote : ascii := "034"%char.
Definition backslash : ascii := "092"%char.
Definition comma : ascii := ","%char.
Definition tab : ascii := "009"%char.
Definition LF : ascii := "010"%char.
Definition CR : ascii := "013"%char.
End Chars.
Import Chars.

Section Model.
Context {float : Type} `{Scalars float}.

(** One value of a frame: the three missing values of pandas ([NaN],
    [None], [NaT]), a string, an integer, a float or an instant. *)
Inductive cell :=
| CNaN
| CNone
| CNaT
| CStr (s : string)
| CInt (z : Z)
| CFloat (x : float)
| CTime (t : Timestamp).

Definition isna (c : cell) : bool :=
  match c with
  | CNaN | CNone | CNaT => true
  | _ => false
  end.

Definition Timestamp_eq_dec (a b : Timestamp) : {a = b} + {a <> b}.
Proof. decide equality; apply Z.eq_dec. Defined.

Definition cell_eq_dec (a b : cell) : {a = b} + {a <> b}.
Proof.
  decide equality;
    [ apply string_dec | apply Z.eq_dec | apply float_eq_dec
    | apply Timestamp_eq_dec ].
Defined.

Definition cell_eqb (a b : cell) : bool :=
  if cell_eq_dec a b then true else false.

(** Key comparison of [DataFrame.merge]: equal values match, and a
    missing key matches a missing key. *)
Definition merge_key_eqb (a b : cell) : bool :=
  (isna a && isna b) || cell_eqb a b.

Record DataFrame := mkDataFrame {
  columns : list string;
  rows : list (list cell)
}.

(** Every row has one cell per column. *)
Definition well_formed (df : DataFrame) : Prop :=
  Forall (fun r => length r = length (columns df)) (rows df).

(** [columns.get_loc(label)] *)
Fixpoint get_loc (label : string) (cols : list string) : option nat :=
  match cols with
  | [] => None
  | c :: cs =>
      if String.eqb c label then Some 0%nat
      else option_map S (get_loc label cs)
  end.

Definition iloc (i : nat) (r : list cell) : cell := nth i r CNaN.

(** Position of a column that must exist. *)
Definition require (label : string) (cols : list string) : result nat :=
  match get_loc label cols with
  | Some i => inr i
  | None => inl (KeyError label)
  end.

Definition mem_label (label : string) (cols : list string) : bool :=
  existsb (String.eqb label) cols.


(** ** Tier lookup join: lines 223-225 of [main] *)


(** Labels present on both sides of a merge get the suffixes of pandas. *)
Definition suffix_left (rcols : list string) (c : string) : string :=
  if mem_label c rcols then (c ++ "_x")%string else c.

Definition suffix_right (lcols : list string) (c : string) : string :=
  if mem_label c lcols then (c ++ "_y")%string else c.

(** Rows of the right frame whose key matches the key of a left row. *)
Definition matches (iL iR : nat) (right : list (list cell)) (l : list cell)
  : list (list cell) :=
  filter (fun r => merge_key_eqb (iloc iL l) (iloc iR r)) right.

(** [left.merge(right, how='left', left_on=.., right_on=..)]: every left
    row once per matching right row, in left order, and once with missing
    values when nothing matches. *)
Definition merge_left_on (left right : DataFrame) (iL iR : nat) : DataFrame :=
  mkDataFrame
    (map (suffix_left (columns right)) (columns left) ++
     map (suffix_right (columns left)) (columns right))
    (flat_map
       (fun l =>
          match matches iL iR (rows right) l with
          | [] => [l ++ repeat CNaN (length (columns right))]
          | ms => map (fun r => l ++ r) ms
          end)
       (rows left)).

Definition drop_at {A : Type} (i : nat) (l : list A) : list A :=
  firstn i l ++ skipn (S i) l.

(** [df.drop(columns=[label])] *)
Definition drop_column (label : string) (df : DataFrame) : result DataFrame :=
  let* i := require label (columns df) in
  inr (mkDataFrame (drop_at i (columns df)) (map (drop_at i) (rows df))).

Definition tier_join (result_df tier_df : DataFrame) : result DataFrame :=
  let* iL := require "exportedLender" (columns result_df) in
  let* iR := require "Lender" (columns tier_df) in
  drop_column "Lender" (merge_left_on result_df tier_df iL iR).

(** No two rows of the lookup carry matching keys. *)
Fixpoint unique_keys (iR : nat) (right : list (list cell)) : bool :=
  match right with
  | [] => true
  | r :: rest =>
      forallb (fun r' => negb (merge_key_eqb (iloc iR r) (iloc iR r'))) rest
      && unique_keys iR rest
  end.


(** ** Ranking engine: [prepare_rank_data] *)


Definition month_of (c : cell) : option Period :=
  match c with
  | CTime t => Some (to_period t)
  | _ => None
  end.

(** The [.dt] accessor needs a datetime column. *)
Definition is_datetimelike (c : cell) : bool :=
  match c with
  | CTime _ | CNaT => true
  | _ => false
  end.

(** Lines 113-117: the month of the instant is one of the three months;
    a missing instant compares false. *)
Definition in_window (cur one two : Period) (c : cell) : bool :=
  match month_of c with
  | Some p => period_eqb p cur || period_eqb p one || period_eqb p two
  | None => false
  end.

Definition GroupKey : Type := (cell * cell * Period)%type.

Definition Period_eq_dec (p q : Period) : {p = q} + {p <> q}.
Proof. decide equality; apply Z.eq_dec. Defined.

Definition TierLender_eq_dec (a b : cell * cell) : {a = b} + {a <> b}.
Proof. decide equality; apply cell_eq_dec. Defined.

Definition GroupKey_eq_dec (a b : GroupKey) : {a = b} + {a <> b}.
Proof. decide equality; [apply Period_eq_dec | apply TierLender_eq_dec]. Defined.

(** One row of [count_df]. *)
Record CountRow := mkCountRow {
  cr_Tier : cell;
  cr_exportedLender : cell;
  cr_Month : Period;
  scenario_count : Z
}.

Section Columns.
(** Positions of the columns [time], [Tier], [exportedLender], [scenarioId]. *)
Variables iTime iTier iLender iScenario : nat.

(** [groupby] leaves out a row whose key has a missing part. *)
Definition group_key (r : list cell) : option GroupKey :=
  if isna (iloc iTier r) || isna (iloc iLender r) then None
  else match month_of (iloc iTime r) with
       | Some p => Some (iloc iTier r, iloc iLender r, p)
       | None => None
       end.

Fixpoint group_keys (rs : list (list cell)) : list GroupKey :=
  match rs with
  | [] => []
  | r :: rs' =>
      match group_key r with
      | Some k => k :: group_keys rs'
      | None => group_keys rs'
      end
  end.

Definition in_group (k : GroupKey) (r : list cell) : bool :=
  match group_key r with
  | Some k' => if GroupKey_eq_dec k k' then true else false
  | None => false
  end.

(** [['scenarioId'].count()]: the present values of a group. *)
Definition count_notna (k : GroupKey) (rs : list (list cell)) : Z :=
  Z.of_nat (length (filter
    (fun r => in_group k r && negb (isna (iloc iScenario r))) rs)).

(** Line 121. pandas lists the groups in key order; here they come in the
    order of [nodup]. The order of [count_df] reaches neither the ranks
    nor the merge. *)
Definition groupby_count (rs : list (list cell)) : list CountRow :=
  map (fun k => mkCountRow (fst (fst k)) (snd (fst k)) (snd k)
                           (count_notna k rs))
      (nodup GroupKey_eq_dec (group_keys rs)).

End Columns.

Definition same_tier_month (a b : CountRow) : bool :=
  cell_eqb (cr_Tier a) (cr_Tier b) && period_eqb (cr_Month a) (cr_Month b).

(** Line 125: rank of a row among the rows of its tier and month. *)
Definition rank_in_tier (count_df : list CountRow) (cr : CountRow) : Z :=
  rank_min_desc (scenario_count cr)
    (map scenario_count (filter (same_tier_month cr) count_df)).

(** Lines 128-133. The pivot has one row per (Tier, exportedLender) and,
    for each value, one column per month present in [count_df]. *)
Record PivotFrame := mkPivotFrame {
  pv_months : list Period;
  pv_index : list (cell * cell)
}.

Definition pivot_table (count_df : list CountRow) : PivotFrame :=
  mkPivotFrame
    (nodup Period_eq_dec (map cr_Month count_df))
    (nodup TierLender_eq_dec
       (map (fun cr => (cr_Tier cr, cr_exportedLender cr)) count_df)).

(** A cell of the pivot: the value of the one row of [count_df] with that
    tier, lender and month, and [fill_value=0] when there is none. *)
Definition pivot_cell (value : CountRow -> Z) (count_df : list CountRow)
  (tl : cell * cell) (M : Period) : Z :=
  match find (fun cr => cell_eqb (cr_Tier cr) (fst tl)
                        && cell_eqb (cr_exportedLender cr) (snd tl)
                        && period_eqb (cr_Month cr) M) count_df with
  | Some cr => value cr
  | None => 0
  end.

(** One row of the four columns selected at line 158. *)
Record RankRow := mkRankRow {
  rr_Tier : cell;
  rr_exportedLender : cell;
  rank_in_tier_one_month : Z;
  rank_in_tier_two_months : Z
}.

(** Lines 136-158: the column of a month is renamed only when the pivot
    has it, and selecting a column that is not there raises [KeyError]. *)
Definition select_rank_columns (count_df : list CountRow) (one two : Period)
  : result (list RankRow) :=
  let pivot_df := pivot_table count_df in
  if negb (existsb (period_eqb one) (pv_months pivot_df))
  then inl (KeyError "rank_in_tier_one_month")
  else if negb (existsb (period_eqb two) (pv_months pivot_df))
  then inl (KeyError "rank_in_tier_two_months")
  else inr (map (fun tl =>
                   mkRankRow (fst tl) (snd tl)
                     (pivot_cell (rank_in_tier count_df) count_df tl one)
                     (pivot_cell (rank_in_tier count_df) count_df tl two))
                (pv_index pivot_df)).

Definition rank_matches (iTier iLender : nat) (ranks : list RankRow)
  (l : list cell) : list RankRow :=
  filter (fun rr => merge_key_eqb (iloc iTier l) (rr_Tier rr)
                    && merge_key_eqb (iloc iLender l) (rr_exportedLender rr))
         ranks.

(** Lines 157-161: left merge on (Tier, exportedLender). *)
Definition merge_ranks (iTier iLender : nat) (ranks : list RankRow)
  (rs : list (list cell)) : list (list cell) :=
  flat_map
    (fun l =>
       match rank_matches iTier iLender ranks l with
       | [] => [l ++ [CNaN; CNaN]]
       | ms => map (fun rr => l ++ [CInt (rank_in_tier_one_month rr);
                                    CInt (rank_in_tier_two_months rr)]) ms
       end)
    rs.

Definition rank_labels : list string :=
  ["rank_in_tier_one_month"%string; "rank_in_tier_two_months"%string].

(** The instants are naive wall-clock values in UTC, which is what lines
    109-110 leave in the [time] column. *)
Definition prepare_rank_data (result_df : DataFrame)
  (current_month one_month_before two_months_before : Timestamp)
  : result DataFrame :=
  let cols := columns result_df in
  let* iTime := require "time" cols in
  if negb (forallb (fun r => is_datetimelike (iloc iTime r)) (rows result_df))
  then inl AttributeError
  else
    let result_df_filtered :=
      filter (fun r => in_window (to_period current_month)
                                 (to_period one_month_before)
                                 (to_period two_months_before)
                                 (iloc iTime r))
             (rows result_df) in
    let* iTier := require "Tier" cols in
    let* iLender := require "exportedLender" cols in
    let* iScenario := require "scenarioId" cols in
    let count_df :=
      groupby_count iTime iTier iLender iScenario result_df_filtered in
    let* ranks := select_rank_columns count_df (to_period one_month_before)
                                 (to_period two_months_before) in
    inr (mkDataFrame
           (map (suffix_left rank_labels) cols ++
            map (suffix_right cols) rank_labels)
           (merge_ranks iTier iLender ranks (rows result_df))).


(** ** Record sanitizer: [clean_dataframe] *)



Definition string_columns : list string :=
  ["associated_lender"; "exportedLender"; "primaryIncome"; "rateType";
   "loanPurpose"; "lvrBucket"; "transactionType"; "performance";
   "scenarioId"]%string.

Definition numeric_columns : list string :=
  ["totalProposedLoanAmount"; "lvr"; "paygIncome"; "weeklyRentalIncome";
   "selfEmployedIncome"; "count_all_loan_purpose";
   "count_all_unique_scenario_id"; "sum_all_total_proposed_loan_amount"]%string.

Definition str_int (z : Z) : string := NilZero.string_of_int (Z.to_int z).

(** [str(value)]: a missing value becomes its printed name. *)
Definition str_cell (c : cell) : string :=
  match c with
  | CNaN => "nan"
  | CNone => "None"
  | CNaT => "NaT"
  | CStr s => s
  | CInt z => str_int z
  | CFloat x => str_float x
  | CTime t => str_Timestamp t
  end.

(** Element of [Series.astype(str)]. *)
Definition astype_str (c : cell) : cell := CStr (str_cell c).

(** The character class of line 60: brackets, braces, double quote,
    backslash and comma. *)
Definition stripped_char (a : ascii) : bool :=
  existsb (Ascii.eqb a)
    ["["%char; "]"%char; "{"%char; "}"%char; dquote; backslash; comma].

Fixpoint strip_chars (s : string) : string :=
  match s with
  | EmptyString => EmptyString
  | String a s' =>
      if stripped_char a then strip_chars s' else String a (strip_chars s')
  end.

(** Element of [Series.replace(pattern, '', regex=True)]. *)
Definition replace_cell (c : cell) : cell :=
  match c with
  | CStr s => CStr (strip_chars s)
  | _ => c
  end.

(** [',' in s] *)
Fixpoint contains_comma (s : string) : bool :=
  match s with
  | EmptyString => false
  | String a s' => Ascii.eqb a comma || contains_comma s'
  end.

Definition is_opener (a : ascii) : bool :=
  Ascii.eqb a "["%char || Ascii.eqb a "{"%char.

Definition is_closer (a : ascii) : bool :=
  Ascii.eqb a "]"%char || Ascii.eqb a "}"%char.

(** A closing bracket or brace comes before the next line feed: the dot of
    the pattern does not match a line feed. *)
Fixpoint closes_on_line (s : string) : bool :=
  match s with
  | EmptyString => false
  | String a s' =>
      is_closer a || (negb (Ascii.eqb a LF) && closes_on_line s')
  end.

(** Search of the pattern of line 62: an opening bracket or brace, any
    characters of the line, a closing bracket or brace. *)
Fixpoint json_like (s : string) : bool :=
  match s with
  | EmptyString => false
  | String a s' => (is_opener a && closes_on_line s') || json_like s'
  end.

(** Element of [Series.str.contains(.., na=False)]. *)
Definition cell_contains (p : string -> bool) (c : cell) : bool :=
  match c with
  | CStr s => p s
  | _ => false
  end.

(** Element of [pd.to_numeric(.., errors='coerce')]. *)
Definition to_numeric (c : cell) : cell :=
  match c with
  | CInt z => CInt z
  | CFloat x => CFloat x
  | CStr s =>
      match to_numeric_str s with
      | Some (inl z) => CInt z
      | Some (inr x) => CFloat x
      | None => CNaN
      end
  | _ => CNaN
  end.

Fixpoint apply_at (i : nat) (f : cell -> cell) (r : list cell) {struct r}
  : list cell :=
  match r with
  | [] => []
  | c :: r' =>
      match i with
      | O => f c :: r'
      | S i' => c :: apply_at i' f r'
      end
  end.

(** [df[label] = f(df[label])]; nothing happens without that column. *)
Definition map_column (label : string) (f : cell -> cell) (df : DataFrame)
  : DataFrame :=
  match get_loc label (columns df) with
  | Some i => mkDataFrame (columns df) (map (apply_at i f) (rows df))
  | None => df
  end.

Definition column_values (label : string) (df : DataFrame) : list cell :=
  match get_loc label (columns df) with
  | Some i => map (iloc i) (rows df)
  | None => []
  end.

Inductive warning :=
| CommasFound (col : string)
| JsonLikeFound (col : string).

(** Lines 59-67 for one column. *)
Definition clean_string_column
  (st : DataFrame * list warning) (col : string) : DataFrame * list warning :=
  if mem_label col (columns (fst st)) then
    let df := map_column col (fun c => replace_cell (astype_str c)) (fst st) in
    let comma_values := map (cell_contains contains_comma) (column_values col df) in
    let json_values := map (cell_contains json_like) (column_values col df) in
    (df,
     snd st
     ++ (if existsb id comma_values then [CommasFound col] else [])
     ++ (if existsb id json_values then [JsonLikeFound col] else []))
  else st.

(** Lines 70-71 for one column. *)
Definition clean_numeric_column (df : DataFrame) (col : string) : DataFrame :=
  if mem_label col (columns df) then map_column col to_numeric df else df.

(** The cleaned frame and the warnings printed on the way. *)
Definition clean_dataframe (df : DataFrame) : DataFrame * list warning :=
  let df0 :=
    if mem_label "time" (columns df) then map_column "time" astype_str df
    else df in
  let st := fold_left clean_string_column string_columns (df0, []) in
  (fold_left clean_numeric_column numeric_columns (fst st), snd st).


(** ** Tabular exporter: [save_to_csv] *)


(** The bytes that [utf-8-sig] puts in front of the text. *)
Definition BOM : list ascii := ["239"%char; "187"%char; "191"%char].

(** Text of one cell in [to_csv]: [na_rep] for a missing value. *)
Definition csv_value (c : cell) : string :=
  match c with
  | CNaN | CNone | CNaT => EmptyString
  | CStr s => s
  | CInt z => str_int z
  | CFloat x => str_float x
  | CTime t => strftime t
  end.

(** [csv.writer] with [doublequote=True] and [escapechar=backslash]: a
    quote of the data is doubled and a backslash of the data is preceded
    by the escape character. *)
Fixpoint escape_field (s : list ascii) : list ascii :=
  match s with
  | [] => []
  | a :: s' =>
      if Ascii.eqb a dquote then dquote :: dquote :: escape_field s'
      else if Ascii.eqb a backslash then backslash :: backslash :: escape_field s'
      else a :: escape_field s'
  end.

(** [QUOTE_ALL]: every field is wrapped in quotes. *)
Definition quote_field (s : string) : list ascii :=
  dquote :: escape_field (list_ascii_of_string s) ++ [dquote].

Fixpoint join_fields (fs : list (list ascii)) : list ascii :=
  match fs with
  | [] => []
  | f :: fs' =>
      match fs' with
      | [] => f
      | _ => f ++ tab :: join_fields fs'
      end
  end.

Definition writerow (fs : list string) : list ascii :=
  join_fields (map quote_field fs) ++ [LF].

(** Lines 77-88: the mark, the header row, one row per record. *)
Definition to_csv (df : DataFrame) : list ascii :=
  BOM ++ writerow (columns df)
      ++ flat_map (fun r => writerow (map csv_value r)) (rows df).

(** Reading back: [open(path, 'r', encoding='utf-8-sig')]. *)
Definition decode_utf8_sig (bs : list ascii) : list ascii :=
  match bs with
  | b1 :: b2 :: b3 :: rest =>
      if Ascii.eqb b1 "239"%char && Ascii.eqb b2 "187"%char
         && Ascii.eqb b3 "191"%char
      then rest else bs
  | _ => bs
  end.

(** Text mode without [newline='']: a carriage return, alone or followed
    by a line feed, is read as one line feed. *)
Fixpoint universal_newlines (pending_cr : bool) (s : list ascii) : list ascii :=
  match s with
  | [] => []
  | a :: s' =>
      if Ascii.eqb a CR then LF :: universal_newlines true s'
      else if Ascii.eqb a LF then
        (if pending_cr then universal_newlines false s'
         else LF :: universal_newlines false s')
      else a :: universal_newlines false s'
  end.

(** What [csv.reader] is fed: the characters of each line, and the end of
    line mark after each line. *)
Inductive input :=
| Char (a : ascii)
| EOL.

Definition events (s : list ascii) : list input :=
  flat_map (fun a => if Ascii.eqb a LF then [Char a; EOL] else [Char a]) s
  ++ (if Ascii.eqb (last s LF) LF then [] else [EOL]).

(** States of the record parser of the [csv] module. The dialect of line
    93 has the tab as delimiter, the double quote as quote character, no
    escape character, and is not strict. *)
Inductive ParserState :=
| START_RECORD
| START_FIELD
| IN_FIELD
| IN_QUOTED_FIELD
| QUOTE_IN_QUOTED_FIELD
| EAT_CRNL.

Record Reader := mkReader {
  state : ParserState;
  fields : list (list ascii);
  field : list ascii
}.

Definition set_state (rd : Reader) (st : ParserState) : Reader :=
  mkReader st (fields rd) (field rd).

Definition save_field (rd : Reader) (st : ParserState) : Reader :=
  mkReader st (fields rd ++ [field rd]) [].

Definition add_char (rd : Reader) (st : ParserState) (a : ascii) : Reader :=
  mkReader st (fields rd) (field rd ++ [a]).

Definition is_newline (a : ascii) : bool := Ascii.eqb a LF || Ascii.eqb a CR.

Definition process_char (rd : Reader) (c : input) : result Reader :=
  match state rd with
  | START_RECORD =>
      match c with
      | EOL => inr rd
      | Char a =>
          if is_newline a then inr (set_state rd EAT_CRNL)
          else if Ascii.eqb a dquote then inr (set_state rd IN_QUOTED_FIELD)
          else if Ascii.eqb a tab then inr (save_field rd START_FIELD)
          else inr (add_char rd IN_FIELD a)
      end
  | START_FIELD =>
      match c with
      | EOL => inr (save_field rd START_RECORD)
      | Char a =>
          if is_newline a then inr (save_field rd EAT_CRNL)
          else if Ascii.eqb a dquote then inr (set_state rd IN_QUOTED_FIELD)
          else if Ascii.eqb a tab then inr (save_field rd START_FIELD)
          else inr (add_char rd IN_FIELD a)
      end
  | IN_FIELD =>
      match c with
      | EOL => inr (save_field rd START_RECORD)
      | Char a =>
          if is_newline a then inr (save_field rd EAT_CRNL)
          else if Ascii.eqb a tab then inr (save_field rd START_FIELD)
          else inr (add_char rd IN_FIELD a)
      end
  | IN_QUOTED_FIELD =>
      match c with
      | EOL => inr rd
      | Char a =>
          if Ascii.eqb a dquote then inr (set_state rd QUOTE_IN_QUOTED_FIELD)
          else inr (add_char rd IN_QUOTED_FIELD a)
      end
  | QUOTE_IN_QUOTED_FIELD =>
      match c with
      | EOL => inr (save_field rd START_RECORD)
      | Char a =>
          if Ascii.eqb a dquote then inr (add_char rd IN_QUOTED_FIELD a)
          else if Ascii.eqb a tab then inr (save_field rd START_FIELD)
          else if is_newline a then inr (save_field rd EAT_CRNL)
          else inr (add_char rd IN_FIELD a)
      end
  | EAT_CRNL =>
      match c with
      | EOL => inr (set_state rd START_RECORD)
      | Char a => if is_newline a then inr rd else inl CsvError
      end
  end.

Definition is_START_RECORD (st : ParserState) : bool :=
  match st with START_RECORD => true | _ => false end.

Definition is_IN_QUOTED_FIELD (st : ParserState) : bool :=
  match st with IN_QUOTED_FIELD => true | _ => false end.

Definition is_EOL (c : input) : bool :=
  match c with EOL => true | _ => false end.

(** One record: input is consumed until a line ends with the parser back
    at the start of a record. At the end of the input a pending field is
    kept, and nothing pending stops the iteration. *)
Fixpoint iternext (rd : Reader) (evs : list input)
  : result (list (list ascii) * list input) :=
  match evs with
  | [] =>
      match field rd with
      | [] =>
          if is_IN_QUOTED_FIELD (state rd)
          then inr (fields (save_field rd START_RECORD), [])
          else inl StopIteration
      | _ => inr (fields (save_field rd START_RECORD), [])
      end
  | c :: evs' =>
      match process_char rd c with
      | inl e => inl e
      | inr rd' =>
          if is_EOL c && is_START_RECORD (state rd') then inr (fields rd', evs')
          else iternext rd' evs'
      end
  end.

(** [next(csv_reader)] *)
Definition next (evs : list input) : result (list (list ascii) * list input) :=
  iternext (mkReader START_RECORD [] []) evs.

Definition open_read (content : list ascii) : list input :=
  events (universal_newlines false (decode_utf8_sig content)).

Inductive message :=
| SavedResults
| HeaderMismatch
| HeaderValidated
| RowLengthMismatch
| ErrorValidating (e : exn).

Definition header_eqb (header : list (list ascii)) (expected : list string) : bool :=
  if list_eq_dec string_dec (map string_of_list_ascii header) expected
  then true else false.

(** Lines 91-104. *)
Definition validate (content : list ascii) (expected_columns : list string)
  : list message :=
  match next (open_read content) with
  | inl e => [ErrorValidating e]
  | inr (header, rest) =>
      let m := if header_eqb header expected_columns
               then HeaderValidated else HeaderMismatch in
      match next rest with
      | inl StopIteration => [m]
      | inl e => [m; ErrorValidating e]
      | inr (first_row, _) =>
          match first_row with
          | [] => [m]
          | _ =>
              if Nat.eqb (length first_row) (length expected_columns)
              then [m] else [m; RowLengthMismatch]
          end
      end
  end.

(** The file written and what is printed. *)
Definition save_to_csv (df : DataFrame) : list ascii * list message :=
  (to_csv df, SavedResults :: validate (to_csv df) (columns df)).


(** ** Pipeline driver: [main] *)


(** What the run finds outside the program: the start-up steps of lines
    186-201, the lenders of [get_lenders], the records the query returns
    for a lender, and what [pd.read_csv('competitor-list.csv')] gives. *)
Record World := mkWorld {
  startup : result unit;
  lenders_of : result (list string);
  fetchdf : string -> result DataFrame;
  read_tier_csv : result DataFrame
}.

Inductive event :=
| RunningQuery (lender : string)
| Results (lender : string) (n : nat)
| Warned (w : warning)
| Said (m : message)
| ErrorRunningQuery (lender : string) (e : exn)
| AllProcessed.

(** Files written, by lender, and lines printed. *)
Record Run := mkRun {
  files : list (string * list ascii);
  printed : list event
}.

Definition print (r : Run) (evs : list event) : Run :=
  mkRun (files r) (printed r ++ evs).

(** Body of the [try] of lines 220-239. *)
Definition process_lender (w : World) (report_date : Timestamp)
  (lender_name : string) : result (list ascii * list event) :=
  let* result_df := fetchdf w lender_name in
  let* tier_df := read_tier_csv w in
  let* result_df := tier_join result_df tier_df in
  let* result_df := prepare_rank_data result_df (current_month report_date)
                 (one_month_before report_date)
                 (two_months_before report_date) in
  let cleaned := clean_dataframe result_df in
  let saved := save_to_csv (fst cleaned) in
  inr (fst saved,
       Results lender_name (length (rows result_df))
       :: map Warned (snd cleaned) ++ map Said (snd saved)).

(** The loop of lines 208-242: any exception of the body is caught and
    printed, and the loop goes on with the next lender. *)
Fixpoint main_loop (w : World) (report_date : Timestamp)
  (lenders : list string) (r : Run) : Run :=
  match lenders with
  | [] => r
  | lender_name :: rest =>
      let r1 := print r [RunningQuery lender_name] in
      match process_lender w report_date lender_name with
      | inr (content, evs) =>
          main_loop w report_date rest
            (print (mkRun (files r1 ++ [(lender_name, content)]) (printed r1)) evs)
      | inl e =>
          main_loop w report_date rest (print r1 [ErrorRunningQuery lender_name e])
      end
  end.

Inductive outcome :=
| Completed (r : Run)
| Aborted (e : exn) (r : Run).

Definition main (w : World) (report_date : Timestamp) : outcome :=
  match startup w with
  | inl e => Aborted e (mkRun [] [])
  | inr _ =>
      match lenders_of w with
      | inl e => Aborted e (mkRun [] [AllProcessed])
      | inr lenders =>
          Completed (print (main_loop w report_date lenders (mkRun [] []))
                           [AllProcessed])
      end
  end.

(** The cells that the lookup contributes to a record: the first matching
    row of the lookup, or missing values. *)
Definition lookup_cells (iL iR : nat) (right : DataFrame) (l : list cell)
  : list cell :=
  match matches iL iR (rows right) l with
  | [] => repeat CNaN (length (columns right))
  | r :: _ => r
  end.

(** ** Vocabulary of the properties *)

Section Entities.
(** Positions of the columns [time], [Tier] and [exportedLender]. *)
Variables iTime iTier iLender : nat.

(** Two records of the same tier and lender. *)
Definition same_entity (a b : list cell) : bool :=
  cell_eqb (iloc iTier a) (iloc iTier b)
  && cell_eqb (iloc iLender a) (iloc iLender b).

Definition in_month (M : Period) (r : list cell) : bool :=
  match month_of (iloc iTime r) with
  | Some p => period_eqb p M
  | None => false
  end.

(** [M] is one of the three months of the window. *)
Definition in_three (cur one two M : Period) : Prop :=
  M = cur \/ M = one \/ M = two.

(** A record can be counted when its tier and its lender are present. *)
Definition has_key (r : list cell) : bool :=
  negb (isna (iloc iTier r)) && negb (isna (iloc iLender r)).

(** The entity of [r] has a record in the month [M]. *)
Definition entity_in_month (rs : list (list cell)) (r : list cell)
  (M : Period) : bool :=
  existsb (fun x => same_entity x r && in_month M x) rs.

(** The entity of [r] can be counted and has a record in one of the
    three months. *)
Definition entity_ranked (rs : list (list cell)) (cur one two : Period)
  (r : list cell) : bool :=
  has_key r
  && (entity_in_month rs r cur || entity_in_month rs r one
      || entity_in_month rs r two).

(** Some record that can be counted lies in the month [M]. *)
Definition month_populated (rs : list (list cell)) (M : Period) : bool :=
  existsb (fun x => has_key x && in_month M x) rs.

End Entities.

(** The two cells that the merge appends to a record. *)
Definition appended_ranks (iTime iTier iLender iScenario : nat)
  (cur one two : Period) (rs : list (list cell)) (r : list cell) : list cell :=
  let count_df :=
    groupby_count iTime iTier iLender iScenario
      (filter (fun x => in_window cur one two (iloc iTime x)) rs) in
  if entity_ranked iTime iTier iLender rs cur one two r
  then [CInt (pivot_cell (rank_in_tier count_df) count_df
                (iloc iTier r, iloc iLender r) one);
        CInt (pivot_cell (rank_in_tier count_df) count_df
                (iloc iTier r, iloc iLender r) two)]
  else [CNaN; CNaN].

(** No character of [s] satisfies [p]. *)
Fixpoint free_of (p : ascii -> bool) (s : string) : bool :=
  match s with
  | EmptyString => true
  | String a s' => negb (p a) && free_of p s'
  end.

Definition idempotent (f : cell -> cell) : Prop := forall c, f (f c) = f c.

(** The column assignments of [clean_dataframe], in the order of the
    code: the label and the function applied to every cell. *)
Definition cleaning_steps : list (string * (cell -> cell)) :=
  ("time"%string, astype_str)
  :: map (fun col => (col, fun c => replace_cell (astype_str c))) string_columns
  ++ map (fun col => (col, to_numeric)) numeric_columns.

Definition run_steps (steps : list (string * (cell -> cell))) (df : DataFrame)
  : DataFrame :=
  fold_left (fun d step => map_column (fst step) (snd step) d) steps df.

(** The characters of each line with the end of line mark after each line
    feed, as [events] gives them for a text that ends with a line feed. *)
Definition feed (s : list ascii) : list input :=
  flat_map (fun a => if Ascii.eqb a LF then [Char a; EOL] else [Char a]) s.




(** The lookup file cannot be read, or is read without a [Lender] column. *)
Definition tier_source_unusable (w : World) : Prop :=
  (exists e, read_tier_csv w = inl e)
  \/ (exists t, read_tier_csv w = inr t
                /\ get_loc "Lender" (columns t) = None).

(** The exception that the body of the loop raises for a lender. *)
Definition error_of (w : World) (report_date : Timestamp) (lender : string)
  : exn :=
  match process_lender w report_date lender with
  | inl e => e
  | inr _ => StopIteration
  end.

Definition sumZ (l : list Z) : Z := fold_right Z.add 0 l.

(** A record that the count of line 121 counts: tier, lender, instant and
    scenario are all present. *)
Definition counted_record (iTime iTier iLender iScenario : nat)
  (r : list cell) : bool :=
  has_key iTier iLender r
  && match month_of (iloc iTime r) with Some _ => true | None => false end
  && negb (isna (iloc iScenario r)).

(** One record after the column assignments [steps], for a frame with
    the columns [cols]. *)
Definition row_after (cols : list string)
  (steps : list (string * (cell -> cell))) (r : list cell) : list cell :=
  fold_left (fun r' step =>
               match get_loc (fst step) cols with
               | Some j => apply_at j (snd step) r'
               | None => r'
               end)
            steps r.

(** A number or the missing number. *)
Definition is_numeric (c : cell) : bool :=
  match c with
  | CInt _ | CFloat _ | CNaN => true
  | _ => false
  end.

(** What the loop writes for one lender: a file when the body of the
    [try] returns, nothing when it raises. *)
Definition export_of (w : World) (report_date : Timestamp) (lender : string)
  : list (string * list ascii) :=
  match process_lender w report_date lender with
  | inr (content, _) => [(lender, content)]
  | inl _ => []
  end.

(** What the loop prints for one lender. *)
Definition lines_of (w : World) (report_date : Timestamp) (lender : string)
  : list event :=
  RunningQuery lender
  :: match process_lender w report_date lender with
     | inr (_, evs) => evs
     | inl e => [ErrorRunningQuery lender e]
     end.



(** The frame has what the engine needs to return: the four columns, a
    datetime [time] column, and a record that can be counted in each of
    the two lagging months. *)
Definition rankable (df : DataFrame) (one two : Period) : Prop :=
  exists iTime iTier iLender iScenario,
    get_loc "time" (columns df) = Some iTime
    /\ get_loc "Tier" (columns df) = Some iTier
    /\ get_loc "exportedLender" (columns df) = Some iLender
    /\ get_loc "scenarioId" (columns df) = Some iScenario
    /\ forallb (fun r => is_datetimelike (iloc iTime r)) (rows df) = true
    /\ month_populated iTime iTier iLender (rows df) one = true
    /\ month_populated iTime iTier iLender (rows df) two = true.

End Model.

Arguments cell : clear implicits.
Arguments DataFrame : clear implicits.
Arguments CountRow : clear implicits.
Arguments RankRow : clear implicits.
Arguments World : clear implicits.

(** ** Sample data *)

Module Sample.

Definition decimal (z : Z) : string := NilZero.string_of_int (Z.to_int z).

Definition pad2 (n : Z) : string :=
  if n <? 10 then String "0" (decimal n) else decimal n.

Definition iso (t : Timestamp) : string :=
  (decimal (year t) ++ "-" ++ pad2 (month t) ++ "-" ++ pad2 (day t)
   ++ " " ++ pad2 (hour t) ++ ":" ++ pad2 (minute t) ++ ":"
   ++ pad2 (second t))%string.

Definition parse_int (s : string) : option (Z + Empty_set) :=
  match NilZero.int_of_string s with
  | Some d => Some (inl (Z.of_int d))
  | None => None
  end.

(** Scalars without floats: numbers are integers written in decimal. *)
#[global] Instance integers : Scalars Empty_set := {|
  float_eq_dec := fun x : Empty_set => match x with end;
  str_float := fun x : Empty_set => match x with end;
  str_Timestamp := iso;
  strftime := iso;
  to_numeric_str := parse_int
|}.

Definition Cell : Type := cell Empty_set.
Definition Frame : Type := DataFrame Empty_set.

Definition at_noon (y m d : Z) : Timestamp := mkTimestamp y m d 12 0 0.

Definition report_date : Timestamp := mkTimestamp 2025 8 28 0 0 0.

(** Records of four lenders and of one that the lookup does not know. *)
Definition raw_columns : list string :=
  ["exportedLender"; "time"; "scenarioId"; "rateType"; "lvr"]%string.

Definition record (lender : string) (t scenario : Cell) : list Cell :=
  [CStr lender; t; scenario; CStr "fixed, [3y]"; CStr "80"].

Definition result_df : Frame :=
  mkDataFrame raw_columns
    [ record "A" (CTime (at_noon 2025 7 1)) (CStr "s1");
      record "A" (CTime (at_noon 2025 7 9)) (CStr "s2");
      record "A" (CTime (at_noon 2025 6 3)) (CStr "s3");
      record "B" (CTime (at_noon 2025 7 2)) (CStr "s4");
      record "B" (CTime (at_noon 2025 7 30)) (CStr "s5");
      record "B" (CTime (at_noon 2025 8 4)) (CStr "s6");
      record "C" (CTime (at_noon 2025 7 15)) (CStr "s7");
      record "C" (CTime (at_noon 2025 6 20)) (CStr "s8");
      record "D" (CTime (at_noon 2025 7 5)) (CStr "s9");
      record "E" CNaT CNone;
      record "E" (CTime (at_noon 2025 3 1)) (CStr "s10") ].

Definition tier_df : Frame :=
  mkDataFrame ["Lender"; "Tier"]%string
    [ [CStr "A"; CStr "1"]; [CStr "B"; CStr "1"];
      [CStr "C"; CStr "1"]; [CStr "E"; CStr "2"] ].

Definition joined_df : Frame :=
  match tier_join result_df tier_df with
  | inr df => df
  | inl _ => mkDataFrame [] []
  end.

(** The rows of the three months of the window of [report_date]. *)
Definition window_rows : list (list Cell) :=
  filter (fun r => in_window (2025, 8) (2025, 7) (2025, 6) (iloc 1 r))
         (rows joined_df).

Definition count_row_C_july : CountRow Empty_set :=
  mkCountRow (CStr "1") (CStr "C") (2025, 7) 1.

Definition ranked_df : Frame :=
  match prepare_rank_data joined_df (current_month report_date)
          (one_month_before report_date) (two_months_before report_date) with
  | inr df => df
  | inl _ => mkDataFrame [] []
  end.

(** A frame with a record of July and a record without instant, and no
    record of June. *)
Definition no_june_df : Frame :=
  mkDataFrame (raw_columns ++ ["Tier"%string])
    [ [CStr "A"; CTime (at_noon 2025 7 1); CStr "s1"; CStr "fixed";
       CStr "80"; CStr "1"];
      [CStr "A"; CNaT; CStr "s2"; CStr "fixed"; CStr "80"; CStr "1"] ].

(** The fourth record: lender B, in July. *)
Definition record_B : list Cell := nth 3 (rows joined_df) [].

(** One record, of a lender that the lookup does not know. *)
Definition unknown_lender_df : Frame :=
  mkDataFrame raw_columns
    [ record "D" (CTime (at_noon 2025 7 5)) (CStr "s9") ].

(** A run for that lender alone, with the lookup in place. *)
Definition unknown_lender_world : World Empty_set :=
  mkWorld (inr tt) (inr ["D"%string]) (fun _ => inr unknown_lender_df)
          (inr tier_df).



(** Records whose text field, number field, tier and instant are missing. *)
Definition missing_values_df : Frame :=
  mkDataFrame ["rateType"; "lvr"; "Tier"; "time"]%string
    [ [CNaN; CNaN; CNaN; CNaT];
      [CNone; CNone; CNone; CNaT] ].

(** A run for two lenders without the lookup file. *)
Definition world_without_tiers : World Empty_set :=
  mkWorld (inr tt) (inr ["A"; "B"]%string) (fun _ => inr result_df)
          (inl FileNotFoundError).

Definition count_row_A_july : CountRow Empty_set :=
  mkCountRow (CStr "1") (CStr "A") (2025, 7) 2.

(** A run for two lenders with the lookup in place, where the query of
    the second lender fails. *)
Definition mixed_world : World Empty_set :=
  mkWorld (inr tt) (inr ["A"; "Z"]%string)
          (fun lender => if String.eqb lender "Z" then inl QueryError
                         else inr result_df)
          (inr tier_df).

(** Joined records of two tiers in two months: in July the lenders A
    (three records) and B (two) of tier 1 and the lender E (one) of
    tier 2; in June the lender C (one) of tier 1. *)
Definition tiered_record (lender tier : string) (t : Cell) (scenario : string)
  : list Cell :=
  record lender t (CStr scenario) ++ [CStr tier].

Definition two_tier_rows : list (list Cell) :=
  [ tiered_record "A" "1" (CTime (at_noon 2025 7 1)) "t1";
    tiered_record "A" "1" (CTime (at_noon 2025 7 9)) "t2";
    tiered_record "A" "1" (CTime (at_noon 2025 7 21)) "t3";
    tiered_record "B" "1" (CTime (at_noon 2025 7 2)) "t4";
    tiered_record "B" "1" (CTime (at_noon 2025 7 30)) "t5";
    tiered_record "E" "2" (CTime (at_noon 2025 7 11)) "t6";
    tiered_record "C" "1" (CTime (at_noon 2025 6 20)) "t7" ].

Definition count_row_A_july_three : CountRow Empty_set :=
  mkCountRow (CStr "1") (CStr "A") (2025, 7) 3.

Definition count_row_E_july : CountRow Empty_set :=
  mkCountRow (CStr "2") (CStr "E") (2025, 7) 1.

Definition count_row_C_june : CountRow Empty_set :=
  mkCountRow (CStr "1") (CStr "C") (2025, 6) 1.

End Sample.

(** * Properties *)

(** ** Month arithmetic *)

Lemma days_in_month_ge_28 (y m : Z) : 28 <= days_in_month y m.
Proof.
  unfold days_in_month.
  destruct (m =? 2); [destruct (is_leap y); lia |].
  destruct ((m =? 4) || (m =? 6) || (m =? 9) || (m =? 11)); lia.
Qed.

Lemma sub_months_ordinal (k : Z) (t : Timestamp) :
  1 <= month t <= 12 -> 1 <= k <= 12 ->
  month_ordinal (to_period (sub_DateOffset_months k t))
  = month_ordinal (to_period t) - k
  /\ 1 <= month (sub_DateOffset_months k t) <= 12.
Proof.
  intros Hm Hk.
  unfold sub_DateOffset_months, add_months, to_period, month_ordinal.
  cbn [fst snd year month].
  destruct (12 <? month t + - k) eqn:E1; [apply Z.ltb_lt in E1; lia |].
  destruct (month t + - k <? 1) eqn:E2;
    [apply Z.ltb_lt in E2 | apply Z.ltb_ge in E2]; lia.
Qed.

Lemma sub_months_first_day (k : Z) (t : Timestamp) :
  day t = 1 -> day (sub_DateOffset_months k t) = 1.
Proof.
  intros Hd. unfold sub_DateOffset_months, add_months; simpl.
  rewrite Hd.
  match goal with |- Z.min (days_in_month ?y ?m) 1 = 1 =>
    pose proof (days_in_month_ge_28 y m) end.
  lia.
Qed.

Lemma month_ordinal_inj (p q : Period) :
  1 <= snd p <= 12 -> 1 <= snd q <= 12 ->
  month_ordinal p = month_ordinal q -> p = q.
Proof.
  destruct p as [y m], q as [y' m']; unfold month_ordinal; cbn [fst snd].
  intros Hp Hq E. f_equal; lia.
Qed.

(** C4. For a report date in a month of the calendar, the current month
    is the month of the report date, and the months one and two before lie
    exactly 1 and 2 positions earlier on the line of calendar months, on
    the first day, with a month number between 1 and 12, so a year
    boundary is crossed by going to the months 12 and 11 of the year
    before: 2025-08 gives 2025-07 and 2025-06, and 2025-01 gives 2024-12
    and 2024-11. *)
Theorem month_window_is_one_and_two_months_back (report_date : Timestamp) :
  1 <= month report_date <= 12 ->
  to_period (current_month report_date) = to_period report_date
  /\ month_ordinal (to_period (one_month_before report_date))
     = month_ordinal (to_period (current_month report_date)) - 1
  /\ month_ordinal (to_period (two_months_before report_date))
     = month_ordinal (to_period (current_month report_date)) - 2
  /\ 1 <= month (one_month_before report_date) <= 12
  /\ 1 <= month (two_months_before report_date) <= 12
  /\ day (one_month_before report_date) = 1
  /\ day (two_months_before report_date) = 1
  /\ (to_period report_date = (2025, 8) ->
      to_period (one_month_before report_date) = (2025, 7)
      /\ to_period (two_months_before report_date) = (2025, 6))
  /\ (to_period report_date = (2025, 1) ->
      to_period (one_month_before report_date) = (2024, 12)
      /\ to_period (two_months_before report_date) = (2024, 11)).
Proof.
  intros Hm.
  assert (Hc : 1 <= month (current_month report_date) <= 12) by exact Hm.
  destruct (sub_months_ordinal 1 (current_month report_date) Hc) as [O1 R1]; [lia |].
  destruct (sub_months_ordinal 2 (current_month report_date) Hc) as [O2 R2]; [lia |].
  assert (D1 : day (one_month_before report_date) = 1)
    by (apply sub_months_first_day; reflexivity).
  assert (D2 : day (two_months_before report_date) = 1)
    by (apply sub_months_first_day; reflexivity).
  assert (Ex : forall y m, to_period report_date = (y, m) ->
            forall p1 p2, 1 <= snd p1 <= 12 -> 1 <= snd p2 <= 12 ->
            month_ordinal p1 = month_ordinal (y, m) - 1 ->
            month_ordinal p2 = month_ordinal (y, m) - 2 ->
            to_period (one_month_before report_date) = p1
            /\ to_period (two_months_before report_date) = p2).
  { intros y m E p1 p2 H1 H2 E1 E2.
    assert (E' : to_period (current_month report_date) = (y, m)) by exact E.
    split; apply month_ordinal_inj; try assumption.
    - unfold one_month_before. rewrite O1, E', E1. reflexivity.
    - unfold two_months_before. rewrite O2, E', E2. reflexivity. }
  split; [reflexivity |].
  split; [exact O1 |].
  split; [exact O2 |].
  split; [exact R1 |].
  split; [exact R2 |].
  split; [exact D1 |].
  split; [exact D2 |].
  split; intros E.
  - apply (Ex 2025 8 E); cbn; try lia; reflexivity.
  - apply (Ex 2025 1 E); cbn; try lia; reflexivity.
Qed.

Lemma month_window_witness :
  1 <= month Sample.report_date <= 12
  /\ to_period (one_month_before Sample.report_date) = (2025, 7)
  /\ to_period (two_months_before Sample.report_date) = (2025, 6).
Proof.
  assert (Hm : 1 <= month Sample.report_date <= 12) by (simpl; lia).
  split; [exact Hm |].
  apply (month_window_is_one_and_two_months_back Sample.report_date Hm).
  reflexivity.
Defined.

(** ** Minimum rank in descending order *)

Definition descending : list Z -> Prop :=
  StronglySorted (fun a b => b <= a).

Lemma insert_desc_perm (x : Z) (l : list Z) :
  Permutation (insert_desc x l) (x :: l).
Proof.
  induction l as [| y l IH]; simpl; [reflexivity |].
  destruct (y <=? x); [reflexivity |].
  rewrite IH. apply perm_swap.
Qed.

Lemma sort_desc_perm (l : list Z) : Permutation (sort_desc l) l.
Proof.
  induction l as [| x l IH]; simpl; [reflexivity |].
  rewrite insert_desc_perm. now constructor.
Qed.

Lemma insert_desc_sorted (x : Z) (l : list Z) :
  descending l -> descending (insert_desc x l).
Proof.
  unfold descending.
  induction l as [| y l IH]; intros Hs; simpl.
  - constructor; constructor.
  - inversion Hs as [| ? ? Hl Hy]; subst.
    destruct (y <=? x) eqn:E.
    + apply Z.leb_le in E. constructor; [assumption |].
      constructor; [assumption |].
      eapply Forall_impl; [| exact Hy]. intros; cbn in *; lia.
    + apply Z.leb_gt in E. constructor; [now apply IH |].
      eapply Permutation_Forall; [symmetry; apply insert_desc_perm |].
      constructor; [lia | assumption].
Qed.

Lemma sort_desc_sorted (l : list Z) : descending (sort_desc l).
Proof.
  induction l as [| x l IH]; simpl.
  - constructor.
  - now apply insert_desc_sorted.
Qed.

Lemma filter_length_perm {A : Type} (f : A -> bool) (l l' : list A) :
  Permutation l l' -> length (filter f l) = length (filter f l').
Proof.
  induction 1 as [| x l l' _ IH | x y l | l l' l'' _ IH1 _ IH2]; simpl.
  - reflexivity.
  - destruct (f x); simpl; congruence.
  - destruct (f x), (f y); reflexivity.
  - congruence.
Qed.

Lemma count_gt_perm (x : Z) (l l' : list Z) :
  Permutation l l' -> count_gt x l = count_gt x l'.
Proof.
  intros P. unfold count_gt. now rewrite (filter_length_perm _ _ _ P).
Qed.

Lemma count_gt_none (x : Z) (l : list Z) :
  Forall (fun y => y <= x) l -> count_gt x l = 0.
Proof.
  unfold count_gt. induction 1 as [| y l Hy _ IH]; simpl; [reflexivity |].
  destruct (x <? y) eqn:E; [apply Z.ltb_lt in E; lia | exact IH].
Qed.

Lemma count_gt_cons (x y : Z) (l : list Z) :
  count_gt x (y :: l) = (if x <? y then 1 else 0) + count_gt x l.
Proof.
  unfold count_gt; simpl. destruct (x <? y); simpl length; lia.
Qed.

(** In a descending list the first occurrence of a value comes right after
    the strictly greater values. *)
Lemma first_pos_descending (x : Z) (l : list Z) :
  descending l -> In x l -> first_pos x l = count_gt x l.
Proof.
  unfold descending.
  induction l as [| y l IH]; intros Hs Hin; [destruct Hin |].
  inversion Hs as [| ? ? Hl Hy]; subst.
  rewrite count_gt_cons. simpl.
  destruct (y =? x) eqn:E.
  - apply Z.eqb_eq in E; subst y.
    rewrite Z.ltb_irrefl, count_gt_none; [reflexivity | exact Hy].
  - apply Z.eqb_neq in E.
    destruct Hin as [-> | Hin]; [congruence |].
    rewrite Forall_forall in Hy. specialize (Hy x Hin). cbn in Hy.
    assert (L : (x <? y) = true) by (apply Z.ltb_lt; lia).
    rewrite L, IH by assumption. reflexivity.
Qed.

Lemma rank_min_desc_count (x : Z) (xs : list Z) :
  In x xs -> rank_min_desc x xs = 1 + count_gt x xs.
Proof.
  intros Hin. unfold rank_min_desc.
  rewrite first_pos_descending.
  - now rewrite (count_gt_perm x _ _ (sort_desc_perm xs)).
  - apply sort_desc_sorted.
  - eapply Permutation_in; [symmetry; apply sort_desc_perm | exact Hin].
Qed.

(** Stepping down to the next smaller value adds the size of the tie. *)
Lemma count_gt_next (a b : Z) (xs : list Z) :
  b < a -> Forall (fun y => ~ (b < y < a)) xs ->
  count_gt b xs = count_gt a xs + count_eq a xs.
Proof.
  intros Hba. unfold count_eq.
  induction 1 as [| y l Hy _ IH]; [reflexivity |].
  cbn beta in Hy.
  rewrite !count_gt_cons, IH. simpl filter.
  destruct (Z.ltb_spec b y), (Z.ltb_spec a y), (Z.eqb_spec y a);
    simpl length; lia.
Qed.

Lemma filter_map_length {A B : Type} (f : A -> B) (p : B -> bool) (l : list A) :
  length (filter p (map f l)) = length (filter (fun a => p (f a)) l).
Proof.
  induction l as [| a l IH]; simpl; [reflexivity |].
  destruct (p (f a)); simpl; congruence.
Qed.

(** ** Ranking engine *)

Section RankingProperties.
Context {float : Type} `{Scalars float}.
Local Abbreviation cell := (cell float).
Local Abbreviation CountRow := (CountRow float).

Lemma cell_eqb_eq (a b : cell) : cell_eqb a b = true <-> a = b.
Proof.
  unfold cell_eqb. destruct (cell_eq_dec a b); split; congruence.
Qed.

Lemma cell_eqb_refl (a : cell) : cell_eqb a a = true.
Proof. now apply cell_eqb_eq. Qed.

Lemma period_eqb_eq (p q : Period) : period_eqb p q = true <-> p = q.
Proof.
  destruct p as [y m], q as [y' m']; unfold period_eqb; cbn [fst snd].
  rewrite andb_true_iff, !Z.eqb_eq. split.
  - intros [-> ->]. reflexivity.
  - intros E. inversion E. auto.
Qed.

Lemma period_eqb_refl (p : Period) : period_eqb p p = true.
Proof. now apply period_eqb_eq. Qed.

Lemma same_tier_month_spec (a b : CountRow) :
  same_tier_month a b = true
  <-> cr_Tier a = cr_Tier b /\ cr_Month a = cr_Month b.
Proof.
  unfold same_tier_month.
  now rewrite andb_true_iff, cell_eqb_eq, period_eqb_eq.
Qed.

Lemma same_tier_month_refl (a : CountRow) : same_tier_month a a = true.
Proof. apply same_tier_month_spec. auto. Qed.

Lemma same_tier_month_group (a b c : CountRow) :
  same_tier_month a b = true -> same_tier_month b c = same_tier_month a c.
Proof.
  intros E. apply same_tier_month_spec in E. destruct E as [E1 E2].
  unfold same_tier_month. now rewrite E1, E2.
Qed.

(** The rows of the tier and month of [cr]. *)
Definition tier_month_group (count_df : list CountRow) (cr : CountRow)
  : list CountRow :=
  filter (same_tier_month cr) count_df.

Lemma tier_month_group_same (count_df : list CountRow) (a b : CountRow) :
  In b (tier_month_group count_df a) ->
  tier_month_group count_df b = tier_month_group count_df a.
Proof.
  unfold tier_month_group. intros Hin. apply filter_In in Hin.
  destruct Hin as [_ E]. apply filter_ext. intros c.
  now apply same_tier_month_group.
Qed.

Lemma rank_in_tier_count (count_df : list CountRow) (cr : CountRow) :
  In cr count_df ->
  rank_in_tier count_df cr
  = 1 + Z.of_nat (length (filter
          (fun o => scenario_count cr <? scenario_count o)
          (tier_month_group count_df cr))).
Proof.
  intros Hin. unfold rank_in_tier.
  rewrite rank_min_desc_count.
  - unfold count_gt. now rewrite filter_map_length.
  - apply in_map. apply filter_In. split; [exact Hin |].
    apply same_tier_month_refl.
Qed.

Lemma groupby_count_keys (iTime iTier iLender iScenario : nat)
  (rs : list (list cell)) :
  map (fun cr => (cr_Tier cr, cr_exportedLender cr, cr_Month cr))
      (groupby_count iTime iTier iLender iScenario rs)
  = nodup GroupKey_eq_dec (group_keys iTime iTier iLender rs).
Proof.
  unfold groupby_count. rewrite map_map. cbn.
  erewrite map_ext; [apply map_id |].
  intros [[T L] M]. reflexivity.
Qed.

Lemma NoDup_groupby_count (iTime iTier iLender iScenario : nat)
  (rs : list (list cell)) :
  NoDup (groupby_count iTime iTier iLender iScenario rs).
Proof.
  apply (NoDup_map_inv
           (fun cr => (cr_Tier cr, cr_exportedLender cr, cr_Month cr))).
  rewrite groupby_count_keys. apply NoDup_nodup.
Qed.

(** A list without repetition that holds exactly the rows of the tier
    and month of [cr] is the group that [rank_in_tier] ranks in, up to
    the order of its rows. *)
Lemma rows_of_tier_and_month (count_df group : list CountRow) (cr : CountRow) :
  NoDup count_df -> NoDup group ->
  (forall o, In o group
             <-> In o count_df
                 /\ cr_Tier o = cr_Tier cr /\ cr_Month o = cr_Month cr) ->
  Permutation group (tier_month_group count_df cr).
Proof.
  intros Hc Hg Hspec. apply NoDup_Permutation; [exact Hg | |].
  - unfold tier_month_group. now apply NoDup_filter.
  - intros o. rewrite Hspec. unfold tier_month_group.
    rewrite filter_In, same_tier_month_spec.
    split; intros [Hin [Et Em]]; repeat split; auto.
Qed.

(** Rows with distinct (tier, lender, month) keys and one tier and month
    are rows of distinct lenders. *)
Lemma distinct_lenders (l : list CountRow) (cr : CountRow) :
  NoDup (map (fun r => (cr_Tier r, cr_exportedLender r, cr_Month r)) l) ->
  (forall o, In o l -> cr_Tier o = cr_Tier cr /\ cr_Month o = cr_Month cr) ->
  NoDup (map (@cr_exportedLender float) l).
Proof.
  induction l as [| a l IH]; intros Hnd Hsame; cbn [map]; [constructor |].
  cbn [map] in Hnd. inversion Hnd as [| ? ? Hnot Hnd']; subst.
  constructor.
  - intros Hin. apply Hnot. apply in_map_iff in Hin.
    destruct Hin as [o [Eo Ho]]. apply in_map_iff. exists o.
    split; [| exact Ho].
    destruct (Hsame o (or_intror Ho)) as [Et Em].
    destruct (Hsame a (or_introl eq_refl)) as [Et' Em'].
    now rewrite Eo, Et, Em, Et', Em'.
  - apply IH; [exact Hnd' |]. intros o Ho. apply Hsame. now right.
Qed.

(** C1. Let [group] hold, once each, exactly the rows of the count table
    built by the engine whose tier and whose month are those of the row
    [cr] (the group is given by these two equalities alone). Then the
    rank of [cr] is 1 plus the number of rows of the group with a
    strictly greater count; rows of the group with equal counts have the
    same rank; a row whose count is the next smaller one has the rank of
    the tie above it plus the size of that tie; a row alone in its group
    has rank 1; the rows of the table are distinct (tier, lender, month)
    triples and the rows of the group are rows of distinct lenders; and
    the counts 10, 10, 7 get the ranks 1, 1, 3, as do the counts
    5, 5, 3. *)
Theorem rank_in_tier_is_competition_rank
  (iTime iTier iLender iScenario : nat) (rs : list (list cell))
  (cr : CountRow) (group : list CountRow) :
  let count_df := groupby_count iTime iTier iLender iScenario rs in
  In cr count_df ->
  NoDup group ->
  (forall o, In o group
             <-> In o count_df
                 /\ cr_Tier o = cr_Tier cr /\ cr_Month o = cr_Month cr) ->
  rank_in_tier count_df cr
  = 1 + Z.of_nat (length (filter
          (fun o => scenario_count cr <? scenario_count o) group))
  /\ (forall o, In o group -> scenario_count o = scenario_count cr ->
      rank_in_tier count_df o = rank_in_tier count_df cr)
  /\ (forall o, In o group -> scenario_count o < scenario_count cr ->
      (forall p, In p group ->
         ~ (scenario_count o < scenario_count p < scenario_count cr)) ->
      rank_in_tier count_df o
      = rank_in_tier count_df cr
        + Z.of_nat (length (filter
            (fun p => scenario_count p =? scenario_count cr) group)))
  /\ (group = [cr] -> rank_in_tier count_df cr = 1)
  /\ NoDup (map (fun r => (cr_Tier r, cr_exportedLender r, cr_Month r))
               count_df)
  /\ NoDup (map (@cr_exportedLender float) group)
  /\ rank_series [10; 10; 7] = [1; 1; 3]
  /\ rank_series [5; 5; 3] = [1; 1; 3].
Proof.
  intros count_df Hin Hnd Hspec.
  assert (Hkeys : NoDup (map (fun r => (cr_Tier r, cr_exportedLender r,
                                        cr_Month r)) count_df)).
  { unfold count_df. rewrite groupby_count_keys. apply NoDup_nodup. }
  assert (P : Permutation group (tier_month_group count_df cr)).
  { apply rows_of_tier_and_month; [| exact Hnd | exact Hspec].
    apply NoDup_groupby_count. }
  assert (HL : forall f : CountRow -> bool,
            length (filter f (tier_month_group count_df cr))
            = length (filter f group)).
  { intros f. symmetry. now apply filter_length_perm. }
  assert (Hmem : forall o, In o group -> In o (tier_month_group count_df cr)).
  { intros o. now apply Permutation_in. }
  assert (Hrank : forall o, In o group ->
            rank_in_tier count_df o
            = 1 + count_gt (scenario_count o)
                    (map scenario_count (tier_month_group count_df cr))).
  { intros o Ho. apply Hmem in Ho. unfold rank_in_tier.
    fold (tier_month_group count_df o).
    rewrite (tier_month_group_same count_df cr o Ho).
    apply rank_min_desc_count. now apply in_map. }
  assert (Hcr : In cr group).
  { apply Hspec. auto. }
  assert (Hone : rank_in_tier count_df cr
                 = 1 + Z.of_nat (length (filter
                         (fun o => scenario_count cr <? scenario_count o)
                         group))).
  { rewrite (rank_in_tier_count count_df cr Hin). now rewrite HL. }
  split; [exact Hone |].
  split.
  { intros o Ho E. rewrite (Hrank o Ho), (Hrank cr Hcr), E. reflexivity. }
  split.
  { intros o Ho Hlt Hgap. rewrite (Hrank o Ho), (Hrank cr Hcr).
    rewrite (count_gt_next (scenario_count cr) (scenario_count o)).
    - unfold count_eq. rewrite filter_map_length, HL. lia.
    - exact Hlt.
    - apply Forall_forall. intros y Hy. apply in_map_iff in Hy.
      destruct Hy as [p [<- Hp]]. apply Hgap.
      apply (Permutation_in p (Permutation_sym P) Hp). }
  split.
  { intros E. rewrite Hone, E. cbn. now rewrite Z.ltb_irrefl. }
  split; [exact Hkeys |].
  split.
  { apply (distinct_lenders group cr).
    - apply (Permutation_NoDup
               (l := map (fun r => (cr_Tier r, cr_exportedLender r, cr_Month r))
                         (tier_month_group count_df cr))).
      + apply Permutation_map. now apply Permutation_sym.
      + unfold tier_month_group. clear - Hkeys.
        induction count_df as [| a l IH]; [constructor |].
        cbn [map] in Hkeys. inversion Hkeys as [| ? ? Hnot Hk]; subst.
        cbn [filter]. destruct (same_tier_month cr a); [| now apply IH].
        cbn [map]. constructor; [| now apply IH].
        intros Hin. apply Hnot. apply in_map_iff in Hin.
        destruct Hin as [o [Eo Ho]]. apply filter_In in Ho.
        apply in_map_iff. exists o. tauto.
    - intros o Ho. apply Hspec in Ho. tauto. }
  split; reflexivity.
Qed.

End RankingProperties.

Lemma rank_in_tier_witness :
  let count_df := groupby_count 1 5 0 2 Sample.two_tier_rows in
  In Sample.count_row_E_july count_df
  /\ In Sample.count_row_C_june count_df
  /\ In Sample.count_row_A_july_three count_df
  /\ scenario_count Sample.count_row_E_july
     < scenario_count Sample.count_row_A_july_three
  /\ scenario_count Sample.count_row_C_june
     < scenario_count Sample.count_row_A_july_three
  /\ rank_in_tier count_df Sample.count_row_E_july = 1
  /\ rank_in_tier count_df Sample.count_row_C_june = 1.
Proof.
  cbv zeta.
  assert (HE : In Sample.count_row_E_july
                 (groupby_count 1 5 0 2 Sample.two_tier_rows))
    by (vm_compute; tauto).
  assert (HC : In Sample.count_row_C_june
                 (groupby_count 1 5 0 2 Sample.two_tier_rows))
    by (vm_compute; tauto).
  assert (HA : In Sample.count_row_A_july_three
                 (groupby_count 1 5 0 2 Sample.two_tier_rows))
    by (vm_compute; tauto).
  assert (SE : forall o, In o [Sample.count_row_E_july]
               <-> In o (groupby_count 1 5 0 2 Sample.two_tier_rows)
                   /\ cr_Tier o = cr_Tier Sample.count_row_E_july
                   /\ cr_Month o = cr_Month Sample.count_row_E_july).
  { intros o. split.
    - intros [<- | []]. split; [exact HE | split; reflexivity].
    - intros [Hin [Et Em]]. vm_compute in Hin.
      repeat (destruct Hin as [<- | Hin]; [try discriminate Et |]);
        [now left | destruct Hin]. }
  assert (SC : forall o, In o [Sample.count_row_C_june]
               <-> In o (groupby_count 1 5 0 2 Sample.two_tier_rows)
                   /\ cr_Tier o = cr_Tier Sample.count_row_C_june
                   /\ cr_Month o = cr_Month Sample.count_row_C_june).
  { intros o. split.
    - intros [<- | []]. split; [exact HC | split; reflexivity].
    - intros [Hin [Et Em]]. vm_compute in Hin.
      repeat (destruct Hin as [<- | Hin]; [try discriminate Em |]);
        [now left | destruct Hin]. }
  assert (N1 : forall x : CountRow Empty_set, NoDup [x])
    by (intros x; repeat constructor; intros []).
  split; [exact HE |]. split; [exact HC |]. split; [exact HA |].
  split; [reflexivity |]. split; [reflexivity |].
  split.
  - rewrite (proj1 (rank_in_tier_is_competition_rank 1 5 0 2
                      Sample.two_tier_rows Sample.count_row_E_july
                      [Sample.count_row_E_july] HE (N1 _) SE)).
    reflexivity.
  - rewrite (proj1 (rank_in_tier_is_competition_rank 1 5 0 2
                      Sample.two_tier_rows Sample.count_row_C_june
                      [Sample.count_row_C_june] HC (N1 _) SC)).
    reflexivity.
Defined.

(** ** From the records to the count table *)

Section CountTable.
Context {float : Type} `{Scalars float}.
Local Abbreviation cell := (cell float).
Local Abbreviation CountRow := (CountRow float).
Variables iTime iTier iLender iScenario : nat.

Local Abbreviation gkey := (group_key iTime iTier iLender).
Local Abbreviation gkeys := (group_keys iTime iTier iLender).
Local Abbreviation count_table := (groupby_count iTime iTier iLender iScenario).
Local Abbreviation keyed := (has_key iTier iLender).

Lemma group_key_Some (r : list cell) (k : GroupKey) :
  gkey r = Some k <->
  keyed r = true
  /\ month_of (iloc iTime r) = Some (snd k)
  /\ fst k = (iloc iTier r, iloc iLender r).
Proof.
  unfold group_key, has_key.
  destruct (isna (iloc iTier r)), (isna (iloc iLender r)); cbn;
    try (split; [discriminate | intros [? _]; discriminate]).
  destruct (month_of (iloc iTime r)) as [p |].
  - split.
    + intros E. inversion E. cbn. auto.
    + intros [_ [E1 E2]]. destruct k as [tl M]. cbn in *.
      inversion E1. subst. reflexivity.
  - split; [discriminate | intros [_ [? _]]; discriminate].
Qed.

Lemma In_group_keys (rs : list (list cell)) (k : GroupKey) :
  In k (gkeys rs) <-> exists r, In r rs /\ gkey r = Some k.
Proof.
  induction rs as [| r rs IH]; simpl.
  - split; [tauto | intros [? [[] _]]].
  - destruct (gkey r) as [k' |] eqn:E; simpl; rewrite IH; split.
    + intros [-> | [x [Hx Ex]]]; [exists r; auto | exists x; auto].
    + intros [x [[-> | Hx] Ex]]; [left; congruence | right; exists x; auto].
    + intros [x [Hx Ex]]. exists x; auto.
    + intros [x [[-> | Hx] Ex]]; [congruence | exists x; auto].
Qed.

Lemma In_groupby_count (rs : list (list cell)) (cr : CountRow) :
  In cr (count_table rs) ->
  In (cr_Tier cr, cr_exportedLender cr, cr_Month cr) (gkeys rs).
Proof.
  unfold groupby_count. intros Hin. apply in_map_iff in Hin.
  destruct Hin as [[[T L] M] [<- Hk]]. cbn. now apply nodup_In in Hk.
Qed.

Lemma groupby_count_has (rs : list (list cell)) (k : GroupKey) :
  In k (gkeys rs) ->
  exists cr, In cr (count_table rs)
             /\ (cr_Tier cr, cr_exportedLender cr, cr_Month cr) = k.
Proof.
  intros Hk. unfold groupby_count.
  exists (mkCountRow (fst (fst k)) (snd (fst k)) (snd k)
            (count_notna iTime iTier iLender iScenario k rs)).
  split.
  - apply in_map_iff. exists k. split; [reflexivity |]. now apply nodup_In.
  - destruct k as [[T L] M]. reflexivity.
Qed.

End CountTable.

(** ** Pivot, selection and merge *)

Section PivotAndMerge.
Context {float : Type} `{Scalars float}.
Local Abbreviation cell := (cell float).
Local Abbreviation CountRow := (CountRow float).
Local Abbreviation RankRow := (RankRow float).

Lemma existsb_period (M : Period) (months : list Period) :
  existsb (period_eqb M) months = true <-> In M months.
Proof.
  rewrite existsb_exists. split.
  - intros [p [Hp E]]. apply period_eqb_eq in E. now subst.
  - intros Hin. exists M. split; [exact Hin | apply period_eqb_refl].
Qed.

Lemma In_pv_months (count_df : list CountRow) (M : Period) :
  In M (pv_months (pivot_table count_df))
  <-> exists cr, In cr count_df /\ cr_Month cr = M.
Proof.
  cbn. rewrite nodup_In, in_map_iff. split; intros [cr [A B]]; exists cr; auto.
Qed.

Lemma In_pv_index (count_df : list CountRow) (tl : cell * cell) :
  In tl (pv_index (pivot_table count_df))
  <-> exists cr, In cr count_df /\ (cr_Tier cr, cr_exportedLender cr) = tl.
Proof.
  cbn. rewrite nodup_In, in_map_iff. split; intros [cr [A B]]; exists cr; auto.
Qed.

(** The selection succeeds exactly when both months have a column. *)
Lemma select_rank_columns_inr (count_df : list CountRow) (one two : Period)
  (ranks : list RankRow) :
  select_rank_columns count_df one two = inr ranks <->
  In one (pv_months (pivot_table count_df))
  /\ In two (pv_months (pivot_table count_df))
  /\ ranks = map (fun tl =>
                    mkRankRow (fst tl) (snd tl)
                      (pivot_cell (rank_in_tier count_df) count_df tl one)
                      (pivot_cell (rank_in_tier count_df) count_df tl two))
                 (pv_index (pivot_table count_df)).
Proof.
  unfold select_rank_columns.
  destruct (existsb (period_eqb one) (pv_months (pivot_table count_df))) eqn:E1;
  destruct (existsb (period_eqb two) (pv_months (pivot_table count_df))) eqn:E2;
  cbn [negb]; rewrite <- !existsb_period, E1, E2.
  - split; [intros E; inversion E; auto | intros [_ [_ ->]]; reflexivity].
  - split; [discriminate | intros [_ [? _]]; discriminate].
  - split; [discriminate | intros [? _]; discriminate].
  - split; [discriminate | intros [? _]; discriminate].
Qed.

(** The fill value of the pivot: a tier, lender and month without a row
    in the count table gets 0. *)
Lemma pivot_cell_fill (value : CountRow -> Z) (count_df : list CountRow)
  (tl : cell * cell) (M : Period) :
  (forall cr, In cr count_df ->
     (cr_Tier cr, cr_exportedLender cr, cr_Month cr) <> (tl, M)) ->
  pivot_cell value count_df tl M = 0.
Proof.
  intros Hno. unfold pivot_cell.
  destruct (find _ count_df) as [cr |] eqn:E; [| reflexivity].
  apply find_some in E. destruct E as [Hin E].
  rewrite !andb_true_iff, !cell_eqb_eq, period_eqb_eq in E.
  destruct E as [[E1 E2] E3]. exfalso. apply (Hno cr Hin).
  destruct tl as [T L]; cbn in *. now subst.
Qed.

(** A cell of the pivot that has a row in the count table holds the value
    of one such row. *)
Lemma pivot_cell_value (value : CountRow -> Z) (count_df : list CountRow)
  (tl : cell * cell) (M : Period) :
  (exists cr, In cr count_df
     /\ (cr_Tier cr, cr_exportedLender cr, cr_Month cr) = (tl, M)) ->
  exists cr, In cr count_df
     /\ (cr_Tier cr, cr_exportedLender cr, cr_Month cr) = (tl, M)
     /\ pivot_cell value count_df tl M = value cr.
Proof.
  intros [cr0 [Hin0 E0]]. unfold pivot_cell.
  destruct (find _ count_df) as [cr |] eqn:E.
  - apply find_some in E. destruct E as [Hin E].
    rewrite !andb_true_iff, !cell_eqb_eq, period_eqb_eq in E.
    destruct E as [[E1 E2] E3]. exists cr. repeat split; auto.
    destruct tl as [T L]; cbn in *. now subst.
  - exfalso. apply (find_none _ _ E) in Hin0.
    inversion E0; subst. cbn in Hin0.
    now rewrite !cell_eqb_refl, period_eqb_refl in Hin0.
Qed.

Lemma rank_in_tier_pos (count_df : list CountRow) (cr : CountRow) :
  In cr count_df -> 1 <= rank_in_tier count_df cr.
Proof.
  intros Hin. rewrite rank_in_tier_count by exact Hin. lia.
Qed.

Section Merge.
Variables iTier iLender : nat.
Variables f g : cell * cell -> Z.

Let rank_rows (idx : list (cell * cell)) : list RankRow :=
  map (fun tl => mkRankRow (fst tl) (snd tl) (f tl) (g tl)) idx.

Lemma rank_matches_absent (idx : list (cell * cell)) (l : list cell) :
  Forall (fun tl => isna (fst tl) = false /\ isna (snd tl) = false) idx ->
  ~ In (iloc iTier l, iloc iLender l) idx ->
  rank_matches iTier iLender (rank_rows idx) l = [].
Proof.
  unfold rank_matches, rank_rows.
  induction 1 as [| tl idx [N1 N2] _ IH]; intros Hno; [reflexivity |].
  cbn [map filter rr_Tier rr_exportedLender].
  unfold merge_key_eqb at 1 2. rewrite N1, N2, !andb_false_r. cbn [orb].
  destruct (cell_eqb (iloc iTier l) (fst tl)
            && cell_eqb (iloc iLender l) (snd tl)) eqn:E.
  - exfalso. apply Hno. left.
    rewrite andb_true_iff, !cell_eqb_eq in E. destruct tl; cbn in *.
    destruct E; congruence.
  - apply IH. intros Hin. apply Hno. now right.
Qed.

Lemma rank_matches_present (idx : list (cell * cell)) (l : list cell) :
  Forall (fun tl => isna (fst tl) = false /\ isna (snd tl) = false) idx ->
  NoDup idx ->
  In (iloc iTier l, iloc iLender l) idx ->
  rank_matches iTier iLender (rank_rows idx) l
  = [mkRankRow (iloc iTier l) (iloc iLender l)
       (f (iloc iTier l, iloc iLender l)) (g (iloc iTier l, iloc iLender l))].
Proof.
  intros Hna Hnd. revert Hna.
  induction Hnd as [| tl idx Hnotin Hnd IH]; intros Hna Hin; [destruct Hin |].
  inversion Hna as [| ? ? [N1 N2] Hna']; subst.
  change (rank_rows (tl :: idx))
    with (mkRankRow (fst tl) (snd tl) (f tl) (g tl) :: rank_rows idx).
  unfold rank_matches. cbn [filter rr_Tier rr_exportedLender].
  unfold merge_key_eqb at 1 2. rewrite N1, N2, !andb_false_r. cbn [orb].
  destruct (cell_eqb (iloc iTier l) (fst tl)
            && cell_eqb (iloc iLender l) (snd tl)) eqn:E.
  - rewrite andb_true_iff, !cell_eqb_eq in E. destruct E as [E1 E2].
    assert (Etl : tl = (iloc iTier l, iloc iLender l))
      by (destruct tl; cbn in *; congruence).
    subst tl. cbn [fst snd]. f_equal.
    apply (rank_matches_absent idx l Hna' Hnotin).
  - destruct Hin as [-> | Hin].
    + cbn [fst snd] in E. now rewrite !cell_eqb_refl in E.
    + apply (IH Hna' Hin).
Qed.

End Merge.

End PivotAndMerge.

(** ** Which entities and months reach the pivot *)

Section Window.
Context {float : Type} `{Scalars float}.
Local Abbreviation cell := (cell float).
Local Abbreviation CountRow := (CountRow float).
Variables iTime iTier iLender iScenario : nat.
Variables cur one two : Period.
Variable rs : list (list cell).

Let filtered : list (list cell) :=
  filter (fun r => in_window cur one two (iloc iTime r)) rs.

Let count_df : list CountRow :=
  groupby_count iTime iTier iLender iScenario filtered.

Local Abbreviation in_three := (in_three cur one two).

Lemma in_window_spec (r : list cell) :
  in_window cur one two (iloc iTime r) = true
  <-> exists M, month_of (iloc iTime r) = Some M /\ in_three M.
Proof.
  unfold in_window, in_three.
  destruct (month_of (iloc iTime r)) as [p |].
  - rewrite !orb_true_iff, !period_eqb_eq. split.
    + intros E. exists p. split; [reflexivity | tauto].
    + intros [M [E HM]]. inversion E; subst. tauto.
  - split; [discriminate | intros [M [E _]]; discriminate].
Qed.

Lemma in_month_spec (M : Period) (r : list cell) :
  in_month iTime M r = true <-> month_of (iloc iTime r) = Some M.
Proof.
  unfold in_month. destruct (month_of (iloc iTime r)) as [p |].
  - rewrite period_eqb_eq. split; congruence.
  - split; discriminate.
Qed.

Lemma same_entity_spec (a b : list cell) :
  same_entity iTier iLender a b = true
  <-> (iloc iTier a, iloc iLender a) = (iloc iTier b, iloc iLender b).
Proof.
  unfold same_entity. rewrite andb_true_iff, !cell_eqb_eq.
  split; [intros [-> ->]; reflexivity | intros E; inversion E; auto].
Qed.

(** A row of the count table stands for a record of the window that can
    be counted. *)
Lemma count_row_iff (tl : cell * cell) (M : Period) :
  (exists cr, In cr count_df
     /\ (cr_Tier cr, cr_exportedLender cr, cr_Month cr) = (tl, M))
  <-> exists x, In x rs /\ has_key iTier iLender x = true
        /\ (iloc iTier x, iloc iLender x) = tl
        /\ month_of (iloc iTime x) = Some M /\ in_three M.
Proof.
  split.
  - intros [cr [Hin E]]. apply In_groupby_count in Hin. rewrite E in Hin.
    apply In_group_keys in Hin. destruct Hin as [x [Hx Ex]].
    apply filter_In in Hx. destruct Hx as [Hx Hw].
    apply group_key_Some in Ex. cbn [fst snd] in Ex.
    destruct Ex as [K [Em Et]].
    apply in_window_spec in Hw. destruct Hw as [M' [Em' H3]].
    exists x. repeat split; auto. congruence.
  - intros [x [Hx [K [Et [Em H3]]]]].
    apply groupby_count_has. apply In_group_keys. exists x. split.
    + apply filter_In. split; [exact Hx |].
      apply in_window_spec. exists M. auto.
    + apply group_key_Some. cbn [fst snd]. auto.
Qed.

Lemma month_column_iff (M : Period) :
  In M (pv_months (pivot_table count_df))
  <-> month_populated iTime iTier iLender rs M = true /\ in_three M.
Proof.
  rewrite In_pv_months. unfold month_populated. rewrite existsb_exists. split.
  - intros [cr [Hin E]].
    destruct (proj1 (count_row_iff (cr_Tier cr, cr_exportedLender cr) M))
      as [x [Hx [K [_ [Em H3]]]]].
    { exists cr. split; [exact Hin | now rewrite E]. }
    split; [| exact H3]. exists x. split; [exact Hx |].
    rewrite K. now apply in_month_spec.
  - intros [[x [Hx E]] H3]. apply andb_true_iff in E. destruct E as [K Em].
    apply in_month_spec in Em.
    destruct (proj2 (count_row_iff (iloc iTier x, iloc iLender x) M))
      as [cr [Hin E]].
    { exists x. repeat split; auto. }
    exists cr. split; [exact Hin |]. now inversion E.
Qed.

Lemma entity_in_month_spec (r : list cell) (M : Period) :
  entity_in_month iTime iTier iLender rs r M = true
  <-> exists x, In x rs
        /\ (iloc iTier x, iloc iLender x) = (iloc iTier r, iloc iLender r)
        /\ month_of (iloc iTime x) = Some M.
Proof.
  unfold entity_in_month. rewrite existsb_exists.
  split; intros [x [Hx E]]; exists x; split; try exact Hx.
  - apply andb_true_iff in E. destruct E as [E1 E2].
    split; [now apply same_entity_spec | now apply in_month_spec].
  - apply andb_true_iff. destruct E as [E1 E2].
    split; [now apply same_entity_spec | now apply in_month_spec].
Qed.

Lemma has_key_same (x r : list cell) :
  (iloc iTier x, iloc iLender x) = (iloc iTier r, iloc iLender r) ->
  has_key iTier iLender x = has_key iTier iLender r.
Proof. intros E. inversion E as [[E1 E2]]. unfold has_key. now rewrite E1, E2. Qed.

(** The entity of a record has a pivot row exactly when it is ranked. *)
Lemma index_iff (r : list cell) :
  In (iloc iTier r, iloc iLender r) (pv_index (pivot_table count_df))
  <-> entity_ranked iTime iTier iLender rs cur one two r = true.
Proof.
  rewrite In_pv_index. unfold entity_ranked.
  rewrite andb_true_iff, !orb_true_iff, !entity_in_month_spec. split.
  - intros [cr [Hin E]].
    destruct (proj1 (count_row_iff (iloc iTier r, iloc iLender r) (cr_Month cr)))
      as [x [Hx [K [Et [Em H3]]]]].
    { exists cr. split; [exact Hin | now rewrite <- E]. }
    split; [now rewrite <- (has_key_same x r Et) |].
    destruct H3 as [E3 | [E3 | E3]]; rewrite E3 in Em;
      [left; left | left; right | right]; exists x; auto.
  - intros [K Hx].
    assert (Hx' : exists M x, in_three M /\ In x rs
              /\ (iloc iTier x, iloc iLender x) = (iloc iTier r, iloc iLender r)
              /\ month_of (iloc iTime x) = Some M).
    { unfold in_three.
      destruct Hx as [[[x Hx] | [x Hx]] | [x Hx]];
        [exists cur | exists one | exists two]; exists x; tauto. }
    destruct Hx' as [M [x [H3 [Hx' [Et Em]]]]].
    destruct (proj2 (count_row_iff (iloc iTier r, iloc iLender r) M))
      as [cr [Hin E]].
    { exists x. repeat split; auto. now rewrite (has_key_same x r Et). }
    exists cr. split; [exact Hin |]. now inversion E.
Qed.

Lemma index_notna :
  Forall (fun tl : cell * cell => isna (fst tl) = false /\ isna (snd tl) = false)
         (pv_index (pivot_table count_df)).
Proof.
  apply Forall_forall. intros tl Hin. apply In_pv_index in Hin.
  destruct Hin as [cr [Hin E]].
  destruct (proj1 (count_row_iff tl (cr_Month cr))) as [x [_ [K [Et _]]]].
  { exists cr. split; [exact Hin | now rewrite <- E]. }
  unfold has_key in K. apply andb_true_iff in K.
  rewrite !negb_true_iff in K. rewrite <- E in Et. inversion Et as [[E1 E2]].
  rewrite <- E. cbn [fst snd]. now rewrite <- E1, <- E2.
Qed.

(** Rank of an entity in a month of the window: 0 without a record in
    that month, at least 1 with one. *)
Lemma pivot_rank_value (r : list cell) (M : Period) :
  in_three M -> has_key iTier iLender r = true ->
  let z := pivot_cell (rank_in_tier count_df) count_df
             (iloc iTier r, iloc iLender r) M in
  (entity_in_month iTime iTier iLender rs r M = false -> z = 0)
  /\ (entity_in_month iTime iTier iLender rs r M = true -> 1 <= z).
Proof.
  intros H3 K z. split; intros E.
  - apply pivot_cell_fill. intros cr Hin Ecr.
    assert (Hx : entity_in_month iTime iTier iLender rs r M = true);
      [| congruence].
    destruct (proj1 (count_row_iff (iloc iTier r, iloc iLender r) M))
      as [x [Hx [_ [Et [Em _]]]]].
    { exists cr. auto. }
    apply entity_in_month_spec. exists x. auto.
  - apply entity_in_month_spec in E. destruct E as [x [Hx [Et Em]]].
    destruct (pivot_cell_value (rank_in_tier count_df) count_df
                (iloc iTier r, iloc iLender r) M) as [cr [Hin [_ Ez]]].
    { apply count_row_iff. exists x. repeat split; auto.
      now rewrite (has_key_same x r Et). }
    unfold z. rewrite Ez. now apply rank_in_tier_pos.
Qed.

End Window.

(** ** What [prepare_rank_data] returns *)

Section EngineResult.
Context {float : Type} `{Scalars float}.
Local Abbreviation cell := (cell float).
Local Abbreviation DataFrame := (DataFrame float).

Lemma flat_map_singletons {A B : Type} (g : A -> list B) (h : A -> B)
  (l : list A) :
  (forall a, g a = [h a]) -> flat_map g l = map h l.
Proof.
  intros E. induction l as [| a l IH]; simpl; [reflexivity |].
  now rewrite E, IH.
Qed.

Lemma merge_ranks_map (iTime iTier iLender iScenario : nat)
  (cur one two : Period) (rs ls : list (list cell)) :
  let count_df :=
    groupby_count iTime iTier iLender iScenario
      (filter (fun x => in_window cur one two (iloc iTime x)) rs) in
  merge_ranks iTier iLender
    (map (fun tl => mkRankRow (fst tl) (snd tl)
                      (pivot_cell (rank_in_tier count_df) count_df tl one)
                      (pivot_cell (rank_in_tier count_df) count_df tl two))
         (pv_index (pivot_table count_df)))
    ls
  = map (fun r => r ++ appended_ranks iTime iTier iLender iScenario
                         cur one two rs r) ls.
Proof.
  intros count_df. unfold merge_ranks.
  apply flat_map_singletons. intros l.
  unfold appended_ranks. fold count_df.
  destruct (entity_ranked iTime iTier iLender rs cur one two l) eqn:E.
  - apply (index_iff iTime iTier iLender iScenario) in E.
    rewrite rank_matches_present.
    + reflexivity.
    + apply index_notna.
    + apply NoDup_nodup.
    + exact E.
  - rewrite rank_matches_absent.
    + reflexivity.
    + apply index_notna.
    + intros Hin. apply (index_iff iTime iTier iLender iScenario) in Hin.
      congruence.
Qed.

(** When the engine returns, and what. *)
Lemma prepare_rank_data_inr (df out : DataFrame) (cm om tm : Timestamp) :
  prepare_rank_data df cm om tm = inr out <->
  exists iTime iTier iLender iScenario,
    get_loc "time" (columns df) = Some iTime
    /\ get_loc "Tier" (columns df) = Some iTier
    /\ get_loc "exportedLender" (columns df) = Some iLender
    /\ get_loc "scenarioId" (columns df) = Some iScenario
    /\ forallb (fun r => is_datetimelike (iloc iTime r)) (rows df) = true
    /\ month_populated iTime iTier iLender (rows df) (to_period om) = true
    /\ month_populated iTime iTier iLender (rows df) (to_period tm) = true
    /\ out = mkDataFrame
               (map (suffix_left rank_labels) (columns df)
                ++ map (suffix_right (columns df)) rank_labels)
               (map (fun r => r ++ appended_ranks iTime iTier iLender iScenario
                                     (to_period cm) (to_period om) (to_period tm)
                                     (rows df) r)
                    (rows df)).
Proof.
  unfold prepare_rank_data, require, bind.
  destruct (get_loc "time" (columns df)) as [iTime |];
    [| split; [discriminate | intros [? [? [? [? [? _]]]]]; discriminate]].
  destruct (forallb _ (rows df)) eqn:Edt; cbn [negb];
    [| split; [discriminate |
               intros [a [? [? [? [Ea [_ [_ [_ [Ed _]]]]]]]]];
               inversion Ea; subst; congruence]].
  destruct (get_loc "Tier" (columns df)) as [iTier |];
    [| split; [discriminate | intros [? [? [? [? [_ [? _]]]]]]; discriminate]].
  destruct (get_loc "exportedLender" (columns df)) as [iLender |];
    [| split; [discriminate | intros [? [? [? [? [_ [_ [? _]]]]]]]; discriminate]].
  destruct (get_loc "scenarioId" (columns df)) as [iScenario |];
    [| split; [discriminate | intros [? [? [? [? [_ [_ [_ [? _]]]]]]]]; discriminate]].
  pose proof (month_column_iff iTime iTier iLender iScenario
                (to_period cm) (to_period om) (to_period tm) (rows df)) as Hmonth.
  cbv zeta in Hmonth.
  destruct (select_rank_columns _ (to_period om) (to_period tm)) as [e | ranks] eqn:Es.
  - split; [discriminate |].
    intros [a [b [c [d [Ea [Eb [Ec [Ed [_ [P1 [P2 _]]]]]]]]]]].
    inversion Ea; inversion Eb; inversion Ec; inversion Ed; subst.
    assert (Hs : exists ranks, select_rank_columns
               (groupby_count a b c d
                  (filter (fun r => in_window (to_period cm) (to_period om)
                                      (to_period tm) (iloc a r)) (rows df)))
               (to_period om) (to_period tm) = inr ranks).
    { eexists. apply select_rank_columns_inr. split; [| split; [| reflexivity]].
      - apply Hmonth. split; [exact P1 | right; left; reflexivity].
      - apply Hmonth. split; [exact P2 | right; right; reflexivity]. }
    destruct Hs as [ranks Hs]. rewrite Hs in Es. discriminate.
  - apply select_rank_columns_inr in Es. destruct Es as [M1 [M2 ->]].
    rewrite (merge_ranks_map iTime iTier iLender iScenario).
    apply Hmonth in M1. apply Hmonth in M2.
    split.
    + intros E. inversion E. subst out.
      exists iTime, iTier, iLender, iScenario. tauto.
    + intros [a [b [c [d [Ea [Eb [Ec [Ed [_ [_ [_ ->]]]]]]]]]]].
      inversion Ea; inversion Eb; inversion Ec; inversion Ed; subst.
      reflexivity.
Qed.

End EngineResult.

Section EngineClaims.
Context {float : Type} `{Scalars float}.
Local Abbreviation cell := (cell float).
Local Abbreviation DataFrame := (DataFrame float).

Lemma appended_ranks_two (iTime iTier iLender iScenario : nat)
  (cur one two : Period) (rs : list (list cell)) (r : list cell) :
  exists c1 c2,
    appended_ranks iTime iTier iLender iScenario cur one two rs r = [c1; c2].
Proof.
  unfold appended_ranks.
  destruct (entity_ranked iTime iTier iLender rs cur one two r); eauto.
Qed.

Lemma Forall2_map_self {A B : Type} (f : A -> B) (R : A -> B -> Prop)
  (l : list A) :
  (forall a, In a l -> R a (f a)) -> Forall2 R l (map f l).
Proof.
  induction l as [| a l IH]; intros Hr; simpl; constructor.
  - apply Hr. now left.
  - apply IH. intros x Hx. apply Hr. now right.
Qed.

Lemma suffix_left_fresh (labels cols : list string) :
  (forall c, In c labels -> ~ In c cols) ->
  map (suffix_left labels) cols = cols.
Proof.
  intros Hfresh. erewrite map_ext_in; [apply map_id |].
  intros c Hc. unfold suffix_left, mem_label.
  destruct (existsb (String.eqb c) labels) eqn:E; [| reflexivity].
  apply existsb_exists in E. destruct E as [x [Hx E]].
  apply String.eqb_eq in E. subst x. exfalso. now apply (Hfresh c).
Qed.

Lemma suffix_right_fresh (labels cols : list string) :
  (forall c, In c labels -> ~ In c cols) ->
  map (suffix_right cols) labels = labels.
Proof.
  intros Hfresh. erewrite map_ext_in; [apply map_id |].
  intros c Hc. unfold suffix_right, mem_label.
  destruct (existsb (String.eqb c) cols) eqn:E; [| reflexivity].
  apply existsb_exists in E. destruct E as [x [Hx E]].
  apply String.eqb_eq in E. subst x. exfalso. now apply (Hfresh c).
Qed.

(** C2, as amended. The engine returns exactly for a rankable frame (the
    four columns, a datetime time column, a countable record in each of
    the two lagging months); and whenever it returns, the output has as
    many records as the input, the records are the input records in the
    input order, each followed by two cells, and two columns are added
    (named as the two rank labels when the input has no such columns),
    whatever the tier or the instant of a record. *)
Theorem ranking_engine_keeps_every_record (df : DataFrame)
  (cm om tm : Timestamp) :
  ((exists out, prepare_rank_data df cm om tm = inr out)
   <-> rankable df (to_period om) (to_period tm))
  /\ forall out, prepare_rank_data df cm om tm = inr out ->
       length (rows out) = length (rows df)
       /\ Forall2 (fun r r' => exists c1 c2, r' = r ++ [c1; c2])
                  (rows df) (rows out)
       /\ length (columns out) = (length (columns df) + 2)%nat
       /\ ((forall c, In c rank_labels -> ~ In c (columns df)) ->
           columns out = columns df ++ rank_labels).
Proof.
  split.
  - split.
    + intros [out E]. apply prepare_rank_data_inr in E.
      destruct E as [a [b [c [d E]]]]. exists a, b, c, d. tauto.
    + intros [a [b [c [d E]]]]. eexists. apply prepare_rank_data_inr.
      exists a, b, c, d. repeat (split; [tauto |]). reflexivity.
  - intros out E. apply prepare_rank_data_inr in E.
    destruct E as [a [b [c [d [_ [_ [_ [_ [_ [_ [_ ->]]]]]]]]]]].
    cbn [rows columns]. split; [apply length_map |].
    split.
    { apply Forall2_map_self. intros r _.
      destruct (appended_ranks_two a b c d (to_period cm) (to_period om)
                  (to_period tm) (rows df) r) as [c1 [c2 E]].
      exists c1, c2. now rewrite E. }
    split.
    { rewrite length_app, !length_map. reflexivity. }
    intros Hfresh.
    now rewrite (suffix_left_fresh _ _ Hfresh), (suffix_right_fresh _ _ Hfresh).
Qed.

End EngineClaims.

Lemma ranking_engine_witness :
  rankable Sample.joined_df (2025, 7) (2025, 6)
  /\ length (rows Sample.ranked_df) = length (rows Sample.joined_df).
Proof.
  assert (R : rankable Sample.joined_df
                (to_period (one_month_before Sample.report_date))
                (to_period (two_months_before Sample.report_date))).
  { exists 1%nat, 5%nat, 0%nat, 2%nat. repeat split; reflexivity. }
  split; [exact R |].
  destruct (ranking_engine_keeps_every_record Sample.joined_df
              (current_month Sample.report_date)
              (one_month_before Sample.report_date)
              (two_months_before Sample.report_date)) as [Hret Hkeep].
  destruct (proj2 Hret R) as [out E].
  unfold Sample.ranked_df. rewrite E. apply (Hkeep out E).
Defined.

(** C2, as stated, fails: for a frame with a record of July, a record
    without instant and no record of June the engine raises and there is
    no output for the records to be in. *)
Lemma ranking_engine_raises_without_june :
  prepare_rank_data Sample.no_june_df (current_month Sample.report_date)
    (one_month_before Sample.report_date)
    (two_months_before Sample.report_date)
  = inl (KeyError "rank_in_tier_two_months")
  /\ ~ (exists out,
          prepare_rank_data Sample.no_june_df
            (current_month Sample.report_date)
            (one_month_before Sample.report_date)
            (two_months_before Sample.report_date) = inr out
          /\ length (rows out) = length (rows Sample.no_june_df)).
Proof.
  assert (E : prepare_rank_data Sample.no_june_df
                (current_month Sample.report_date)
                (one_month_before Sample.report_date)
                (two_months_before Sample.report_date)
              = inl (KeyError "rank_in_tier_two_months"))
    by (vm_compute; reflexivity).
  split; [exact E |].
  intros [out [E' _]]. rewrite E in E'. discriminate.
Qed.

Section LaggingMonth.
Context {float : Type} `{Scalars float}.
Local Abbreviation cell := (cell float).
Local Abbreviation DataFrame := (DataFrame float).

Lemma entity_ranked_has_key (iTime iTier iLender : nat)
  (rs : list (list cell)) (cur one two : Period) (r : list cell) :
  entity_ranked iTime iTier iLender rs cur one two r = true ->
  has_key iTier iLender r = true.
Proof. unfold entity_ranked. intros E. apply andb_true_iff in E. tauto. Qed.

(** The rank cell of a record for a month [M] of the window. *)
Lemma rank_cell_cases (iTime iTier iLender iScenario : nat)
  (cur one two M : Period) (rs : list (list cell)) (r : list cell) :
  in_three cur one two M ->
  let count_df :=
    groupby_count iTime iTier iLender iScenario
      (filter (fun x => in_window cur one two (iloc iTime x)) rs) in
  let c : cell :=
    if entity_ranked iTime iTier iLender rs cur one two r
    then CInt (pivot_cell (rank_in_tier count_df) count_df
                 (iloc iTier r, iloc iLender r) M)
    else CNaN in
  (has_key iTier iLender r && entity_in_month iTime iTier iLender rs r M = false ->
   c = if entity_ranked iTime iTier iLender rs cur one two r
       then CInt 0 else CNaN)
  /\ (has_key iTier iLender r && entity_in_month iTime iTier iLender rs r M = true ->
      exists z, c = CInt z /\ 1 <= z).
Proof.
  intros H3 count_df c. subst c count_df.
  destruct (entity_ranked iTime iTier iLender rs cur one two r) eqn:E.
  - pose proof (entity_ranked_has_key _ _ _ _ _ _ _ _ E) as K.
    destruct (pivot_rank_value iTime iTier iLender iScenario cur one two rs
                r M H3 K) as [Z0 Z1].
    rewrite K. cbn [andb]. split.
    + intros E0. now rewrite (Z0 E0).
    + intros E1. eexists. split; [reflexivity | now apply Z1].
  - split; [reflexivity |].
    intros E1. apply andb_true_iff in E1. destruct E1 as [K E1].
    exfalso. unfold entity_ranked in E. rewrite K in E. cbn [andb] in E.
    destruct H3 as [-> | [-> | ->]]; rewrite E1 in E;
      rewrite ?orb_true_r in E; discriminate.
Qed.

(** C3, as amended. When the engine returns, every record is followed by
    its two rank cells, and for each lagging month: if the entity of the
    record has no countable record in that month, the cell is missing when
    the entity is not ranked at all (no tier or lender, or no record in
    any of the three months) and is the number 0, the fill value of the
    pivot, when the entity has a record in another month of the window;
    if the entity has a countable record in that month the cell is a rank
    of at least 1. In the export a missing cell is the empty quoted field
    and the fill value is not. *)
Theorem lagging_month_without_records (df out : DataFrame)
  (cm om tm : Timestamp) (iTime iTier iLender : nat) :
  prepare_rank_data df cm om tm = inr out ->
  get_loc "time" (columns df) = Some iTime ->
  get_loc "Tier" (columns df) = Some iTier ->
  get_loc "exportedLender" (columns df) = Some iLender ->
  let ranked := entity_ranked iTime iTier iLender (rows df)
                  (to_period cm) (to_period om) (to_period tm) in
  let counted r M :=
    has_key iTier iLender r
    && entity_in_month iTime iTier iLender (rows df) r M in
  Forall2
    (fun r r' =>
       exists c1 c2, r' = r ++ [c1; c2]
         /\ (counted r (to_period om) = false ->
             c1 = if ranked r then CInt 0 else CNaN)
         /\ (counted r (to_period tm) = false ->
             c2 = if ranked r then CInt 0 else CNaN)
         /\ (counted r (to_period om) = true -> exists z, c1 = CInt z /\ 1 <= z)
         /\ (counted r (to_period tm) = true -> exists z, c2 = CInt z /\ 1 <= z))
    (rows df) (rows out)
  /\ quote_field (csv_value (@CNaN float)) = [dquote; dquote]
  /\ quote_field (csv_value (@CInt float 0)) <> [dquote; dquote].
Proof.
  intros E Lt LT LL ranked counted.
  apply prepare_rank_data_inr in E.
  destruct E as [a [b [c [d [Ea [Eb [Ec [_ [_ [_ [_ ->]]]]]]]]]]].
  rewrite Lt in Ea. rewrite LT in Eb. rewrite LL in Ec.
  inversion Ea; inversion Eb; inversion Ec; subst a b c.
  split; [| split; [reflexivity | vm_compute; discriminate]].
  cbn [rows]. apply Forall2_map_self. intros r _.
  assert (H1 : in_three (to_period cm) (to_period om) (to_period tm) (to_period om))
    by (right; left; reflexivity).
  assert (H2 : in_three (to_period cm) (to_period om) (to_period tm) (to_period tm))
    by (right; right; reflexivity).
  pose proof (rank_cell_cases iTime iTier iLender d _ _ _ _ (rows df) r H1) as C1.
  pose proof (rank_cell_cases iTime iTier iLender d _ _ _ _ (rows df) r H2) as C2.
  cbv zeta in C1, C2. unfold appended_ranks.
  fold (ranked r) in C1, C2 |- *. fold (counted r (to_period om)) in C1.
  fold (counted r (to_period tm)) in C2.
  destruct (ranked r); eexists; eexists; (split; [reflexivity |]); tauto.
Qed.

End LaggingMonth.

Lemma lagging_month_witness :
  prepare_rank_data Sample.joined_df (current_month Sample.report_date)
    (one_month_before Sample.report_date)
    (two_months_before Sample.report_date) = inr Sample.ranked_df
  /\ get_loc "time" (columns Sample.joined_df) = Some 1%nat
  /\ get_loc "Tier" (columns Sample.joined_df) = Some 5%nat
  /\ get_loc "exportedLender" (columns Sample.joined_df) = Some 0%nat
  /\ quote_field (csv_value (@CInt Empty_set 0)) <> [dquote; dquote].
Proof.
  assert (E : prepare_rank_data Sample.joined_df
                (current_month Sample.report_date)
                (one_month_before Sample.report_date)
                (two_months_before Sample.report_date) = inr Sample.ranked_df)
    by reflexivity.
  assert (L1 : get_loc "time" (columns Sample.joined_df) = Some 1%nat)
    by reflexivity.
  assert (L2 : get_loc "Tier" (columns Sample.joined_df) = Some 5%nat)
    by reflexivity.
  assert (L3 : get_loc "exportedLender" (columns Sample.joined_df) = Some 0%nat)
    by reflexivity.
  repeat (split; [assumption |]).
  destruct (lagging_month_without_records _ _ _ _ _ _ _ _ E L1 L2 L3)
    as [_ [_ Z]].
  exact Z.
Defined.

(** C3, as stated, fails: lender B has records in July and August and
    none in June, the engine returns, and the records of B carry the
    integer 0, not a missing value, as rank of June. *)
Lemma rank_of_empty_month_is_zero :
  prepare_rank_data Sample.joined_df (current_month Sample.report_date)
    (one_month_before Sample.report_date)
    (two_months_before Sample.report_date) = inr Sample.ranked_df
  /\ entity_in_month 1 5 0 (rows Sample.joined_df) Sample.record_B (2025, 6)
     = false
  /\ nth 3 (rows Sample.ranked_df) []
     = Sample.record_B ++ [CInt 1; CInt 0]
  /\ isna (iloc 7 (nth 3 (rows Sample.ranked_df) [])) = false
  /\ map (fun r => (iloc 0 r, iloc 7 r)) (rows Sample.ranked_df)
     = [ (CStr "A", CInt 1); (CStr "A", CInt 1); (CStr "A", CInt 1);
         (CStr "B", CInt 0); (CStr "B", CInt 0); (CStr "B", CInt 0);
         (CStr "C", CInt 1); (CStr "C", CInt 1);
         (CStr "D", CNaN); (CStr "E", CNaN); (CStr "E", CNaN) ].
Proof. repeat split; vm_compute; reflexivity. Qed.

(** ** Tier lookup join *)

Section JoinProperties.
Context {float : Type} `{Scalars float}.
Local Abbreviation cell := (cell float).
Local Abbreviation DataFrame := (DataFrame float).

Lemma merge_key_eqb_trans (a b c : cell) :
  merge_key_eqb a b = true -> merge_key_eqb a c = true ->
  merge_key_eqb b c = true.
Proof.
  unfold merge_key_eqb.
  rewrite !orb_true_iff, !andb_true_iff, !cell_eqb_eq.
  intros [[Na Nb] | E1] [[Na' Nc] | E2].
  - left. auto.
  - subst c. left. auto.
  - subst b. left. auto.
  - right. congruence.
Qed.

Lemma unique_matches (iL iR : nat) (right : list (list cell)) (l : list cell) :
  unique_keys iR right = true ->
  (length (matches iL iR right l) <= 1)%nat.
Proof.
  unfold matches. induction right as [| r right IH]; intros U; [cbn; lia |].
  cbn [unique_keys] in U. apply andb_true_iff in U. destruct U as [U1 U2].
  cbn [filter].
  destruct (merge_key_eqb (iloc iL l) (iloc iR r)) eqn:E;
    [| now apply IH].
  assert (N : filter (fun r0 => merge_key_eqb (iloc iL l) (iloc iR r0)) right = []).
  { clear IH U2. induction right as [| r' right IH']; [reflexivity |].
    cbn [forallb] in U1. apply andb_true_iff in U1. destruct U1 as [N1 N2].
    cbn [filter].
    destruct (merge_key_eqb (iloc iL l) (iloc iR r')) eqn:E'.
    - rewrite (merge_key_eqb_trans _ _ _ E E') in N1. discriminate.
    - now apply IH'. }
  rewrite N. cbn. lia.
Qed.

(** With unique keys the merge gives one row per record. *)
Lemma merge_left_on_rows (left right : DataFrame) (iL iR : nat) :
  unique_keys iR (rows right) = true ->
  rows (merge_left_on left right iL iR)
  = map (fun l => l ++ lookup_cells iL iR right l) (rows left).
Proof.
  intros U. cbn [merge_left_on rows]. apply flat_map_singletons. intros l.
  unfold lookup_cells.
  pose proof (unique_matches iL iR (rows right) l U) as Hlen.
  destruct (matches iL iR (rows right) l) as [| r [| r' ms]];
    [reflexivity | reflexivity | cbn in Hlen; lia].
Qed.

Lemma drop_at_app {A : Type} (l e : list A) (i : nat) :
  drop_at (length l + i) (l ++ e) = l ++ drop_at i e.
Proof.
  unfold drop_at.
  rewrite firstn_app, firstn_all2 by lia.
  replace (length l + i - length l)%nat with i by lia.
  replace (S (length l + i)) with (length l + S i)%nat by lia.
  rewrite skipn_app, skipn_all2 by lia.
  replace (length l + S i - length l)%nat with (S i) by lia.
  now rewrite app_nil_l, app_assoc.
Qed.

Lemma get_loc_app (x : string) (a b : list string) :
  get_loc x (a ++ b)
  = match get_loc x a with
    | Some i => Some i
    | None => option_map (fun j => (length a + j)%nat) (get_loc x b)
    end.
Proof.
  induction a as [| c a IH]; cbn.
  - now destruct (get_loc x b).
  - destruct (String.eqb c x); [reflexivity |].
    rewrite IH. destruct (get_loc x a); [reflexivity |].
    now destruct (get_loc x b).
Qed.

Lemma get_loc_None (x : string) (a : list string) :
  (forall c, In c a -> c <> x) -> get_loc x a = None.
Proof.
  induction a as [| c a IH]; intros Hn; cbn; [reflexivity |].
  destruct (String.eqb_spec c x) as [E | _].
  - exfalso. apply (Hn c); [now left | exact E].
  - rewrite IH; [reflexivity |]. intros y Hy. apply Hn. now right.
Qed.

Lemma get_loc_In (x : string) (a : list string) (i : nat) :
  get_loc x a = Some i -> In x a.
Proof.
  revert i. induction a as [| c a IH]; intros i; cbn; [discriminate |].
  destruct (String.eqb_spec c x) as [E | _]; [now left |].
  destruct (get_loc x a) as [j |]; [| discriminate].
  intros _. right. now apply (IH j).
Qed.

Lemma get_loc_map_same (x : string) (f : string -> string) (a : list string) :
  (forall c, In c a -> String.eqb (f c) x = String.eqb c x) ->
  get_loc x (map f a) = get_loc x a.
Proof.
  induction a as [| c a IH]; intros Hf; cbn; [reflexivity |].
  rewrite Hf by now left.
  destruct (String.eqb c x); [reflexivity |].
  rewrite IH; [reflexivity |]. intros y Hy. apply Hf. now right.
Qed.

Lemma mem_label_In (x : string) (a : list string) :
  mem_label x a = true <-> In x a.
Proof.
  unfold mem_label. rewrite existsb_exists. split.
  - intros [c [Hc E]]. apply String.eqb_eq in E. now subst.
  - intros Hin. exists x. split; [exact Hin | apply String.eqb_refl].
Qed.

End JoinProperties.

Section JoinClaims.
Context {float : Type} `{Scalars float}.
Local Abbreviation cell := (cell float).
Local Abbreviation DataFrame := (DataFrame float).

Ltac short_label c :=
  do 7 (destruct c as [| ? c]; [cbn; congruence |]); cbn; congruence.

Lemma x_suffix_not_Lender (c : string) : (c ++ "_x")%string <> "Lender"%string.
Proof. short_label c. Qed.

Lemma y_suffix_not_Lender (c : string) : (c ++ "_y")%string <> "Lender"%string.
Proof. short_label c. Qed.

Lemma x_suffix_not_Tier (c : string) : (c ++ "_x")%string <> "Tier"%string.
Proof. short_label c. Qed.

Lemma drop_at_repeat (a : cell) (i n : nat) :
  (i < n)%nat -> drop_at i (repeat a n) = repeat a (n - 1).
Proof.
  unfold drop_at. revert n. induction i as [| i IH]; intros n Hi.
  - destruct n as [| n]; [lia |]. cbn. now rewrite Nat.sub_0_r.
  - destruct n as [| n]; [lia |]. cbn [repeat firstn skipn app].
    specialize (IH n ltac:(lia)). cbn [skipn] in IH.
    destruct n as [| n]; [lia |].
    cbn [repeat skipn] in IH |- *. rewrite IH. cbn.
    now rewrite Nat.sub_0_r.
Qed.

Lemma get_loc_lt (x : string) (a : list string) (i : nat) :
  get_loc x a = Some i -> (i < length a)%nat.
Proof.
  revert i. induction a as [| c a IH]; intros i; cbn; [discriminate |].
  destruct (String.eqb c x); [intros E; inversion E; lia |].
  destruct (get_loc x a) as [j |]; [| discriminate].
  cbn. intros E. inversion E. specialize (IH j eq_refl). lia.
Qed.

Lemma Lender_not_left_suffixed (lcols rcols : list string) :
  In "Lender"%string rcols ->
  get_loc "Lender" (map (suffix_left rcols) lcols) = None.
Proof.
  intros Hr. apply get_loc_None. intros c Hc E.
  apply in_map_iff in Hc. destruct Hc as [c0 [<- _]].
  unfold suffix_left in E. destruct (mem_label c0 rcols) eqn:M.
  - now apply (x_suffix_not_Lender c0).
  - subst c0. apply mem_label_In in Hr. congruence.
Qed.

Lemma Lender_right_suffixed (lcols rcols : list string) :
  get_loc "Lender" (map (suffix_right lcols) rcols)
  = if mem_label "Lender" lcols then None else get_loc "Lender" rcols.
Proof.
  destruct (mem_label "Lender" lcols) eqn:M.
  - apply get_loc_None. intros c Hc E.
    apply in_map_iff in Hc. destruct Hc as [c0 [<- _]].
    unfold suffix_right in E. destruct (mem_label c0 lcols) eqn:M0.
    + now apply (y_suffix_not_Lender c0).
    + subst c0. congruence.
  - apply get_loc_map_same. intros c _. unfold suffix_right.
    destruct (String.eqb_spec c "Lender") as [-> | Hne].
    + rewrite M. apply String.eqb_refl.
    + destruct (mem_label c lcols); [| now apply String.eqb_neq].
      apply String.eqb_neq. apply y_suffix_not_Lender.
Qed.

(** What the tier join returns for a lookup with unique keys. *)
Lemma tier_join_inr (left right joined : DataFrame) (iL iR : nat) :
  tier_join left right = inr joined ->
  get_loc "exportedLender" (columns left) = Some iL ->
  get_loc "Lender" (columns right) = Some iR ->
  unique_keys iR (rows right) = true ->
  well_formed left ->
  columns joined
  = map (suffix_left (columns right)) (columns left)
    ++ drop_at iR (map (suffix_right (columns left)) (columns right))
  /\ rows joined
     = map (fun l => l ++ drop_at iR (lookup_cells iL iR right l)) (rows left).
Proof.
  intros E EL ER U W.
  unfold tier_join, require, bind in E. rewrite EL, ER in E.
  unfold drop_column, require, bind in E.
  change (columns (merge_left_on left right iL iR))
    with (map (suffix_left (columns right)) (columns left)
          ++ map (suffix_right (columns left)) (columns right)) in E.
  rewrite get_loc_app, Lender_not_left_suffixed in E
    by (eapply get_loc_In; exact ER).
  rewrite Lender_right_suffixed, ER in E.
  destruct (mem_label "Lender" (columns left)); [discriminate |].
  cbn [option_map] in E.
  rewrite merge_left_on_rows in E by exact U.
  injection E as <-. cbn [columns rows].
  split.
  - apply drop_at_app.
  - rewrite map_map, length_map. apply map_ext_in. intros l Hl.
    unfold well_formed in W. rewrite Forall_forall in W.
    rewrite <- (W l Hl). apply drop_at_app.
Qed.

Lemma nth_beyond_missing (r : list cell) (m j : nat) :
  (length r <= j)%nat -> iloc j (r ++ repeat CNaN m) = CNaN.
Proof.
  intros Hj. unfold iloc. rewrite app_nth2 by lia. apply nth_repeat.
Qed.

(** C5, as amended. For a lookup with unique keys and well-formed
    records the tier join returns as many records as it was given, each
    output record being the input record, in order, followed by the cells
    of the lookup, which are all missing when no key of the lookup matches
    the lender of the record; and when the tier comes from the lookup and
    the ranking engine returns for the joined frame, such a record is in
    its output, followed by two missing rank cells. *)
Theorem tier_join_is_left_join (result_df tier_df joined : DataFrame)
  (iL iR : nat) :
  tier_join result_df tier_df = inr joined ->
  get_loc "exportedLender" (columns result_df) = Some iL ->
  get_loc "Lender" (columns tier_df) = Some iR ->
  unique_keys iR (rows tier_df) = true ->
  well_formed result_df ->
  length (rows joined) = length (rows result_df)
  /\ Forall2
       (fun r r' =>
          exists t, r' = r ++ t
            /\ (matches iL iR (rows tier_df) r = [] ->
                t = repeat CNaN (length (columns tier_df) - 1)))
       (rows result_df) (rows joined)
  /\ (~ In "Tier"%string (columns result_df) ->
      forall cm om tm out,
        prepare_rank_data joined cm om tm = inr out ->
        Forall2
          (fun r r'' =>
             matches iL iR (rows tier_df) r = [] ->
             r'' = (r ++ repeat CNaN (length (columns tier_df) - 1))
                   ++ [CNaN; CNaN])
          (rows result_df) (rows out)).
Proof.
  intros E EL ER U W.
  destruct (tier_join_inr _ _ _ _ _ E EL ER U W) as [Ecols Erows].
  assert (Hunmatched : forall r, matches iL iR (rows tier_df) r = [] ->
            drop_at iR (lookup_cells iL iR tier_df r)
            = repeat CNaN (length (columns tier_df) - 1)).
  { intros r M. unfold lookup_cells. rewrite M.
    apply drop_at_repeat. eapply get_loc_lt. exact ER. }
  split; [rewrite Erows; apply length_map |].
  split.
  { rewrite Erows. apply Forall2_map_self. intros r _.
    eexists. split; [reflexivity | apply Hunmatched]. }
  intros HT cm om tm out Eout.
  apply prepare_rank_data_inr in Eout.
  destruct Eout as [a [b [c [d [_ [Eb [_ [_ [_ [_ [_ ->]]]]]]]]]]].
  cbn [rows]. rewrite Erows, map_map.
  apply Forall2_map_self. intros r Hr M.
  rewrite (Hunmatched r M).
  f_equal. unfold appended_ranks.
  assert (Hb : (length r <= b)%nat).
  { rewrite Ecols, get_loc_app in Eb.
    rewrite (get_loc_None "Tier") in Eb.
    - destruct (get_loc "Tier" _) as [j |]; [| discriminate].
      cbn in Eb. inversion Eb. rewrite length_map.
      unfold well_formed in W. rewrite Forall_forall in W.
      rewrite (W r Hr). lia.
    - intros x Hx Ex. apply in_map_iff in Hx. destruct Hx as [x0 [<- Hx0]].
      unfold suffix_left in Ex. destruct (mem_label x0 (columns tier_df)).
      + now apply (x_suffix_not_Tier x0).
      + subst x0. now apply HT. }
  unfold entity_ranked, has_key.
  rewrite (nth_beyond_missing r _ b Hb). reflexivity.
Qed.

End JoinClaims.

Lemma tier_join_witness :
  tier_join Sample.result_df Sample.tier_df = inr Sample.joined_df
  /\ get_loc "exportedLender" (columns Sample.result_df) = Some 0%nat
  /\ get_loc "Lender" (columns Sample.tier_df) = Some 0%nat
  /\ unique_keys 0 (rows Sample.tier_df) = true
  /\ well_formed Sample.result_df
  /\ length (rows Sample.joined_df) = length (rows Sample.result_df).
Proof.
  assert (E : tier_join Sample.result_df Sample.tier_df = inr Sample.joined_df)
    by reflexivity.
  assert (L1 : get_loc "exportedLender" (columns Sample.result_df) = Some 0%nat)
    by reflexivity.
  assert (L2 : get_loc "Lender" (columns Sample.tier_df) = Some 0%nat)
    by reflexivity.
  assert (U : unique_keys 0 (rows Sample.tier_df) = true) by reflexivity.
  assert (W : well_formed Sample.result_df)
    by (repeat constructor).
  repeat (split; [assumption |]).
  apply (tier_join_is_left_join _ _ _ _ _ E L1 L2 U W).
Defined.

(** C5, as stated, fails in its last part: the one record of a lender
    that the lookup does not know passes the join with a missing tier,
    but no record of the frame can be counted, so the ranking engine
    raises, the exception is caught in the loop, and the run ends without
    an export file: the record is in no export. *)
Lemma unknown_lender_has_no_export :
  (exists joined,
     tier_join Sample.unknown_lender_df Sample.tier_df = inr joined
     /\ map (fun r => (iloc 0 r, iloc 5 r)) (rows joined) = [(CStr "D", CNaN)]
     /\ prepare_rank_data joined (current_month Sample.report_date)
          (one_month_before Sample.report_date)
          (two_months_before Sample.report_date)
        = inl (KeyError "rank_in_tier_one_month"))
  /\ main Sample.unknown_lender_world Sample.report_date
     = Completed (mkRun []
         [RunningQuery "D";
          ErrorRunningQuery "D" (KeyError "rank_in_tier_one_month");
          AllProcessed]).
Proof.
  split.
  - eexists. split; [reflexivity |]. split; vm_compute; reflexivity.
  - vm_compute. reflexivity.
Qed.

(** ** Record sanitizer *)

Section SanitizerProperties.
Context {float : Type} `{Scalars float}.
Local Abbreviation cell := (cell float).
Local Abbreviation DataFrame := (DataFrame float).

Lemma strip_chars_free (s : string) :
  free_of stripped_char (strip_chars s) = true.
Proof.
  induction s as [| a s IH]; [reflexivity |].
  cbn [strip_chars]. destruct (stripped_char a) eqn:E; [exact IH |].
  cbn [free_of]. now rewrite E, IH.
Qed.

Lemma strip_chars_fixed (s : string) :
  free_of stripped_char s = true -> strip_chars s = s.
Proof.
  induction s as [| a s IH]; [reflexivity |].
  cbn [free_of strip_chars]. intros E. apply andb_true_iff in E.
  destruct E as [E1 E2]. apply negb_true_iff in E1.
  now rewrite E1, IH.
Qed.

Lemma stripped_comma (a : ascii) :
  Ascii.eqb a comma = true -> stripped_char a = true.
Proof. intros E. apply Ascii.eqb_eq in E. now subst. Qed.

Lemma stripped_opener (a : ascii) :
  is_opener a = true -> stripped_char a = true.
Proof.
  unfold is_opener. intros E. apply orb_true_iff in E.
  destruct E as [E | E]; apply Ascii.eqb_eq in E; now subst.
Qed.

Lemma free_no_comma (s : string) :
  free_of stripped_char s = true -> contains_comma s = false.
Proof.
  induction s as [| a s IH]; [reflexivity |].
  cbn [free_of contains_comma]. intros E. apply andb_true_iff in E.
  destruct E as [E1 E2]. rewrite (IH E2), orb_false_r.
  destruct (Ascii.eqb a comma) eqn:Ec; [| reflexivity].
  now rewrite (stripped_comma a Ec) in E1.
Qed.

Lemma free_not_json_like (s : string) :
  free_of stripped_char s = true -> json_like s = false.
Proof.
  induction s as [| a s IH]; [reflexivity |].
  cbn [free_of json_like]. intros E. apply andb_true_iff in E.
  destruct E as [E1 E2]. rewrite (IH E2), orb_false_r.
  destruct (is_opener a) eqn:Eo; [| reflexivity].
  now rewrite (stripped_opener a Eo) in E1.
Qed.

Lemma iloc_apply_at_same (i : nat) (f : cell -> cell) (r : list cell) :
  iloc i (apply_at i f r)
  = if (i <? length r)%nat then f (iloc i r) else CNaN.
Proof.
  unfold iloc. revert i. induction r as [| c r IH]; intros i.
  - now destruct i.
  - destruct i as [| i]; [reflexivity |]. cbn [apply_at nth length].
    rewrite IH. reflexivity.
Qed.

Lemma nth_error_apply_at_same (i : nat) (f : cell -> cell) (r : list cell)
  (c : cell) :
  nth_error (apply_at i f r) i = Some c ->
  exists c0, nth_error r i = Some c0 /\ c = f c0.
Proof.
  revert i. induction r as [| x r IH]; intros i.
  - destruct i; discriminate.
  - destruct i as [| i]; cbn.
    + intros E. inversion E. eauto.
    + apply IH.
Qed.

(** The two checks of lines 61-63 on a stripped cell. *)
Lemma stripped_cell_passes (c : cell) :
  cell_contains contains_comma (replace_cell (astype_str c)) = false
  /\ cell_contains json_like (replace_cell (astype_str c)) = false.
Proof.
  cbn. split; [apply free_no_comma | apply free_not_json_like];
    apply strip_chars_free.
Qed.

Lemma clean_string_column_quiet (st : DataFrame * list warning) (col : string) :
  snd (clean_string_column st col) = snd st.
Proof.
  unfold clean_string_column.
  destruct (mem_label col (columns (fst st))); [| reflexivity].
  cbn [snd].
  assert (Hq : forall p,
            (forall c, cell_contains p (replace_cell (astype_str c)) = false) ->
            existsb id (map (cell_contains p)
              (column_values col
                 (map_column col (fun c => replace_cell (astype_str c)) (fst st))))
            = false).
  { intros p Hp. unfold column_values, map_column.
    destruct (get_loc col (columns (fst st))) as [i |] eqn:Ei.
    - cbn [columns rows]. rewrite Ei. rewrite !map_map.
      induction (rows (fst st)) as [| r rs IH]; [reflexivity |].
      cbn [map existsb]. rewrite IH, orb_false_r. unfold id.
      rewrite iloc_apply_at_same.
      destruct (i <? length r)%nat; [apply Hp | reflexivity].
    - rewrite Ei. reflexivity. }
  rewrite (Hq contains_comma), (Hq json_like).
  - now rewrite !app_nil_r.
  - intros c. apply stripped_cell_passes.
  - intros c. apply stripped_cell_passes.
Qed.

Lemma clean_string_columns_quiet (cols : list string)
  (st : DataFrame * list warning) :
  snd (fold_left clean_string_column cols st) = snd st.
Proof.
  revert st. induction cols as [| col cols IH]; intros st; [reflexivity |].
  cbn [fold_left]. now rewrite IH, clean_string_column_quiet.
Qed.

(** The warnings of [clean_dataframe], whatever the two lists of columns. *)
Lemma clean_columns_quiet (scols ncols : list string) (df : DataFrame) :
  snd (let df0 :=
         if mem_label "time" (columns df) then map_column "time" astype_str df
         else df in
       let st := fold_left clean_string_column scols (df0, []) in
       (fold_left clean_numeric_column ncols (fst st), snd st)) = [].
Proof.
  cbv zeta. cbn [snd]. now rewrite clean_string_columns_quiet.
Qed.

Lemma clean_dataframe_quiet (df : DataFrame) : snd (clean_dataframe df) = [].
Proof. exact (clean_columns_quiet string_columns numeric_columns df). Qed.

(** C10. After the stripping step of a designated string column every
    cell of that column is a string without comma, square bracket, curly
    brace, double quote or backslash; such a string has no comma and no
    match of the bracket pattern; so the step prints no warning, and
    [clean_dataframe] prints none for any frame. *)
Theorem sanitizer_warnings_unreachable (df : DataFrame) :
  (forall (st : DataFrame * list warning) col i r c,
      get_loc col (columns (fst st)) = Some i ->
      In r (rows (fst (clean_string_column st col))) ->
      nth_error r i = Some c ->
      exists s, c = CStr s /\ free_of stripped_char s = true)
  /\ (forall s, free_of stripped_char s = true ->
        contains_comma s = false /\ json_like s = false)
  /\ (forall (st : DataFrame * list warning) col,
        snd (clean_string_column st col) = snd st)
  /\ snd (clean_dataframe df) = [].
Proof.
  split.
  { intros st col i r c Ei Hr Hc. unfold clean_string_column in Hr.
    assert (M : mem_label col (columns (fst st)) = true)
      by (apply mem_label_In; eapply get_loc_In; exact Ei).
    rewrite M in Hr. cbn [fst] in Hr. unfold map_column in Hr.
    rewrite Ei in Hr. cbn [rows] in Hr. apply in_map_iff in Hr.
    destruct Hr as [r0 [<- _]].
    apply nth_error_apply_at_same in Hc. destruct Hc as [c0 [_ ->]].
    eexists. split; [reflexivity | apply strip_chars_free]. }
  split.
  { intros s Hs. split; [now apply free_no_comma | now apply free_not_json_like]. }
  split; [apply clean_string_column_quiet |].
  exact (clean_columns_quiet string_columns numeric_columns df).
Qed.

End SanitizerProperties.

Section Idempotence.
Context {float : Type} `{Scalars float}.
Local Abbreviation cell := (cell float).
Local Abbreviation DataFrame := (DataFrame float).

Lemma astype_str_idempotent : idempotent astype_str.
Proof. intros c. reflexivity. Qed.

Lemma strip_idempotent : idempotent (fun c => replace_cell (astype_str c)).
Proof.
  intros c. cbn. f_equal. apply strip_chars_fixed, strip_chars_free.
Qed.

Lemma to_numeric_idempotent : idempotent to_numeric.
Proof.
  intros c. destruct c; try reflexivity. cbn.
  destruct (to_numeric_str s) as [[z | x] |]; reflexivity.
Qed.

Lemma apply_at_idempotent (i : nat) (f : cell -> cell) (r : list cell) :
  idempotent f -> apply_at i f (apply_at i f r) = apply_at i f r.
Proof.
  intros Hf. revert i. induction r as [| c r IH]; intros i; [reflexivity |].
  destruct i as [| i]; cbn; [now rewrite Hf | now rewrite IH].
Qed.

Lemma apply_at_commute (i j : nat) (f g : cell -> cell) (r : list cell) :
  i <> j -> apply_at i f (apply_at j g r) = apply_at j g (apply_at i f r).
Proof.
  revert i j. induction r as [| c r IH]; intros i j Hij; [reflexivity |].
  destruct i as [| i], j as [| j]; cbn; try reflexivity; [congruence |].
  f_equal. apply IH. congruence.
Qed.

Lemma get_loc_nth_error (x : string) (cols : list string) (i : nat) :
  get_loc x cols = Some i -> nth_error cols i = Some x.
Proof.
  revert i. induction cols as [| c cols IH]; intros i; cbn; [discriminate |].
  destruct (String.eqb_spec c x) as [-> | _].
  - intros E. inversion E. reflexivity.
  - destruct (get_loc x cols) as [j |]; [| discriminate].
    cbn. intros E. inversion E. cbn. now apply IH.
Qed.

Lemma map_column_columns (a : string) (f : cell -> cell) (df : DataFrame) :
  columns (map_column a f df) = columns df.
Proof. unfold map_column. now destruct (get_loc a (columns df)). Qed.

Lemma map_column_idempotent (a : string) (f : cell -> cell) (df : DataFrame) :
  idempotent f -> map_column a f (map_column a f df) = map_column a f df.
Proof.
  intros Hf. unfold map_column.
  destruct (get_loc a (columns df)) as [i |] eqn:E; cbn [columns rows];
    rewrite E; [| reflexivity].
  f_equal. rewrite map_map. apply map_ext. intros r.
  now apply apply_at_idempotent.
Qed.

Lemma map_column_commute (a b : string) (f g : cell -> cell) (df : DataFrame) :
  a <> b ->
  map_column a f (map_column b g df) = map_column b g (map_column a f df).
Proof.
  intros Hab. unfold map_column.
  destruct (get_loc a (columns df)) as [i |] eqn:Ea;
  destruct (get_loc b (columns df)) as [j |] eqn:Eb;
  cbn [columns rows]; rewrite ?Ea, ?Eb; try reflexivity.
  f_equal. rewrite !map_map. apply map_ext. intros r.
  apply apply_at_commute. intros ->.
  apply get_loc_nth_error in Ea. apply get_loc_nth_error in Eb. congruence.
Qed.

Lemma run_steps_commute (a : string) (f : cell -> cell)
  (steps : list (string * (cell -> cell))) (df : DataFrame) :
  ~ In a (map fst steps) ->
  map_column a f (run_steps steps df) = run_steps steps (map_column a f df).
Proof.
  unfold run_steps. revert df.
  induction steps as [| [b g] steps IH]; intros df Hn; [reflexivity |].
  cbn [fold_left fst snd]. cbn in Hn.
  rewrite IH by (intros Hin; apply Hn; now right).
  f_equal. apply map_column_commute. intros ->. apply Hn. now left.
Qed.

(** Assignments to distinct columns by idempotent functions can be
    repeated without effect. *)
Lemma run_steps_idempotent (steps : list (string * (cell -> cell)))
  (df : DataFrame) :
  NoDup (map fst steps) ->
  Forall (fun step => idempotent (snd step)) steps ->
  run_steps steps (run_steps steps df) = run_steps steps df.
Proof.
  revert df. induction steps as [| [a f] steps IH]; intros df Hnd Hid;
    [reflexivity |].
  inversion Hnd as [| ? ? Hnotin Hnd']; subst.
  inversion Hid as [| ? ? Hf Hid']; subst. cbn [snd] in Hf.
  change (run_steps ((a, f) :: steps) df)
    with (run_steps steps (map_column a f df)).
  change (run_steps ((a, f) :: steps) (run_steps steps (map_column a f df)))
    with (run_steps steps
            (map_column a f (run_steps steps (map_column a f df)))).
  rewrite (run_steps_commute a f steps _ Hnotin).
  rewrite (map_column_idempotent a f df Hf).
  now apply IH.
Qed.

Lemma map_column_guard (col : string) (f : cell -> cell) (df : DataFrame) :
  (if mem_label col (columns df) then map_column col f df else df)
  = map_column col f df.
Proof.
  destruct (mem_label col (columns df)) eqn:M; [reflexivity |].
  unfold map_column. destruct (get_loc col (columns df)) as [i |] eqn:E;
    [| reflexivity].
  apply get_loc_In in E. apply mem_label_In in E. congruence.
Qed.

Lemma clean_string_columns_frame (cols : list string)
  (st : DataFrame * list warning) :
  fst (fold_left clean_string_column cols st)
  = run_steps (map (fun col => (col, fun c => replace_cell (astype_str c))) cols)
              (fst st).
Proof.
  unfold run_steps. revert st.
  induction cols as [| col cols IH]; intros st; [reflexivity |].
  cbn [fold_left map fst snd]. rewrite IH. f_equal.
  unfold clean_string_column.
  rewrite <- (map_column_guard col _ (fst st)).
  now destruct (mem_label col (columns (fst st))).
Qed.

Lemma clean_numeric_columns_frame (cols : list string) (df : DataFrame) :
  fold_left clean_numeric_column cols df
  = run_steps (map (fun col => (col, to_numeric)) cols) df.
Proof.
  unfold run_steps. revert df.
  induction cols as [| col cols IH]; intros df; [reflexivity |].
  cbn [fold_left map fst snd]. rewrite IH. f_equal.
  apply map_column_guard.
Qed.

Lemma run_steps_app (s1 s2 : list (string * (cell -> cell))) (df : DataFrame) :
  run_steps (s1 ++ s2) df = run_steps s2 (run_steps s1 df).
Proof. unfold run_steps. apply fold_left_app. Qed.

Lemma run_steps_cons (step : string * (cell -> cell))
  (steps : list (string * (cell -> cell))) (df : DataFrame) :
  run_steps (step :: steps) df
  = run_steps steps (map_column (fst step) (snd step) df).
Proof. reflexivity. Qed.

(** The frame of [clean_dataframe], whatever the two lists of columns. *)
Lemma clean_columns_steps (scols ncols : list string) (df : DataFrame) :
  fst (let df0 :=
         if mem_label "time" (columns df) then map_column "time" astype_str df
         else df in
       let st := fold_left clean_string_column scols (df0, []) in
       (fold_left clean_numeric_column ncols (fst st), snd st))
  = run_steps
      (("time"%string, astype_str)
       :: map (fun col => (col, fun c => replace_cell (astype_str c))) scols
       ++ map (fun col => (col, to_numeric)) ncols)
      df.
Proof.
  cbv zeta. cbn [fst].
  rewrite clean_numeric_columns_frame, clean_string_columns_frame.
  cbn [fst]. rewrite map_column_guard.
  rewrite run_steps_cons, run_steps_app. reflexivity.
Qed.

(** The frame returned by [clean_dataframe] is the result of its column
    assignments. *)
Lemma clean_dataframe_steps (df : DataFrame) :
  fst (clean_dataframe df) = run_steps cleaning_steps df.
Proof. exact (clean_columns_steps string_columns numeric_columns df). Qed.

Lemma cleaning_steps_distinct : NoDup (map fst (@cleaning_steps float _)).
Proof.
  cbn. repeat (constructor; [cbn; intuition discriminate |]). constructor.
Qed.

Lemma cleaning_steps_idempotent :
  Forall (fun step => idempotent (snd step)) (@cleaning_steps float _).
Proof.
  unfold cleaning_steps. constructor; [exact astype_str_idempotent |].
  apply Forall_app. split; apply Forall_forall; intros step Hs;
    apply in_map_iff in Hs; destruct Hs as [col [<- _]]; cbn [snd].
  - exact strip_idempotent.
  - exact to_numeric_idempotent.
Qed.

(** C7. Applying [clean_dataframe] to its own result gives the same frame
    again, and no warning either time: a second pass leaves the string
    fields, the numeric fields and the timestamp field as the first pass
    made them. *)
Theorem clean_dataframe_idempotent (df : DataFrame) :
  fst (clean_dataframe (fst (clean_dataframe df))) = fst (clean_dataframe df)
  /\ clean_dataframe (fst (clean_dataframe df)) = clean_dataframe df
  /\ (forall c, astype_str (astype_str c) = astype_str c)
  /\ (forall c, replace_cell (astype_str (replace_cell (astype_str c)))
                = replace_cell (astype_str c))
  /\ (forall c, to_numeric (to_numeric c) = to_numeric c).
Proof.
  assert (E : fst (clean_dataframe (fst (clean_dataframe df)))
              = fst (clean_dataframe df)).
  { rewrite !clean_dataframe_steps.
    apply run_steps_idempotent.
    - apply cleaning_steps_distinct.
    - apply cleaning_steps_idempotent. }
  split; [exact E |].
  split.
  { rewrite (surjective_pairing (clean_dataframe df)) at 2.
    rewrite (surjective_pairing (clean_dataframe (fst (clean_dataframe df)))).
    rewrite E. f_equal.
    now rewrite !clean_dataframe_quiet. }
  split; [exact astype_str_idempotent |].
  split; [exact strip_idempotent | exact to_numeric_idempotent].
Qed.

End Idempotence.

(** ** Tabular exporter: reading back what was written *)

Section ReadBack.






Lemma feed_app (s t : list ascii) : feed (s ++ t) = feed s ++ feed t.
Proof. unfold feed. apply flat_map_app. Qed.














End ReadBack.

Section ReadRows.












End ReadRows.

Section ExportClaims.
Context {float : Type} `{Scalars float}.
Local Abbreviation cell := (cell float).
Local Abbreviation DataFrame := (DataFrame float).



Lemma length_apply_at (i : nat) (f : cell -> cell) (r : list cell) :
  length (apply_at i f r) = length r.
Proof.
  revert i. induction r as [| c r IH]; intros i; [reflexivity |].
  destruct i; cbn; [reflexivity | now rewrite IH].
Qed.

Lemma map_column_well_formed (a : string) (f : cell -> cell) (df : DataFrame) :
  well_formed df -> well_formed (map_column a f df).
Proof.
  unfold well_formed, map_column. intros W.
  destruct (get_loc a (columns df)); [| exact W].
  cbn [rows columns]. apply Forall_map.
  eapply Forall_impl; [| exact W]. intros r E. cbn beta.
  now rewrite length_apply_at.
Qed.

Lemma run_steps_shape (steps : list (string * (cell -> cell))) (df : DataFrame) :
  columns (run_steps steps df) = columns df
  /\ (well_formed df -> well_formed (run_steps steps df)).
Proof.
  unfold run_steps. revert df.
  induction steps as [| [a f] steps IH]; intros df; [auto |].
  cbn [fold_left fst snd]. destruct (IH (map_column a f df)) as [Ec Ew].
  rewrite Ec, map_column_columns. split; [reflexivity |].
  intros W. apply Ew. now apply map_column_well_formed.
Qed.




End ExportClaims.



(** ** Missing values in the export *)

Section MissingValues.
Context {float : Type} `{Scalars float}.
Local Abbreviation cell := (cell float).

(** C8. What the code does with a missing value: [to_csv] writes it as
    the empty quoted field; but in a designated string column
    [clean_dataframe] has replaced it before by its printed name, nan,
    None or NaT, which is then written as an ordinary string, and so has
    the cast of the time column. For the sample records the text field is
    exported as nan and None, the instant as NaT, and only the number
    field and the tier as the empty field. *)
Theorem missing_string_is_exported_as_nan :
  (forall c : cell, isna c = true ->
     quote_field (csv_value c) = [dquote; dquote])
  /\ (forall c : cell, isna c = true ->
        isna (replace_cell (astype_str c)) = false
        /\ csv_value (replace_cell (astype_str c)) = str_cell c
        /\ (str_cell c = "nan" \/ str_cell c = "None" \/ str_cell c = "NaT")%string)
  /\ map (map csv_value) (rows (fst (clean_dataframe Sample.missing_values_df)))
     = [ ["nan"; EmptyString; EmptyString; "NaT"];
         ["None"; EmptyString; EmptyString; "NaT"] ]%string
  /\ map (map quote_field)
         (map (map csv_value)
              (rows (fst (clean_dataframe Sample.missing_values_df))))
     = [ [dquote :: list_ascii_of_string "nan" ++ [dquote]; [dquote; dquote];
          [dquote; dquote]; dquote :: list_ascii_of_string "NaT" ++ [dquote]];
         [dquote :: list_ascii_of_string "None" ++ [dquote]; [dquote; dquote];
          [dquote; dquote]; dquote :: list_ascii_of_string "NaT" ++ [dquote]] ].
Proof.
  split.
  { intros c E. destruct c; try discriminate; reflexivity. }
  split.
  { intros c E. destruct c; try discriminate; cbn; auto. }
  split; vm_compute; reflexivity.
Qed.

End MissingValues.

(** ** Pipeline driver *)

Section DriverClaims.
Context {float : Type} `{Scalars float}.
Local Abbreviation World := (World float).

Lemma process_lender_without_tiers (w : World) (report_date : Timestamp)
  (lender : string) :
  tier_source_unusable w ->
  exists e, process_lender w report_date lender = inl e.
Proof.
  intros U. unfold process_lender, bind.
  destruct (fetchdf w lender) as [e | df]; [eauto |].
  destruct U as [[e E] | [t [E L]]]; rewrite E; [eauto |].
  unfold tier_join, require, bind.
  destruct (get_loc "exportedLender" (columns df)); [| eauto].
  rewrite L. eauto.
Qed.

Lemma main_loop_without_tiers (w : World) (report_date : Timestamp)
  (lenders : list string) (r : Run) :
  tier_source_unusable w ->
  main_loop w report_date lenders r
  = mkRun (files r)
      (printed r
       ++ flat_map (fun l => [RunningQuery l;
                              ErrorRunningQuery l (error_of w report_date l)])
                   lenders).
Proof.
  intros U. revert r. induction lenders as [| l lenders IH]; intros r.
  - cbn. rewrite app_nil_r. now destruct r.
  - cbn [main_loop flat_map]. unfold error_of at 1.
    destruct (process_lender_without_tiers w report_date l U) as [e E].
    rewrite E, IH. unfold print. cbn [files printed].
    now rewrite <- !app_assoc.
Qed.

(** C6, as amended. When the lookup file is missing or cannot be used
    and the run reaches the loop, no export file is written, every lender
    is visited in turn and the exception of its step is caught and
    printed with the name of the lender, and the run completes: it does
    not abort and it does not stop at the first lender. *)
Theorem tier_source_failure_is_caught_per_lender (w : World)
  (report_date : Timestamp) (lenders : list string) :
  startup w = inr tt ->
  lenders_of w = inr lenders ->
  tier_source_unusable w ->
  main w report_date
  = Completed
      (mkRun []
         (flat_map (fun l => [RunningQuery l;
                              ErrorRunningQuery l (error_of w report_date l)])
                   lenders
          ++ [AllProcessed]))
  /\ forall l, In l lenders ->
       exists e, process_lender w report_date l = inl e.
Proof.
  intros S L U. split.
  - unfold main. rewrite S, L, (main_loop_without_tiers _ _ _ _ U).
    reflexivity.
  - intros l _. now apply process_lender_without_tiers.
Qed.

End DriverClaims.

Lemma tier_source_failure_witness :
  startup Sample.world_without_tiers = inr tt
  /\ lenders_of Sample.world_without_tiers = inr ["A"; "B"]%string
  /\ tier_source_unusable Sample.world_without_tiers
  /\ exists printed,
       main Sample.world_without_tiers Sample.report_date
       = Completed (mkRun [] printed).
Proof.
  assert (S : startup Sample.world_without_tiers = inr tt) by reflexivity.
  assert (L : lenders_of Sample.world_without_tiers = inr ["A"; "B"]%string)
    by reflexivity.
  assert (U : tier_source_unusable Sample.world_without_tiers)
    by (left; exists FileNotFoundError; reflexivity).
  repeat (split; [assumption |]).
  eexists.
  exact (proj1 (tier_source_failure_is_caught_per_lender
                  Sample.world_without_tiers Sample.report_date _ S L U)).
Defined.

(** C6, as stated, fails: without the lookup file the run for the lenders
    A and B is not aborted; the failure for A is caught, the loop goes on
    to B, and the run completes. *)
Lemma run_without_tiers_is_not_aborted :
  main Sample.world_without_tiers Sample.report_date
  = Completed
      (mkRun []
         [RunningQuery "A"; ErrorRunningQuery "A" FileNotFoundError;
          RunningQuery "B"; ErrorRunningQuery "B" FileNotFoundError;
          AllProcessed])
  /\ ~ (exists e r,
          main Sample.world_without_tiers Sample.report_date = Aborted e r).
Proof.
  assert (E : main Sample.world_without_tiers Sample.report_date
              = Completed
                  (mkRun []
                     [RunningQuery "A"; ErrorRunningQuery "A" FileNotFoundError;
                      RunningQuery "B"; ErrorRunningQuery "B" FileNotFoundError;
                      AllProcessed]))
    by (vm_compute; reflexivity).
  split; [exact E |].
  intros [e [r E']]. rewrite E in E'. discriminate.
Qed.

(** * Further properties *)

(** ** Order and bounds of the ranks *)

Lemma count_gt_mono (a b : Z) (l : list Z) :
  a <= b -> count_gt b l <= count_gt a l.
Proof.
  intros Hab. induction l as [| y l IH]; [reflexivity |].
  rewrite !count_gt_cons.
  destruct (Z.ltb_spec b y), (Z.ltb_spec a y); lia.
Qed.

Lemma count_gt_strict (a b : Z) (l : list Z) :
  a < b -> In b l -> count_gt b l < count_gt a l.
Proof.
  intros Hab. induction l as [| y l IH]; intros Hin; [destruct Hin |].
  rewrite !count_gt_cons.
  destruct Hin as [-> | Hin].
  - pose proof (count_gt_mono a b l ltac:(lia)).
    destruct (Z.ltb_spec b b), (Z.ltb_spec a b); lia.
  - specialize (IH Hin).
    destruct (Z.ltb_spec b y), (Z.ltb_spec a y); lia.
Qed.

Lemma count_gt_bound (x : Z) (l : list Z) :
  In x l -> 0 <= count_gt x l < Z.of_nat (length l).
Proof.
  induction l as [| y l IH]; intros Hin; [destruct Hin |].
  rewrite count_gt_cons. cbn [length].
  assert (N : 0 <= count_gt x l <= Z.of_nat (length l)).
  { unfold count_gt. pose proof (filter_length_le (fun y => x <? y) l). lia. }
  destruct Hin as [-> | Hin].
  - rewrite Z.ltb_irrefl. lia.
  - specialize (IH Hin). destruct (x <? y); lia.
Qed.

Lemma count_gt_zero (x : Z) (l : list Z) :
  count_gt x l = 0 <-> Forall (fun y => y <= x) l.
Proof.
  split; [| apply count_gt_none].
  induction l as [| y l IH]; intros E; constructor.
  - rewrite count_gt_cons in E.
    assert (0 <= count_gt x l) by (unfold count_gt; lia).
    destruct (Z.ltb_spec x y); lia.
  - apply IH. rewrite count_gt_cons in E.
    assert (0 <= count_gt x l) by (unfold count_gt; lia).
    destruct (x <? y); lia.
Qed.

Lemma list_has_maximum (l : list Z) :
  l <> [] -> exists m, In m l /\ Forall (fun y => y <= m) l.
Proof.
  induction l as [| x l IH]; intros Hne; [congruence |].
  destruct l as [| y l].
  - exists x. split; [now left |]. constructor; [lia | constructor].
  - destruct IH as [m [Hm Hall]]; [discriminate |].
    destruct (Z.le_gt_cases x m).
    + exists m. split; [now right |]. constructor; assumption.
    + exists x. split; [now left |]. constructor; [lia |].
      eapply Forall_impl; [| exact Hall]. intros; cbn in *; lia.
Qed.

Section RankOrder.
Context {float : Type} `{Scalars float}.
Local Abbreviation cell := (cell float).
Local Abbreviation CountRow := (CountRow float).

(** Rank of a row of a group, by the counts of the group. *)
Lemma rank_in_group (count_df : list CountRow) (cr o : CountRow) :
  In o (tier_month_group count_df cr) ->
  rank_in_tier count_df o
  = 1 + count_gt (scenario_count o)
          (map scenario_count (tier_month_group count_df cr)).
Proof.
  intros Ho. unfold rank_in_tier.
  fold (tier_month_group count_df o).
  rewrite (tier_month_group_same count_df cr o Ho).
  apply rank_min_desc_count. now apply in_map.
Qed.

Lemma In_own_group (count_df : list CountRow) (cr : CountRow) :
  In cr count_df -> In cr (tier_month_group count_df cr).
Proof.
  intros Hin. apply filter_In. split; [exact Hin | apply same_tier_month_refl].
Qed.

(** X1. A rank of the count table lies between 1 and the number of rows
    of its tier and month. *)
Theorem rank_in_tier_bounds (iTime iTier iLender iScenario : nat)
  (rs : list (list cell)) (cr : CountRow) :
  In cr (groupby_count iTime iTier iLender iScenario rs) ->
  1 <= rank_in_tier (groupby_count iTime iTier iLender iScenario rs) cr
    <= Z.of_nat (length (tier_month_group
                           (groupby_count iTime iTier iLender iScenario rs) cr)).
Proof.
  intros Hin. apply In_own_group in Hin.
  rewrite (rank_in_group _ cr cr Hin).
  pose proof (count_gt_bound (scenario_count cr)
                (map scenario_count (tier_month_group
                   (groupby_count iTime iTier iLender iScenario rs) cr))
                (in_map _ _ _ Hin)) as B.
  rewrite length_map in B. lia.
Qed.

(** X2. Within a tier and month a strictly greater count means a strictly
    smaller rank, and two rows have the same rank exactly when they have
    the same count. *)
Theorem rank_in_tier_order (iTime iTier iLender iScenario : nat)
  (rs : list (list cell)) (cr o : CountRow) :
  In cr (groupby_count iTime iTier iLender iScenario rs) ->
  In o (tier_month_group (groupby_count iTime iTier iLender iScenario rs) cr) ->
  let count_df := groupby_count iTime iTier iLender iScenario rs in
  (scenario_count cr < scenario_count o
   <-> rank_in_tier count_df o < rank_in_tier count_df cr)
  /\ (scenario_count o = scenario_count cr
      <-> rank_in_tier count_df o = rank_in_tier count_df cr).
Proof.
  intros Hin Ho count_df. apply In_own_group in Hin. fold count_df in Hin, Ho.
  rewrite (rank_in_group _ cr cr Hin), (rank_in_group _ cr o Ho).
  set (vals := map scenario_count (tier_month_group count_df cr)).
  assert (Vc : In (scenario_count cr) vals) by now apply in_map.
  assert (Vo : In (scenario_count o) vals) by now apply in_map.
  pose proof (count_gt_strict (scenario_count cr) (scenario_count o) vals) as S1.
  pose proof (count_gt_strict (scenario_count o) (scenario_count cr) vals) as S2.
  destruct (Z.lt_total (scenario_count cr) (scenario_count o)) as [L | [E | L]].
  - specialize (S1 L Vo). split; split; lia.
  - rewrite E. split; split; lia.
  - specialize (S2 L Vc). split; split; lia.
Qed.

(** X3. A row has rank 1 exactly when no row of its tier and month has a
    greater count, and every tier and month of the count table has a row
    of rank 1. *)
Theorem rank_one_is_top (iTime iTier iLender iScenario : nat)
  (rs : list (list cell)) (cr : CountRow) :
  In cr (groupby_count iTime iTier iLender iScenario rs) ->
  let count_df := groupby_count iTime iTier iLender iScenario rs in
  (rank_in_tier count_df cr = 1
   <-> forall o, In o (tier_month_group count_df cr) ->
                 scenario_count o <= scenario_count cr)
  /\ exists top, In top (tier_month_group count_df cr)
                 /\ rank_in_tier count_df top = 1.
Proof.
  intros Hin count_df. apply In_own_group in Hin. fold count_df in Hin.
  set (vals := map scenario_count (tier_month_group count_df cr)).
  split.
  - rewrite (rank_in_group _ cr cr Hin). fold vals.
    assert (Z0 : 1 + count_gt (scenario_count cr) vals = 1
                 <-> count_gt (scenario_count cr) vals = 0) by lia.
    rewrite Z0, count_gt_zero, Forall_forall. unfold vals. split.
    + intros A o Ho. apply A. now apply in_map.
    + intros A y Hy. apply in_map_iff in Hy. destruct Hy as [o [<- Ho]].
      now apply A.
  - destruct (list_has_maximum vals) as [m [Hm Hall]].
    { intros E. apply (in_map scenario_count) in Hin. fold vals in Hin.
      rewrite E in Hin. destruct Hin. }
    unfold vals in Hm. apply in_map_iff in Hm. destruct Hm as [top [<- Ht]].
    exists top. split; [exact Ht |].
    rewrite (rank_in_group _ cr top Ht). fold vals.
    now rewrite (proj2 (count_gt_zero _ _) Hall).
Qed.

End RankOrder.

Lemma rank_in_tier_bounds_witness :
  In Sample.count_row_C_july (groupby_count 1 5 0 2 Sample.window_rows)
  /\ 1 <= rank_in_tier (groupby_count 1 5 0 2 Sample.window_rows)
            Sample.count_row_C_july <= 3.
Proof.
  assert (Hin : In Sample.count_row_C_july
                   (groupby_count 1 5 0 2 Sample.window_rows)).
  { vm_compute. tauto. }
  split; [exact Hin |].
  exact (rank_in_tier_bounds 1 5 0 2 Sample.window_rows
           Sample.count_row_C_july Hin).
Defined.

Lemma rank_in_tier_order_witness :
  In Sample.count_row_C_july (groupby_count 1 5 0 2 Sample.window_rows)
  /\ In Sample.count_row_A_july
        (tier_month_group (groupby_count 1 5 0 2 Sample.window_rows)
           Sample.count_row_C_july)
  /\ rank_in_tier (groupby_count 1 5 0 2 Sample.window_rows)
       Sample.count_row_A_july
     < rank_in_tier (groupby_count 1 5 0 2 Sample.window_rows)
         Sample.count_row_C_july.
Proof.
  assert (Hin : In Sample.count_row_C_july
                   (groupby_count 1 5 0 2 Sample.window_rows)).
  { vm_compute. tauto. }
  assert (Ho : In Sample.count_row_A_july
                  (tier_month_group (groupby_count 1 5 0 2 Sample.window_rows)
                     Sample.count_row_C_july)).
  { vm_compute. tauto. }
  split; [exact Hin |]. split; [exact Ho |].
  apply (proj1 (rank_in_tier_order 1 5 0 2 Sample.window_rows
                  Sample.count_row_C_july Sample.count_row_A_july Hin Ho)).
  vm_compute. reflexivity.
Defined.

Lemma rank_one_is_top_witness :
  In Sample.count_row_C_july (groupby_count 1 5 0 2 Sample.window_rows)
  /\ exists top,
       In top (tier_month_group (groupby_count 1 5 0 2 Sample.window_rows)
                 Sample.count_row_C_july)
       /\ rank_in_tier (groupby_count 1 5 0 2 Sample.window_rows) top = 1.
Proof.
  assert (Hin : In Sample.count_row_C_july
                   (groupby_count 1 5 0 2 Sample.window_rows)).
  { vm_compute. tauto. }
  split; [exact Hin |].
  exact (proj2 (rank_one_is_top 1 5 0 2 Sample.window_rows
                  Sample.count_row_C_july Hin)).
Defined.

(** ** The count table counts every record once *)

Section CountTotal.
Context {float : Type} `{Scalars float}.
Local Abbreviation cell := (cell float).
Local Abbreviation CountRow := (CountRow float).
Local Abbreviation GroupKey := (@GroupKey float).
Variables iTime iTier iLender iScenario : nat.

Lemma sumZ_of_nat (f : GroupKey -> nat) (ks : list GroupKey) :
  sumZ (map (fun k => Z.of_nat (f k)) ks) = Z.of_nat (list_sum (map f ks)).
Proof.
  induction ks as [| k ks IH]; [reflexivity |].
  change (Z.of_nat (f k) + sumZ (map (fun k => Z.of_nat (f k)) ks)
          = Z.of_nat (f k + list_sum (map f ks))).
  rewrite IH. lia.
Qed.

Lemma list_sum_cons (n : nat) (l : list nat) :
  list_sum (n :: l) = (n + list_sum l)%nat.
Proof. reflexivity. Qed.

Lemma list_sum_zero (ks : list GroupKey) :
  list_sum (map (fun _ => 0%nat) ks) = 0%nat.
Proof. induction ks; cbn; auto. Qed.

Lemma list_sum_plus (f g : GroupKey -> nat) (ks : list GroupKey) :
  list_sum (map (fun k => (f k + g k)%nat) ks)
  = (list_sum (map f ks) + list_sum (map g ks))%nat.
Proof.
  induction ks as [| k ks IH]; [reflexivity |].
  cbn [map]. rewrite !list_sum_cons, IH. lia.
Qed.

(** Over a duplicate-free list of keys, a record belongs to exactly one
    group when its key is listed and to none when it has no key. *)
Lemma one_group (ks : list GroupKey) (r : list cell) (b : bool) :
  NoDup ks ->
  (forall k, group_key iTime iTier iLender r = Some k -> In k ks) ->
  list_sum (map (fun k =>
              if in_group iTime iTier iLender k r && b then 1%nat else 0%nat) ks)
  = if match group_key iTime iTier iLender r with
       | Some _ => b
       | None => false
       end
    then 1%nat else 0%nat.
Proof.
  unfold in_group. intros Hnd Hin.
  destruct (group_key iTime iTier iLender r) as [k0 |].
  - specialize (Hin k0 eq_refl). clear r.
    induction Hnd as [| k ks Hnot Hnd IH]; [destruct Hin |].
    cbn [map]. rewrite list_sum_cons.
    destruct (GroupKey_eq_dec k k0) as [-> | Hne].
    + cbn [andb].
      assert (Z0 : list_sum (map (fun k =>
                     if (if GroupKey_eq_dec k k0 then true else false) && b
                     then 1%nat else 0%nat) ks) = 0%nat).
      { clear IH Hin Hnd. induction ks as [| k ks IH]; [reflexivity |].
        cbn [map]. rewrite list_sum_cons.
        destruct (GroupKey_eq_dec k k0) as [-> | _].
        - exfalso. apply Hnot. now left.
        - cbn [andb]. rewrite IH; [reflexivity |].
          intros Hin. apply Hnot. now right. }
      rewrite Z0. destruct b; reflexivity.
    + cbn [andb]. destruct Hin as [E | Hin]; [congruence |]. now apply IH.
  - cbn [andb]. apply list_sum_zero.
Qed.

Lemma group_sizes (ks : list GroupKey) (p : list cell -> bool)
  (rs : list (list cell)) :
  NoDup ks ->
  (forall r k, In r rs -> group_key iTime iTier iLender r = Some k -> In k ks) ->
  list_sum (map (fun k =>
              length (filter (fun r => in_group iTime iTier iLender k r && p r) rs))
            ks)
  = length (filter (fun r => match group_key iTime iTier iLender r with
                             | Some _ => p r
                             | None => false
                             end) rs).
Proof.
  intros Hnd. induction rs as [| r rs IH]; intros Hin.
  - cbn. apply list_sum_zero.
  - cbn [filter].
    erewrite map_ext.
    2:{ intros k.
        instantiate (1 := fun k =>
          ((if in_group iTime iTier iLender k r && p r then 1 else 0)
           + length (filter (fun r0 => in_group iTime iTier iLender k r0 && p r0) rs))%nat).
        cbv beta.
        destruct (in_group iTime iTier iLender k r && p r); reflexivity. }
    rewrite list_sum_plus, IH, one_group.
    + destruct (match group_key iTime iTier iLender r with
                | Some _ => p r | None => false end); reflexivity.
    + exact Hnd.
    + intros k E. apply (Hin r k); [now left | exact E].
    + intros r0 k Hr0. apply Hin. now right.
Qed.

Lemma counted_record_key (r : list cell) :
  counted_record iTime iTier iLender iScenario r
  = match group_key iTime iTier iLender r with
    | Some _ => negb (isna (iloc iScenario r))
    | None => false
    end.
Proof.
  unfold counted_record, group_key, has_key.
  destruct (isna (iloc iTier r)), (isna (iloc iLender r)); cbn; try reflexivity.
  destruct (month_of (iloc iTime r)); reflexivity.
Qed.

(** X4. The counts of the count table add up to the number of records
    whose tier, lender, instant and scenario are all present: grouping
    counts each such record once and no other record. *)
Theorem count_table_total (rs : list (list cell)) :
  sumZ (map scenario_count (groupby_count iTime iTier iLender iScenario rs))
  = Z.of_nat (length (filter
                (counted_record iTime iTier iLender iScenario) rs)).
Proof.
  unfold groupby_count. rewrite map_map. cbn [scenario_count].
  unfold count_notna.
  rewrite (sumZ_of_nat (fun k => length (filter
             (fun r => in_group iTime iTier iLender k r
                       && negb (isna (iloc iScenario r))) rs))).
  f_equal. rewrite group_sizes.
  - f_equal. apply filter_ext. intros r. symmetry. apply counted_record_key.
  - apply NoDup_nodup.
  - intros r k Hr E. apply nodup_In. apply In_group_keys. eauto.
Qed.

End CountTotal.

(** ** The rank cells of the output *)

Section RankCells.
Context {float : Type} `{Scalars float}.
Local Abbreviation cell := (cell float).
Local Abbreviation DataFrame := (DataFrame float).

Lemma appended_ranks_entity (iTime iTier iLender iScenario : nat)
  (cur one two : Period) (rs : list (list cell)) (r1 r2 : list cell) :
  iloc iTier r1 = iloc iTier r2 ->
  iloc iLender r1 = iloc iLender r2 ->
  appended_ranks iTime iTier iLender iScenario cur one two rs r1
  = appended_ranks iTime iTier iLender iScenario cur one two rs r2.
Proof.
  intros E1 E2.
  unfold appended_ranks, entity_ranked, has_key, entity_in_month, same_entity.
  now rewrite E1, E2.
Qed.

(** X5. In the output of the engine two records of the same tier and
    lender are followed by the same two rank cells. *)
Theorem same_entity_same_ranks (df out : DataFrame) (cm om tm : Timestamp)
  (iTier iLender : nat) :
  prepare_rank_data df cm om tm = inr out ->
  get_loc "Tier" (columns df) = Some iTier ->
  get_loc "exportedLender" (columns df) = Some iLender ->
  forall i j r1 r2 o1 o2,
    nth_error (rows df) i = Some r1 -> nth_error (rows df) j = Some r2 ->
    nth_error (rows out) i = Some o1 -> nth_error (rows out) j = Some o2 ->
    iloc iTier r1 = iloc iTier r2 ->
    iloc iLender r1 = iloc iLender r2 ->
    exists t, o1 = r1 ++ t /\ o2 = r2 ++ t.
Proof.
  intros E LT LL i j r1 r2 o1 o2 N1 N2 M1 M2 E1 E2.
  apply prepare_rank_data_inr in E.
  destruct E as [a [b [c [d [_ [Eb [Ec [_ [_ [_ [_ ->]]]]]]]]]]].
  rewrite LT in Eb. rewrite LL in Ec. inversion Eb; inversion Ec; subst b c.
  cbn [rows] in M1, M2.
  rewrite nth_error_map, N1 in M1. rewrite nth_error_map, N2 in M2.
  cbn in M1, M2. inversion M1; inversion M2; subst o1 o2.
  eexists. split; [reflexivity |].
  f_equal. symmetry. now apply appended_ranks_entity.
Qed.

(** X6. For a record of an entity that has a countable record in a
    lagging month, the rank cell of that month in the output is the rank
    of the row of the count table with the tier and lender of the record
    and that month. *)
Theorem rank_cell_is_rank_in_tier (df out : DataFrame) (cm om tm : Timestamp)
  (iTime iTier iLender iScenario : nat) :
  prepare_rank_data df cm om tm = inr out ->
  get_loc "time" (columns df) = Some iTime ->
  get_loc "Tier" (columns df) = Some iTier ->
  get_loc "exportedLender" (columns df) = Some iLender ->
  get_loc "scenarioId" (columns df) = Some iScenario ->
  let count_df :=
    groupby_count iTime iTier iLender iScenario
      (filter (fun x => in_window (to_period cm) (to_period om) (to_period tm)
                          (iloc iTime x)) (rows df)) in
  forall i r o,
    nth_error (rows df) i = Some r ->
    nth_error (rows out) i = Some o ->
    has_key iTier iLender r = true ->
    exists c1 c2, o = r ++ [c1; c2]
      /\ (entity_in_month iTime iTier iLender (rows df) r (to_period om) = true ->
          exists cr, In cr count_df
            /\ (cr_Tier cr, cr_exportedLender cr, cr_Month cr)
               = (iloc iTier r, iloc iLender r, to_period om)
            /\ c1 = CInt (rank_in_tier count_df cr))
      /\ (entity_in_month iTime iTier iLender (rows df) r (to_period tm) = true ->
          exists cr, In cr count_df
            /\ (cr_Tier cr, cr_exportedLender cr, cr_Month cr)
               = (iloc iTier r, iloc iLender r, to_period tm)
            /\ c2 = CInt (rank_in_tier count_df cr)).
Proof.
  intros E Lt LT LL LS count_df i r o N M K.
  apply prepare_rank_data_inr in E.
  destruct E as [a [b [c [d [Ea [Eb [Ec [Ed [_ [_ [_ ->]]]]]]]]]]].
  rewrite Lt in Ea. rewrite LT in Eb. rewrite LL in Ec. rewrite LS in Ed.
  inversion Ea; inversion Eb; inversion Ec; inversion Ed; subst a b c d.
  cbn [rows] in M. rewrite nth_error_map, N in M. cbn in M.
  inversion M; subst o. clear M.
  assert (Hcell : forall M, in_three (to_period cm) (to_period om) (to_period tm) M ->
            entity_in_month iTime iTier iLender (rows df) r M = true ->
            entity_ranked iTime iTier iLender (rows df) (to_period cm)
              (to_period om) (to_period tm) r = true
            /\ exists cr, In cr count_df
                 /\ (cr_Tier cr, cr_exportedLender cr, cr_Month cr)
                    = (iloc iTier r, iloc iLender r, M)
                 /\ pivot_cell (rank_in_tier count_df) count_df
                      (iloc iTier r, iloc iLender r) M
                    = rank_in_tier count_df cr).
  { intros M H3 EM. split.
    - unfold entity_ranked. rewrite K. cbn [andb].
      destruct H3 as [-> | [-> | ->]]; rewrite EM;
        rewrite ?orb_true_r; reflexivity.
    - apply pivot_cell_value.
      apply (count_row_iff iTime iTier iLender iScenario).
      apply entity_in_month_spec in EM. destruct EM as [x [Hx [Et Em]]].
      exists x. repeat split; auto.
      now rewrite (has_key_same iTier iLender x r Et). }
  unfold appended_ranks. fold count_df.
  destruct (entity_ranked iTime iTier iLender (rows df) (to_period cm)
              (to_period om) (to_period tm) r) eqn:R.
  - eexists. eexists. split; [reflexivity |]. split; intros EM.
    + destruct (Hcell (to_period om)) as [_ [cr [A [B C]]]];
        [right; left; reflexivity | exact EM |].
      exists cr. repeat split; auto. now rewrite C.
    + destruct (Hcell (to_period tm)) as [_ [cr [A [B C]]]];
        [right; right; reflexivity | exact EM |].
      exists cr. repeat split; auto. now rewrite C.
  - eexists. eexists. split; [reflexivity |]. split; intros EM.
    + destruct (Hcell (to_period om)) as [R' _];
        [right; left; reflexivity | exact EM | congruence].
    + destruct (Hcell (to_period tm)) as [R' _];
        [right; right; reflexivity | exact EM | congruence].
Qed.

End RankCells.

Lemma same_entity_same_ranks_witness :
  prepare_rank_data Sample.joined_df (current_month Sample.report_date)
    (one_month_before Sample.report_date)
    (two_months_before Sample.report_date) = inr Sample.ranked_df
  /\ exists t,
       nth 0 (rows Sample.ranked_df) [] = nth 0 (rows Sample.joined_df) [] ++ t
       /\ nth 2 (rows Sample.ranked_df) [] = nth 2 (rows Sample.joined_df) [] ++ t.
Proof.
  assert (E : prepare_rank_data Sample.joined_df
                (current_month Sample.report_date)
                (one_month_before Sample.report_date)
                (two_months_before Sample.report_date) = inr Sample.ranked_df)
    by reflexivity.
  split; [exact E |].
  exact (same_entity_same_ranks _ _ _ _ _ 5%nat 0%nat E eq_refl eq_refl
           0%nat 2%nat _ _ _ _ eq_refl eq_refl eq_refl eq_refl eq_refl eq_refl).
Defined.

Lemma rank_cell_is_rank_in_tier_witness :
  prepare_rank_data Sample.joined_df (current_month Sample.report_date)
    (one_month_before Sample.report_date)
    (two_months_before Sample.report_date) = inr Sample.ranked_df
  /\ has_key 5 0 (nth 6 (rows Sample.joined_df) []) = true
  /\ exists c1 c2,
       nth 6 (rows Sample.ranked_df) []
       = nth 6 (rows Sample.joined_df) [] ++ [c1; c2].
Proof.
  assert (E : prepare_rank_data Sample.joined_df
                (current_month Sample.report_date)
                (one_month_before Sample.report_date)
                (two_months_before Sample.report_date) = inr Sample.ranked_df)
    by reflexivity.
  assert (K : has_key 5 0 (nth 6 (rows Sample.joined_df) []) = true)
    by reflexivity.
  split; [exact E |]. split; [exact K |].
  destruct (rank_cell_is_rank_in_tier _ _ _ _ _ 1%nat 5%nat 0%nat 2%nat
              E eq_refl eq_refl eq_refl eq_refl 6%nat _ _ eq_refl eq_refl K)
    as [c1 [c2 [Eo _]]].
  exists c1, c2. exact Eo.
Defined.

(** ** Records outside the window, and empty months *)

Section WindowEdges.
Context {float : Type} `{Scalars float}.
Local Abbreviation cell := (cell float).
Local Abbreviation DataFrame := (DataFrame float).

Lemma outside_window_no_month (iTime : nat) (cur one two M : Period)
  (x : list cell) :
  in_window cur one two (iloc iTime x) = false ->
  in_three cur one two M ->
  in_month iTime M x = false.
Proof.
  intros W H3. destruct (in_month iTime M x) eqn:E; [| reflexivity].
  apply in_month_spec in E.
  assert (W' : in_window cur one two (iloc iTime x) = true)
    by (apply in_window_spec; eauto).
  congruence.
Qed.

Lemma appended_ranks_outside (iTime iTier iLender iScenario : nat)
  (cur one two : Period) (rs : list (list cell)) (x r : list cell) :
  in_window cur one two (iloc iTime x) = false ->
  appended_ranks iTime iTier iLender iScenario cur one two (x :: rs) r
  = appended_ranks iTime iTier iLender iScenario cur one two rs r.
Proof.
  intros W. unfold appended_ranks, entity_ranked, entity_in_month.
  cbn [filter existsb]. rewrite W.
  rewrite !(outside_window_no_month iTime cur one two _ x W);
    [| right; right; reflexivity | right; left; reflexivity | left; reflexivity].
  now rewrite !andb_false_r.
Qed.

Lemma month_populated_outside (iTime iTier iLender : nat)
  (cur one two M : Period) (rs : list (list cell)) (x : list cell) :
  in_window cur one two (iloc iTime x) = false ->
  in_three cur one two M ->
  month_populated iTime iTier iLender (x :: rs) M
  = month_populated iTime iTier iLender rs M.
Proof.
  intros W H3. unfold month_populated. cbn [existsb].
  now rewrite (outside_window_no_month iTime cur one two M x W H3), andb_false_r.
Qed.

(** X7. A record whose instant is missing or in none of the three months
    changes nothing for the others: when the engine returns for a frame,
    it also returns for the frame with such a record put in front, and
    the output is the old output with that record, followed by its two
    rank cells, put in front. *)
Theorem record_outside_window_changes_nothing (df out : DataFrame)
  (cm om tm : Timestamp) (iTime : nat) (x : list cell) :
  prepare_rank_data df cm om tm = inr out ->
  get_loc "time" (columns df) = Some iTime ->
  is_datetimelike (iloc iTime x) = true ->
  in_window (to_period cm) (to_period om) (to_period tm) (iloc iTime x) = false ->
  exists c1 c2,
    prepare_rank_data (mkDataFrame (columns df) (x :: rows df)) cm om tm
    = inr (mkDataFrame (columns out) ((x ++ [c1; c2]) :: rows out)).
Proof.
  intros E Lt D W.
  apply prepare_rank_data_inr in E.
  destruct E as [a [b [c [d [Ea [Eb [Ec [Ed [Edt [P1 [P2 ->]]]]]]]]]]].
  rewrite Lt in Ea. inversion Ea; subst a.
  destruct (appended_ranks_two iTime b c d (to_period cm) (to_period om)
              (to_period tm) (x :: rows df) x) as [c1 [c2 Ex]].
  exists c1, c2. apply prepare_rank_data_inr.
  exists iTime, b, c, d. cbn [columns rows].
  repeat (split; [assumption |]).
  split; [cbn [forallb]; now rewrite D, Edt |].
  split.
  { rewrite (month_populated_outside iTime b c _ _ _ _ (rows df) x W);
      [exact P1 | right; left; reflexivity]. }
  split.
  { rewrite (month_populated_outside iTime b c _ _ _ _ (rows df) x W);
      [exact P2 | right; right; reflexivity]. }
  f_equal. cbn [map]. rewrite Ex. f_equal.
  apply map_ext. intros r. f_equal. symmetry.
  now apply appended_ranks_outside.
Qed.

(** X8. The engine and an empty month: for a frame with the four columns
    and a datetime time column, when no record that can be counted lies
    one month before, the engine raises the key error of the one-month
    rank column; when one lies there and none two months before, that of
    the two-months column. *)
Theorem engine_raises_for_empty_month (df : DataFrame) (cm om tm : Timestamp)
  (iTime iTier iLender iScenario : nat) :
  get_loc "time" (columns df) = Some iTime ->
  get_loc "Tier" (columns df) = Some iTier ->
  get_loc "exportedLender" (columns df) = Some iLender ->
  get_loc "scenarioId" (columns df) = Some iScenario ->
  forallb (fun r => is_datetimelike (iloc iTime r)) (rows df) = true ->
  (month_populated iTime iTier iLender (rows df) (to_period om) = false ->
   prepare_rank_data df cm om tm = inl (KeyError "rank_in_tier_one_month"))
  /\ (month_populated iTime iTier iLender (rows df) (to_period om) = true ->
      month_populated iTime iTier iLender (rows df) (to_period tm) = false ->
      prepare_rank_data df cm om tm = inl (KeyError "rank_in_tier_two_months")).
Proof.
  intros Lt LT LL LS D.
  pose proof (month_column_iff iTime iTier iLender iScenario
                (to_period cm) (to_period om) (to_period tm) (rows df)) as Hmonth.
  cbv zeta in Hmonth.
  assert (Hone : month_populated iTime iTier iLender (rows df) (to_period om) = false ->
                 prepare_rank_data df cm om tm
                 = inl (KeyError "rank_in_tier_one_month")).
  { intros P. unfold prepare_rank_data, require, bind.
    rewrite Lt, D, LT, LL, LS. cbn [negb]. unfold select_rank_columns.
    destruct (existsb (period_eqb (to_period om)) _) eqn:E1; [| reflexivity].
    apply existsb_period, Hmonth in E1. destruct E1 as [E1 _]. congruence. }
  split; [exact Hone |].
  intros P1 P2. unfold prepare_rank_data, require, bind.
  rewrite Lt, D, LT, LL, LS. cbn [negb]. unfold select_rank_columns.
  destruct (existsb (period_eqb (to_period om)) _) eqn:E1.
  - cbn [negb].
    destruct (existsb (period_eqb (to_period tm)) _) eqn:E2; [| reflexivity].
    apply existsb_period, Hmonth in E2. destruct E2 as [E2 _]. congruence.
  - assert (E1' : In (to_period om)
              (pv_months (pivot_table
                 (groupby_count iTime iTier iLender iScenario
                    (filter (fun r => in_window (to_period cm) (to_period om)
                               (to_period tm) (iloc iTime r)) (rows df))))))
      by (apply Hmonth; split; [exact P1 | right; left; reflexivity]).
    apply existsb_period in E1'. congruence.
Qed.

End WindowEdges.

Lemma record_outside_window_witness :
  prepare_rank_data Sample.joined_df (current_month Sample.report_date)
    (one_month_before Sample.report_date)
    (two_months_before Sample.report_date) = inr Sample.ranked_df
  /\ exists c1 c2,
       prepare_rank_data
         (mkDataFrame (columns Sample.joined_df)
            (nth 9 (rows Sample.joined_df) [] :: rows Sample.joined_df))
         (current_month Sample.report_date)
         (one_month_before Sample.report_date)
         (two_months_before Sample.report_date)
       = inr (mkDataFrame (columns Sample.ranked_df)
                ((nth 9 (rows Sample.joined_df) [] ++ [c1; c2])
                 :: rows Sample.ranked_df)).
Proof.
  assert (E : prepare_rank_data Sample.joined_df
                (current_month Sample.report_date)
                (one_month_before Sample.report_date)
                (two_months_before Sample.report_date) = inr Sample.ranked_df)
    by reflexivity.
  split; [exact E |].
  exact (record_outside_window_changes_nothing _ _ _ _ _ 1%nat
           (nth 9 (rows Sample.joined_df) []) E eq_refl eq_refl eq_refl).
Defined.

Lemma engine_raises_for_empty_month_witness :
  get_loc "time" (columns Sample.no_june_df) = Some 1%nat
  /\ forallb (fun r => is_datetimelike (iloc 1 r)) (rows Sample.no_june_df) = true
  /\ month_populated 1 5 0 (rows Sample.no_june_df) (2025, 6) = false
  /\ prepare_rank_data Sample.no_june_df (current_month Sample.report_date)
       (one_month_before Sample.report_date)
       (two_months_before Sample.report_date)
     = inl (KeyError "rank_in_tier_two_months").
Proof.
  repeat (split; [reflexivity |]).
  exact (proj2 (engine_raises_for_empty_month Sample.no_june_df
           (current_month Sample.report_date)
           (one_month_before Sample.report_date)
           (two_months_before Sample.report_date)
           1%nat 5%nat 0%nat 2%nat eq_refl eq_refl eq_refl eq_refl eq_refl)
         eq_refl eq_refl).
Defined.

(** ** More on the tier join *)

Section JoinExtras.
Context {float : Type} `{Scalars float}.
Local Abbreviation cell := (cell float).
Local Abbreviation DataFrame := (DataFrame float).

Lemma matches_In (iL iR : nat) (right : list (list cell)) (l t : list cell) :
  In t (matches iL iR right l)
  <-> In t right /\ merge_key_eqb (iloc iL l) (iloc iR t) = true.
Proof. unfold matches. apply filter_In. Qed.

(** X9. With unique keys, a record whose lender matches the key of a row
    of the lookup comes out of the join followed by the cells of that row
    without its key cell: the record gets the tier of its own lender. *)
Theorem matched_record_gets_lookup_row (result_df tier_df joined : DataFrame)
  (iL iR : nat) :
  tier_join result_df tier_df = inr joined ->
  get_loc "exportedLender" (columns result_df) = Some iL ->
  get_loc "Lender" (columns tier_df) = Some iR ->
  unique_keys iR (rows tier_df) = true ->
  well_formed result_df ->
  forall i r t,
    nth_error (rows result_df) i = Some r ->
    In t (rows tier_df) ->
    merge_key_eqb (iloc iL r) (iloc iR t) = true ->
    nth_error (rows joined) i = Some (r ++ drop_at iR t).
Proof.
  intros E EL ER U W i r t N Ht M.
  destruct (tier_join_inr _ _ _ _ _ E EL ER U W) as [_ Erows].
  rewrite Erows, nth_error_map, N. cbn [option_map]. do 3 f_equal.
  unfold lookup_cells.
  pose proof (unique_matches iL iR (rows tier_df) r U) as Hlen.
  assert (Hin : In t (matches iL iR (rows tier_df) r))
    by (apply matches_In; auto).
  destruct (matches iL iR (rows tier_df) r) as [| t' [| t'' ms]].
  - destruct Hin.
  - destruct Hin as [-> | []]. reflexivity.
  - cbn in Hlen. lia.
Qed.

Lemma length_flat_map {A B : Type} (g : A -> list B) (l : list A) :
  length (flat_map g l) = list_sum (map (fun a => length (g a)) l).
Proof.
  induction l as [| a l IH]; [reflexivity |].
  cbn [flat_map map]. rewrite length_app, IH. reflexivity.
Qed.

Lemma list_sum_ge_length {A : Type} (f : A -> nat) (l : list A) :
  (forall a, 1 <= f a)%nat -> (length l <= list_sum (map f l))%nat.
Proof.
  intros Hf. induction l as [| a l IH]; [cbn; lia |].
  cbn [map length]. change (list_sum (f a :: map f l))
    with (f a + list_sum (map f l))%nat.
  specialize (Hf a). lia.
Qed.

(** X10. Without any assumption on the keys of the lookup, the join gives
    for every record as many records as rows of the lookup match it, and
    one when none does: no record is lost, and a record is repeated only
    when the lookup holds its key more than once. *)
Theorem tier_join_cardinality (result_df tier_df joined : DataFrame)
  (iL iR : nat) :
  tier_join result_df tier_df = inr joined ->
  get_loc "exportedLender" (columns result_df) = Some iL ->
  get_loc "Lender" (columns tier_df) = Some iR ->
  length (rows joined)
  = list_sum (map (fun r => Nat.max 1 (length (matches iL iR (rows tier_df) r)))
                  (rows result_df))
  /\ (length (rows result_df) <= length (rows joined))%nat.
Proof.
  intros E EL ER.
  unfold tier_join, require, bind in E. rewrite EL, ER in E.
  unfold drop_column, require, bind in E.
  destruct (get_loc "Lender" (columns (merge_left_on result_df tier_df iL iR)))
    as [k |]; [| discriminate].
  injection E as <-. cbn [rows].
  rewrite length_map, length_flat_map.
  match goal with |- list_sum (map ?g _) = _ /\ _ =>
    assert (L : list_sum (map g (rows result_df))
                = list_sum (map (fun r => Nat.max 1
                                   (length (matches iL iR (rows tier_df) r)))
                                (rows result_df))) end.
  { f_equal. apply map_ext. intros r.
    destruct (matches iL iR (rows tier_df) r) as [| t ms]; [reflexivity |].
    cbn [length]. rewrite ?length_map. lia. }
  split; [exact L |].
  rewrite L. apply list_sum_ge_length. intros r. lia.
Qed.

End JoinExtras.

Lemma matched_record_gets_lookup_row_witness :
  tier_join Sample.result_df Sample.tier_df = inr Sample.joined_df
  /\ unique_keys 0 (rows Sample.tier_df) = true
  /\ well_formed Sample.result_df
  /\ nth_error (rows Sample.joined_df) 6
     = Some (nth 6 (rows Sample.result_df) [] ++ [CStr "1"]).
Proof.
  assert (E : tier_join Sample.result_df Sample.tier_df = inr Sample.joined_df)
    by reflexivity.
  assert (U : unique_keys 0 (rows Sample.tier_df) = true) by reflexivity.
  assert (W : well_formed Sample.result_df) by (repeat constructor).
  repeat (split; [assumption |]).
  apply (matched_record_gets_lookup_row _ _ _ 0%nat 0%nat E eq_refl eq_refl U W
           6%nat _ [CStr "C"; CStr "1"] eq_refl).
  - cbn. tauto.
  - reflexivity.
Defined.

Lemma tier_join_cardinality_witness :
  tier_join Sample.result_df Sample.tier_df = inr Sample.joined_df
  /\ (length (rows Sample.result_df) <= length (rows Sample.joined_df))%nat.
Proof.
  assert (E : tier_join Sample.result_df Sample.tier_df = inr Sample.joined_df)
    by reflexivity.
  split; [exact E |].
  exact (proj2 (tier_join_cardinality _ _ _ 0%nat 0%nat E eq_refl eq_refl)).
Defined.

(** ** The sanitizer, cell by cell *)

Section SanitizerCells.
Context {float : Type} `{Scalars float}.
Local Abbreviation cell := (cell float).
Local Abbreviation DataFrame := (DataFrame float).

Lemma nth_error_apply_at (i j : nat) (f : cell -> cell) (r : list cell) :
  nth_error (apply_at j f r) i
  = if Nat.eqb i j then option_map f (nth_error r i) else nth_error r i.
Proof.
  revert i j. induction r as [| c r IH]; intros i j.
  - destruct j; cbn [apply_at]; destruct (Nat.eqb i _), i; reflexivity.
  - destruct j as [| j], i as [| i]; cbn; try reflexivity. apply IH.
Qed.

Lemma run_steps_rows (steps : list (string * (cell -> cell))) (df : DataFrame) :
  rows (run_steps steps df) = map (row_after (columns df) steps) (rows df).
Proof.
  unfold run_steps, row_after. revert df.
  induction steps as [| [a f] steps IH]; intros df.
  - cbn. now rewrite map_id.
  - cbn [fold_left fst snd]. rewrite IH, map_column_columns.
    unfold map_column. destruct (get_loc a (columns df)) as [j |].
    + cbn [rows]. now rewrite map_map.
    + reflexivity.
Qed.

Lemma length_row_after (cols : list string)
  (steps : list (string * (cell -> cell))) (r : list cell) :
  length (row_after cols steps r) = length r.
Proof.
  unfold row_after. revert r.
  induction steps as [| [a f] steps IH]; intros r; [reflexivity |].
  cbn [fold_left fst snd]. rewrite IH.
  destruct (get_loc a cols); [apply length_apply_at | reflexivity].
Qed.

(** A position that no step assigns to is left alone. *)
Lemma row_after_untouched (cols : list string)
  (steps : list (string * (cell -> cell))) (i : nat) (r : list cell) :
  (forall step, In step steps -> get_loc (fst step) cols <> Some i) ->
  nth_error (row_after cols steps r) i = nth_error r i.
Proof.
  unfold row_after. revert r.
  induction steps as [| [a f] steps IH]; intros r Hn; [reflexivity |].
  cbn [fold_left fst snd]. rewrite IH by (intros s Hs; apply Hn; now right).
  specialize (Hn (a, f) (or_introl eq_refl)). cbn [fst] in Hn.
  destruct (get_loc a cols) as [j |]; [| reflexivity].
  rewrite nth_error_apply_at.
  destruct (Nat.eqb_spec i j) as [-> | _]; [congruence | reflexivity].
Qed.

(** The position of a label that one step assigns to gets the function of
    that step, when the labels of the steps are distinct. *)
Lemma row_after_touched (cols : list string)
  (steps : list (string * (cell -> cell))) (a : string) (f : cell -> cell)
  (i : nat) (r : list cell) :
  NoDup (map fst steps) -> In (a, f) steps -> get_loc a cols = Some i ->
  nth_error (row_after cols steps r) i = option_map f (nth_error r i).
Proof.
  intros Hnd Hin Ea.
  assert (Hother : forall b j, b <> a -> get_loc b cols = Some j -> j <> i).
  { intros b j Hb Eb ->. apply get_loc_nth_error in Ea.
    apply get_loc_nth_error in Eb. congruence. }
  unfold row_after. revert r.
  induction steps as [| [b g] steps IH]; intros r; [destruct Hin |].
  cbn [map fst] in Hnd. inversion Hnd as [| ? ? Hnot Hnd']; subst.
  cbn [fold_left fst snd].
  destruct Hin as [E | Hin].
  - inversion E; subst b g. rewrite Ea.
    fold (row_after cols steps (apply_at i f r)).
    rewrite row_after_untouched.
    + now rewrite nth_error_apply_at, Nat.eqb_refl.
    + intros [b g] Hs Eb. cbn [fst] in Eb.
      apply (Hother b i); [| exact Eb | reflexivity].
      intros ->. apply Hnot. apply in_map_iff. exists (a, g). auto.
  - rewrite (IH Hnd' Hin).
    assert (Hb : b <> a).
    { intros ->. apply Hnot. apply in_map_iff. exists (a, f). auto. }
    destruct (get_loc b cols) as [j |] eqn:Eb; [| reflexivity].
    rewrite nth_error_apply_at.
    destruct (Nat.eqb_spec i j) as [-> | _]; [| reflexivity].
    exfalso. now apply (Hother b j Hb Eb).
Qed.

Lemma cleaning_step_labels (step : string * (cell -> cell)) :
  In step cleaning_steps ->
  fst step = "time"%string \/ In (fst step) string_columns
  \/ In (fst step) numeric_columns.
Proof.
  unfold cleaning_steps. intros [<- | Hin]; [now left |].
  apply in_app_or in Hin. destruct Hin as [Hin | Hin];
    apply in_map_iff in Hin; destruct Hin as [col [<- Hc]]; cbn [fst]; auto.
Qed.

(** X11. [clean_dataframe] keeps the column list, the number of records
    and the number of cells of every record. *)
Theorem clean_dataframe_keeps_shape (df : DataFrame) :
  columns (fst (clean_dataframe df)) = columns df
  /\ length (rows (fst (clean_dataframe df))) = length (rows df)
  /\ Forall2 (fun r r' => length r' = length r)
             (rows df) (rows (fst (clean_dataframe df))).
Proof.
  rewrite clean_dataframe_steps, run_steps_rows.
  split; [apply run_steps_shape |].
  split; [apply length_map |].
  apply Forall2_map_self. intros r _. apply length_row_after.
Qed.

(** X12. A column whose label is not [time] and is in neither list of
    designated columns passes through [clean_dataframe] unchanged. *)
Theorem other_columns_pass_through (df : DataFrame) (i : nat) (label : string) :
  nth_error (columns df) i = Some label ->
  label <> "time"%string ->
  ~ In label string_columns ->
  ~ In label numeric_columns ->
  Forall2 (fun r r' => nth_error r' i = nth_error r i)
          (rows df) (rows (fst (clean_dataframe df))).
Proof.
  intros Hl Ht Hs Hn.
  rewrite clean_dataframe_steps, run_steps_rows.
  apply Forall2_map_self. intros r _.
  apply row_after_untouched. intros step Hstep E.
  apply get_loc_nth_error in E. rewrite Hl in E. inversion E as [E'].
  destruct (cleaning_step_labels step Hstep) as [L | [L | L]];
    rewrite <- E' in L; auto.
Qed.

(** X13. In the first column that carries a designated label every cell
    becomes: its printed form for [time]; its printed form without the
    seven characters for a string column; the number it stands for, or
    the missing number, for a numeric column, so that a numeric column
    holds only numbers and missing numbers afterwards. *)
Theorem designated_columns_cell_by_cell (df : DataFrame) (col : string)
  (i : nat) :
  get_loc col (columns df) = Some i ->
  let cleaned := rows (fst (clean_dataframe df)) in
  (col = "time"%string ->
   Forall2 (fun r r' => nth_error r' i = option_map astype_str (nth_error r i))
           (rows df) cleaned)
  /\ (In col string_columns ->
      Forall2 (fun r r' =>
                 nth_error r' i
                 = option_map (fun c => CStr (strip_chars (str_cell c)))
                              (nth_error r i))
              (rows df) cleaned)
  /\ (In col numeric_columns ->
      Forall2 (fun r r' =>
                 nth_error r' i = option_map to_numeric (nth_error r i)
                 /\ forall c, nth_error r' i = Some c -> is_numeric c = true)
              (rows df) cleaned).
Proof.
  intros Ei cleaned. unfold cleaned.
  rewrite clean_dataframe_steps, run_steps_rows.
  assert (T : forall f, In (col, f) cleaning_steps ->
            Forall2 (fun r r' => nth_error r' i = option_map f (nth_error r i))
              (rows df) (map (row_after (columns df) cleaning_steps) (rows df))).
  { intros f Hf. apply Forall2_map_self. intros r _.
    apply (row_after_touched _ _ col f); auto.
    apply cleaning_steps_distinct. }
  split; [| split].
  - intros ->. apply T. now left.
  - intros Hc. apply (T (fun c => replace_cell (astype_str c))).
    right. apply in_or_app. left.
    apply in_map_iff. exists col. auto.
  - intros Hc.
    assert (Hf : In (col, to_numeric) (@cleaning_steps float _)).
    { right. apply in_or_app. right. apply in_map_iff. exists col. auto. }
    specialize (T to_numeric Hf).
    eapply Forall2_impl; [| exact T]. cbv beta.
    intros r r' E. split; [exact E |].
    intros c Ec. rewrite E in Ec.
    destruct (nth_error r i) as [c0 |]; [| discriminate].
    cbn in Ec. inversion Ec; subst c. clear.
    destruct c0; try reflexivity. cbn.
    destruct (to_numeric_str s) as [[z | x] |]; reflexivity.
Qed.

End SanitizerCells.

Lemma other_columns_pass_through_witness :
  nth_error (columns Sample.joined_df) 5 = Some "Tier"%string
  /\ Forall2 (fun r r' => nth_error r' 5 = nth_error r 5)
             (rows Sample.joined_df)
             (rows (fst (clean_dataframe Sample.joined_df))).
Proof.
  assert (E : nth_error (columns Sample.joined_df) 5 = Some "Tier"%string)
    by reflexivity.
  split; [exact E |].
  apply (other_columns_pass_through Sample.joined_df 5%nat "Tier"%string E).
  - discriminate.
  - cbn. intuition discriminate.
  - cbn. intuition discriminate.
Defined.

Lemma designated_columns_cell_by_cell_witness :
  get_loc "lvr"%string (columns Sample.result_df) = Some 4%nat
  /\ Forall2 (fun r r' =>
                nth_error r' 4 = option_map to_numeric (nth_error r 4)
                /\ forall c, nth_error r' 4 = Some c -> is_numeric c = true)
             (rows Sample.result_df)
             (rows (fst (clean_dataframe Sample.result_df))).
Proof.
  assert (E : get_loc "lvr"%string (columns Sample.result_df) = Some 4%nat)
    by reflexivity.
  split; [exact E |].
  apply (designated_columns_cell_by_cell Sample.result_df "lvr"%string 4%nat E).
  cbn. tauto.
Defined.

(** ** The validation of a file just written *)






Section ExportExtras.
Context {float : Type} `{Scalars float}.
Local Abbreviation cell := (cell float).
Local Abbreviation DataFrame := (DataFrame float).



End ExportExtras.



(** ** The loop over the lenders *)

Section DriverExtras.
Context {float : Type} `{Scalars float}.
Local Abbreviation World := (World float).

Lemma main_loop_per_lender (w : World) (report_date : Timestamp)
  (lenders : list string) (r : Run) :
  files (main_loop w report_date lenders r)
  = files r ++ flat_map (export_of w report_date) lenders
  /\ printed (main_loop w report_date lenders r)
     = printed r ++ flat_map (lines_of w report_date) lenders.
Proof.
  revert r. induction lenders as [| l ls IH]; intros r.
  - cbn. now rewrite !app_nil_r.
  - cbn [main_loop flat_map].
    assert (Ee : export_of w report_date l
                 = match process_lender w report_date l with
                   | inr (content, _) => [(l, content)]
                   | inl _ => []
                   end) by reflexivity.
    assert (El : lines_of w report_date l
                 = RunningQuery l
                   :: match process_lender w report_date l with
                      | inr (_, evs) => evs
                      | inl e => [ErrorRunningQuery l e]
                      end) by reflexivity.
    rewrite Ee, El. clear Ee El.
    destruct (process_lender w report_date l) as [e | [content evs]];
      rewrite (proj1 (IH _)), (proj2 (IH _));
      cbn [print files printed app];
      rewrite <- ?app_assoc; split; reflexivity.
Qed.

(** X16. When the start-up and the lender query succeed the run
    completes. The files written are, in the order of the lenders, those
    of the lenders whose processing raises nothing, each with the content
    computed for that lender alone; a lender whose processing raises gets
    its error line and no file, and the other lenders are not affected.
    The closing line is printed last. *)
Theorem run_is_per_lender (w : World) (report_date : Timestamp) (u : unit)
  (lenders : list string) :
  startup w = inr u ->
  lenders_of w = inr lenders ->
  exists r,
    main w report_date = Completed r
    /\ files r = flat_map (export_of w report_date) lenders
    /\ printed r = flat_map (lines_of w report_date) lenders ++ [AllProcessed]
    /\ (forall lender content,
          In (lender, content) (files r)
          <-> In lender lenders
              /\ exists evs,
                   process_lender w report_date lender = inr (content, evs))
    /\ (forall lender e,
          In lender lenders ->
          process_lender w report_date lender = inl e ->
          In (ErrorRunningQuery lender e) (printed r)
          /\ ~ In lender (map fst (files r))).
Proof.
  intros Es El. unfold main. rewrite Es, El.
  destruct (main_loop_per_lender w report_date lenders (mkRun [] []))
    as [F P]. cbn [files printed app] in F, P.
  eexists. split; [reflexivity |].
  cbn [print files printed]. rewrite F, P.
  split; [reflexivity |]. split; [reflexivity |].
  assert (Hin : forall lender content,
            In (lender, content) (flat_map (export_of w report_date) lenders)
            <-> In lender lenders
                /\ exists evs,
                     process_lender w report_date lender = inr (content, evs)).
  { intros lender content. rewrite in_flat_map. unfold export_of. split.
    - intros [l [Hl Hx]].
      destruct (process_lender w report_date l) as [e | [c evs]] eqn:E;
        [destruct Hx |].
      destruct Hx as [Hx | []]. inversion Hx; subst. eauto.
    - intros [Hl [evs E]]. exists lender. split; [exact Hl |].
      rewrite E. now left. }
  split; [exact Hin |].
  intros lender e Hl E. split.
  - apply in_or_app. left. apply in_flat_map. exists lender.
    split; [exact Hl |]. unfold lines_of. rewrite E. right. now left.
  - intros Hf. apply in_map_iff in Hf. destruct Hf as [[l c] [<- Hf]].
    apply Hin in Hf. destruct Hf as [_ [evs E']]. cbn [fst] in E.
    congruence.
Qed.

End DriverExtras.

Lemma run_is_per_lender_witness :
  startup Sample.mixed_world = inr tt
  /\ lenders_of Sample.mixed_world = inr ["A"; "Z"]%string
  /\ exists r,
       main Sample.mixed_world Sample.report_date = Completed r
       /\ map fst (files r) = ["A"%string]
       /\ In (ErrorRunningQuery "Z" QueryError) (printed r).
Proof.
  assert (Es : startup Sample.mixed_world = inr tt) by reflexivity.
  assert (El : lenders_of Sample.mixed_world = inr ["A"; "Z"]%string)
    by reflexivity.
  split; [exact Es |]. split; [exact El |].
  destruct (run_is_per_lender Sample.mixed_world Sample.report_date tt _ Es El)
    as [r [Em [Ef [_ [_ Herr]]]]].
  exists r. split; [exact Em |]. split.
  - rewrite Ef. vm_compute. reflexivity.
  - apply (Herr "Z"%string QueryError); [cbn; tauto | reflexivity].
Defined.

(** ** The months that are counted *)

Section WindowExtras.
Context {float : Type} `{Scalars float}.

(** X17. With the three months that [main] passes to the ranking engine,
    the mask of the engine keeps an instant exactly when its month is the
    report month or one of the two months before it on the line of
    calendar months, across a year boundary too; a value that is no
    instant is never kept. *)
Theorem window_is_three_consecutive_months (report_date t : Timestamp) :
  1 <= month report_date <= 12 ->
  1 <= month t <= 12 ->
  (in_window (to_period (current_month report_date))
             (to_period (one_month_before report_date))
             (to_period (two_months_before report_date))
             (@CTime float t) = true
   <-> month_ordinal (to_period report_date) - 2
       <= month_ordinal (to_period t)
       <= month_ordinal (to_period report_date))
  /\ forall c : cell float,
       month_of c = None ->
       in_window (to_period (current_month report_date))
                 (to_period (one_month_before report_date))
                 (to_period (two_months_before report_date)) c = false.
Proof.
  intros Hm Ht.
  assert (Hc : 1 <= month (current_month report_date) <= 12) by exact Hm.
  destruct (sub_months_ordinal 1 (current_month report_date) Hc) as [O1 R1];
    [lia |].
  destruct (sub_months_ordinal 2 (current_month report_date) Hc) as [O2 R2];
    [lia |].
  fold (one_month_before report_date) in O1, R1.
  fold (two_months_before report_date) in O2, R2.
  assert (Ec : to_period (current_month report_date) = to_period report_date)
    by reflexivity.
  rewrite Ec in *.
  split.
  - unfold in_window, month_of.
    rewrite !orb_true_iff, !period_eqb_eq. split.
    + intros [[E | E] | E]; rewrite E; lia.
    + intros [Lo Hi].
      assert (D : month_ordinal (to_period t)
                  = month_ordinal (to_period report_date)
                  \/ month_ordinal (to_period t)
                     = month_ordinal (to_period (one_month_before report_date))
                  \/ month_ordinal (to_period t)
                     = month_ordinal (to_period (two_months_before report_date)))
        by lia.
      destruct D as [D | [D | D]];
        [left; left | left; right | right];
        (apply month_ordinal_inj; [exact Ht | assumption | exact D]).
  - intros c Ec'. unfold in_window. now rewrite Ec'.
Qed.

End WindowExtras.

Lemma window_is_three_consecutive_months_witness :
  1 <= month Sample.report_date <= 12
  /\ 1 <= month (Sample.at_noon 2025 6 3) <= 12
  /\ in_window (to_period (current_month Sample.report_date))
               (to_period (one_month_before Sample.report_date))
               (to_period (two_months_before Sample.report_date))
               (@CTime Empty_set (Sample.at_noon 2025 6 3)) = true.
Proof.
  assert (Hm : 1 <= month Sample.report_date <= 12) by (cbn; lia).
  assert (Ht : 1 <= month (Sample.at_noon 2025 6 3) <= 12) by (cbn; lia).
  split; [exact Hm |]. split; [exact Ht |].
  apply (proj1 (window_is_three_consecutive_months
                  Sample.report_date (Sample.at_noon 2025 6 3) Hm Ht)).
  cbn. lia.
Defined.

(** ** The whole file, read back *)

Section FileExtras.
Context {float : Type} `{Scalars float}.
Local Abbreviation cell := (cell float).
Local Abbreviation DataFrame := (DataFrame float).



End FileExtras.


(** ** The exceptions of the ranking engine *)

Section EngineErrors.
Context {float : Type} `{Scalars float}.
Local Abbreviation DataFrame := (DataFrame float).

(** X18. Whenever the ranking engine raises, it raises the key error of
    one of its four columns and that column is missing, or the attribute
    error and the time column holds a value that is no instant, or the
    key error of the rank column of a lagging month and no record that
    can be counted lies in that month. It raises nothing else. *)
Theorem engine_error_is_classified (df : DataFrame) (cm om tm : Timestamp)
  (e : exn) :
  prepare_rank_data df cm om tm = inl e ->
  (e = KeyError "time" /\ get_loc "time" (columns df) = None)
  \/ (e = AttributeError
      /\ exists iTime,
           get_loc "time" (columns df) = Some iTime
           /\ forallb (fun r => is_datetimelike (iloc iTime r)) (rows df)
              = false)
  \/ (e = KeyError "Tier" /\ get_loc "Tier" (columns df) = None)
  \/ (e = KeyError "exportedLender"
      /\ get_loc "exportedLender" (columns df) = None)
  \/ (e = KeyError "scenarioId" /\ get_loc "scenarioId" (columns df) = None)
  \/ (exists iTime iTier iLender,
        get_loc "time" (columns df) = Some iTime
        /\ get_loc "Tier" (columns df) = Some iTier
        /\ get_loc "exportedLender" (columns df) = Some iLender
        /\ ((e = KeyError "rank_in_tier_one_month"
             /\ month_populated iTime iTier iLender (rows df) (to_period om)
                = false)
            \/ (e = KeyError "rank_in_tier_two_months"
                /\ month_populated iTime iTier iLender (rows df) (to_period tm)
                   = false))).
Proof.
  intros E. unfold prepare_rank_data, require, bind in E.
  destruct (get_loc "time" (columns df)) as [iTime |] eqn:Lt;
    [| inversion E; left; auto].
  destruct (forallb _ (rows df)) eqn:D; cbn [negb] in E;
    [| inversion E; right; left; eauto].
  destruct (get_loc "Tier" (columns df)) as [iTier |] eqn:LT;
    [| inversion E; right; right; left; auto].
  destruct (get_loc "exportedLender" (columns df)) as [iLender |] eqn:LL;
    [| inversion E; right; right; right; left; auto].
  destruct (get_loc "scenarioId" (columns df)) as [iScenario |] eqn:LS;
    [| inversion E; right; right; right; right; left; auto].
  do 5 right. exists iTime, iTier, iLender.
  repeat (split; [reflexivity |]).
  pose proof (month_column_iff iTime iTier iLender iScenario
                (to_period cm) (to_period om) (to_period tm) (rows df))
    as Hmonth.
  cbv zeta in Hmonth.
  unfold select_rank_columns in E.
  destruct (existsb (period_eqb (to_period om)) _) eqn:E1; cbn [negb] in E.
  - destruct (existsb (period_eqb (to_period tm)) _) eqn:E2; cbn [negb] in E;
      [discriminate |].
    inversion E. right. split; [reflexivity |].
    destruct (month_populated iTime iTier iLender (rows df) (to_period tm))
      eqn:P; [| reflexivity].
    exfalso.
    assert (Hin : In (to_period tm)
                (pv_months (pivot_table
                   (groupby_count iTime iTier iLender iScenario
                      (filter (fun r => in_window (to_period cm) (to_period om)
                                 (to_period tm) (iloc iTime r)) (rows df))))))
      by (apply Hmonth; split; [exact P | right; right; reflexivity]).
    apply existsb_period in Hin. congruence.
  - inversion E. left. split; [reflexivity |].
    destruct (month_populated iTime iTier iLender (rows df) (to_period om))
      eqn:P; [| reflexivity].
    exfalso.
    assert (Hin : In (to_period om)
                (pv_months (pivot_table
                   (groupby_count iTime iTier iLender iScenario
                      (filter (fun r => in_window (to_period cm) (to_period om)
                                 (to_period tm) (iloc iTime r)) (rows df))))))
      by (apply Hmonth; split; [exact P | right; left; reflexivity]).
    apply existsb_period in Hin. congruence.
Qed.

End EngineErrors.

Lemma engine_error_is_classified_witness :
  prepare_rank_data Sample.result_df (current_month Sample.report_date)
    (one_month_before Sample.report_date)
    (two_months_before Sample.report_date)
  = inl (KeyError "Tier")
  /\ get_loc "Tier"%string (columns Sample.result_df) = None.
Proof.
  assert (E : prepare_rank_data Sample.result_df
                (current_month Sample.report_date)
                (one_month_before Sample.report_date)
                (two_months_before Sample.report_date)
              = inl (KeyError "Tier")) by reflexivity.
  split; [exact E |].
  destruct (engine_error_is_classified _ _ _ _ _ E)
    as [[D _] | [[D _] | [[_ L] | [[D _] | [[D _] | [? [? [? [_ [_ [_ D]]]]]]]]]]];
    try discriminate D; [exact L |].
  destruct D as [[D _] | [D _]]; discriminate D.
Defined.

(** ** When the tier join returns *)

Section JoinErrors.
Context {float : Type} `{Scalars float}.
Local Abbreviation DataFrame := (DataFrame float).

Lemma get_loc_None_iff (x : string) (a : list string) :
  get_loc x a = None <-> ~ In x a.
Proof.
  split.
  - intros E Hin. induction a as [| c a IH]; [destruct Hin |].
    cbn in E. destruct (String.eqb_spec c x) as [_ | Hne]; [discriminate |].
    destruct (get_loc x a); [discriminate |].
    destruct Hin as [-> | Hin]; [now apply Hne | now apply IH].
  - intros Hn. apply get_loc_None. intros c Hc ->. now apply Hn.
Qed.

(** X20. When the tier join returns, the records have an
    [exportedLender] column, the lookup has a [Lender] column and the
    records have no [Lender] column of their own. When it raises, it
    raises the key error of [exportedLender] and the records have no such
    column, or the key error of [Lender] and either the lookup has no
    [Lender] column or the records have one (both are then renamed by the
    merge and none is left to drop). *)
Theorem tier_join_needs_its_columns (result_df tier_df : DataFrame) :
  match tier_join result_df tier_df with
  | inr _ =>
      In "exportedLender"%string (columns result_df)
      /\ In "Lender"%string (columns tier_df)
      /\ ~ In "Lender"%string (columns result_df)
  | inl e =>
      (e = KeyError "exportedLender"
       /\ ~ In "exportedLender"%string (columns result_df))
      \/ (e = KeyError "Lender"
          /\ (~ In "Lender"%string (columns tier_df)
              \/ In "Lender"%string (columns result_df)))
  end.
Proof.
  unfold tier_join, require, bind.
  destruct (get_loc "exportedLender" (columns result_df)) as [iL |] eqn:EL;
    [| left; split; [reflexivity | now apply get_loc_None_iff]].
  apply get_loc_In in EL.
  destruct (get_loc "Lender" (columns tier_df)) as [iR |] eqn:ER;
    [| right; split; [reflexivity |]; left; now apply get_loc_None_iff].
  unfold drop_column, require, bind.
  change (columns (merge_left_on result_df tier_df iL iR))
    with (map (suffix_left (columns tier_df)) (columns result_df)
          ++ map (suffix_right (columns result_df)) (columns tier_df)).
  assert (HR : In "Lender"%string (columns tier_df))
    by (eapply get_loc_In; exact ER).
  rewrite get_loc_app, (Lender_not_left_suffixed _ _ HR).
  rewrite Lender_right_suffixed, ER.
  destruct (mem_label "Lender" (columns result_df)) eqn:M.
  - cbn [option_map]. right. split; [reflexivity |].
    right. now apply mem_label_In.
  - cbn [option_map columns].
    assert (NL : ~ In "Lender"%string (columns result_df)).
    { intros Hin. apply mem_label_In in Hin. congruence. }
    repeat (split; [assumption |]). exact NL.
Qed.

End JoinErrors.
